(** * The document cabinet builder ([cabinet/build.py])

    A shallow embedding of the build script: discovery of dossier documents,
    title extraction, dossier codes, document ids, rendering through the
    external converter, the index page and the cleanup of generated output.

    Conventions of the model.
    - A Python [str] is a [string], the bytes of its UTF-8 form, so the
      order of two strings is the order of Python.  The character classes
      ([str.isspace], [str.upper], [str.lower], [str.title], the class
      [\s], the boundaries of [str.splitlines]) are those of Python on
      text of the ASCII range ([ascii_text]); above it they are not
      modelled, and a statement that depends on them is made for text of
      the ASCII range.
    - A path below the cabinet directory is the list of its parts, and a
      part [..] is not resolved: a statement about the place of a page is
      made for plain names.
    - A [dict] with string keys built at run time keeps its insertion order:
      it is an association list without duplicate keys.  The constant
      tables are [gmap]s.
    - The files below the cabinet directory are a finite map from relative
      paths to objects; the script reads the dossier tree and writes the
      cabinet tree, which are disjoint.
    - The converter is a function from its command line to an exit status
      and two texts; the dossier tree is given by what the directory scans
      return, in the order in which they return it. *)

From Stdlib Require Import Ascii String List Arith Lia Bool.
From Stdlib Require DecimalString DecimalNat.
From stdpp Require Import base option list sorting gmap strings.

Local Open Scope string_scope.
Local Open Scope list_scope.

(** ** Characters and strings *)

Definition code (c : ascii) : nat := nat_of_ascii c.

Definition in_range (lo hi : nat) (c : ascii) : bool :=
  (lo <=? code c)%nat && (code c <=? hi)%nat.

Definition is_upper (c : ascii) : bool := in_range 65 90 c.
Definition is_lower (c : ascii) : bool := in_range 97 122 c.
Definition is_digit (c : ascii) : bool := in_range 48 57 c.

(** A cased character, as [str.title] sees it. *)
Definition is_cased (c : ascii) : bool := is_upper c || is_lower c.

(** The class [[a-zA-Z0-9]] of [dossier_code]. *)
Definition is_alnum (c : ascii) : bool := is_cased c || is_digit c.

(** [str.isspace] and the class [\s]: tab, line feed, vertical tab, form
    feed, carriage return, the four separators 28 to 31, and the space. *)
Definition is_space (c : ascii) : bool :=
  in_range 9 13 c || in_range 28 31 c || (code c =? 32)%nat.

(** The line boundaries of [str.splitlines]. *)
Definition is_linebreak (c : ascii) : bool :=
  in_range 10 13 c || in_range 28 30 c.

Definition upper_char (c : ascii) : ascii :=
  if is_lower c then ascii_of_nat (code c - 32) else c.

Definition lower_char (c : ascii) : ascii :=
  if is_upper c then ascii_of_nat (code c + 32) else c.

Fixpoint map_string (f : ascii -> ascii) (s : string) : string :=
  match s with
  | "" => ""
  | String c s' => String (f c) (map_string f s')
  end.

(** [s.upper()] and [s.lower()]. *)
Definition upper (s : string) : string := map_string upper_char s.
Definition lower (s : string) : string := map_string lower_char s.

(** [s[:n]]. *)
Fixpoint take_string (n : nat) (s : string) : string :=
  match n, s with
  | S k, String c s' => String c (take_string k s')
  | _, _ => ""
  end.

(** [s[n:]]. *)
Fixpoint drop_string (n : nat) (s : string) : string :=
  match n, s with
  | S k, String _ s' => drop_string k s'
  | _, _ => s
  end.

Fixpoint lstrip (s : string) : string :=
  match s with
  | String c s' => if is_space c then lstrip s' else s
  | "" => ""
  end.

(** [s.rstrip()]: a space is dropped when all that follows is dropped. *)
Fixpoint rstrip (s : string) : string :=
  match s with
  | "" => ""
  | String c s' =>
      match rstrip s' with
      | "" => if is_space c then "" else String c ""
      | r => String c r
      end
  end.

(** [s.strip()]. *)
Definition strip (s : string) : string := rstrip (lstrip s).

Definition nonempty (s : string) : bool :=
  match s with "" => false | _ => true end.

(** [old in s] at the front: [s.startswith(old)]. *)
Fixpoint starts_with (old s : string) : bool :=
  match old, s with
  | "", _ => true
  | String a old', String b s' => if ascii_dec a b then starts_with old' s' else false
  | _, "" => false
  end.

(** [s.replace(old, new)] for a non-empty [old]: the occurrences are taken
    from the left and do not overlap.  [skip] counts the characters of the
    occurrence just replaced that are still to be passed over. *)
Fixpoint replace_go (old new : string) (skip : nat) (s : string) : string :=
  match s with
  | "" => ""
  | String c s' =>
      match skip with
      | S k => replace_go old new k s'
      | O =>
          if starts_with old s
          then new +:+ replace_go old new (String.length old - 1) s'
          else String c (replace_go old new 0 s')
      end
  end.

Definition replace (old new s : string) : string := replace_go old new 0 s.

(** [sep.join(parts)]. *)
Fixpoint join (sep : string) (parts : list string) : string :=
  match parts with
  | [] => ""
  | [p] => p
  | p :: rest => p +:+ sep +:+ join sep rest
  end.

(** [s.title()]: a cased character is upper-cased when the character before
    it is not cased, lower-cased otherwise. *)
Fixpoint title_go (prev_cased : bool) (s : string) : string :=
  match s with
  | "" => ""
  | String c s' =>
      String (if prev_cased then lower_char c else upper_char c)
             (title_go (is_cased c) s')
  end.

Definition title (s : string) : string := title_go false s.

(** [s.splitlines()]: [cur] is the line being read; the text after the last
    boundary is a line only when it is not empty, and a carriage return
    followed by a line feed is one boundary. *)
Fixpoint splitlines_go (cur : string) (s : string) : list string :=
  match s with
  | "" => if nonempty cur then [cur] else []
  | String c s' =>
      if is_linebreak c then
        cur :: match s' with
               | String c' s'' =>
                   if (code c =? 13)%nat && (code c' =? 10)%nat
                   then splitlines_go "" s''
                   else splitlines_go "" s'
               | "" => []
               end
      else splitlines_go (cur +:+ String c "") s'
  end.

Definition splitlines (s : string) : list string := splitlines_go "" s.

(** ** Constant tables *)

Definition DISPLAY_NAMES : gmap string string :=
  <["wonton-soup" := "Wonton Soup"]> (<["lenia-swarm" := "Lenia Swarm"]> ∅).

Definition DOSSIER_CODES : gmap string string :=
  <["wonton-soup" := "WS"]> (<["lenia-swarm" := "LS"]> ∅).

Definition CATEGORY_ORDER : list string :=
  ["core"; "backends"; "providers"; "corpus"].

(** ** [extract_title] *)

(** The longest prefix of characters that are not a line feed, and the rest:
    what [.+] can take at most. *)
Fixpoint span_dot (s : string) : string * string :=
  match s with
  | "" => ("", "")
  | String c s' =>
      if (code c =? 10)%nat then ("", s)
      else let '(g, r) := span_dot s' in (String c g, r)
  end.

(** [(.+)$] at the start of [s]: [.+] takes every character up to the first
    line feed, and [$] holds at the end of the string or before a line feed
    that ends it.  A shorter [.+] stops before a character that is not a
    line feed, where [$] fails. *)
Definition match_group (s : string) : option string :=
  let '(g, r) := span_dot s in
  if nonempty g && (String.eqb r "" || String.eqb r (String (ascii_of_nat 10) ""))
  then Some g else None.

(** [\s+(.+)$] at the start of [s]: [\s+] is greedy, so the longest run of
    spaces is tried first, then the shorter ones down to one space. *)
Fixpoint match_spaces (s : string) : option string :=
  match s with
  | String c s' =>
      if is_space c then
        match match_spaces s' with
        | Some g => Some g
        | None => match_group s'
        end
      else None
  | "" => None
  end.

(** [re.match(r"^#\s+(.+)$", line)], giving [m.group(1)]. *)
Definition match_h1 (line : string) : option string :=
  match line with
  | String c s' => if (code c =? 35)%nat then match_spaces s' else None
  | "" => None
  end.

(** The first element of [l] on which [f] answers: a [for] loop that
    returns from its body. *)
Fixpoint first_some {A B} (f : A -> option B) (l : list A) : option B :=
  match l with
  | [] => None
  | x :: l' => match f x with Some y => Some y | None => first_some f l' end
  end.

(** [PurePath.stem] of a file name: the name up to its last dot, when that
    dot is neither the first nor the last character. *)
Fixpoint rfind_dot (i : nat) (s : string) : option nat :=
  match s with
  | "" => None
  | String c s' =>
      match rfind_dot (S i) s' with
      | Some j => Some j
      | None => if (code c =? 46)%nat then Some i else None
      end
  end.

Definition stem (name : string) : string :=
  match rfind_dot 0 name with
  | Some i =>
      if (0 <? i)%nat && (i <? String.length name - 1)%nat
      then take_string i name else name
  | None => name
  end.

Definition heading_title (line : string) : option string :=
  match match_h1 line with Some g => Some (strip g) | None => None end.

Definition nonblank_title (line : string) : option string :=
  let stripped := strip line in
  if nonempty stripped then Some stripped else None.

Definition name_title (name : string) : string :=
  title (replace "_" " " (replace "-" " " (stem name))).

(** [extract_title(md_path)], from the text of the file and its name. *)
Definition extract_title (text name : string) : string :=
  let lines := splitlines text in
  match first_some heading_title (take 5 lines) with
  | Some t => t
  | None =>
      match first_some nonblank_title (take 3 lines) with
      | Some t => t
      | None => name_title name
      end
  end.

(** ** [dossier_code] *)

(** [re.split(r"[^a-zA-Z0-9]+", s)]: the parts between the runs of
    characters that are not alphanumeric, the empty ones included. *)
Fixpoint re_split_go (cur : string) (in_sep : bool) (s : string) : list string :=
  match s with
  | "" => [cur]
  | String c s' =>
      if is_alnum c then re_split_go (cur +:+ String c "") false s'
      else if in_sep then re_split_go cur true s'
      else cur :: re_split_go "" true s'
  end.

Definition re_split (s : string) : list string := re_split_go "" false s.

(** [p[0]] of a non-empty part. *)
Definition first_char (p : string) : string := take_string 1 p.

Definition dossier_code (dossier : string) : string :=
  match DOSSIER_CODES !! dossier with
  | Some c => c
  | None =>
      let parts := filter (fun p => nonempty p = true) (re_split dossier) in
      let initials := upper (join "" (map first_char (take 3 parts))) in
      if nonempty initials then initials else upper (take_string 2 dossier)
  end.

(** ** Entries and the sort key *)

(** An entry dict; the key [doc_id] is absent until ids are assigned. *)
Record entry := Entry {
  e_path : string;
  e_title : string;
  e_slug : string;
  e_category : string;
  e_doc_id : option string
}.

(** [l.index(x)], when [x in l]. *)
Fixpoint list_index (x : string) (l : list string) : option nat :=
  match l with
  | [] => None
  | y :: l' => if String.eqb y x then Some 0 else S <$> list_index x l'
  end.

Definition category_idx (category : string) : nat :=
  match list_index category CATEGORY_ORDER with
  | Some i => i
  | None => length CATEGORY_ORDER
  end.

Definition sort_key : Type := nat * string * string.

Definition entry_sort_key (e : entry) : sort_key :=
  (category_idx (e_category e), lower (e_title e), e_slug e).

(** [k1 < k2] on tuples: the first component that differs decides. *)
Definition key_ltb (k1 k2 : sort_key) : bool :=
  let '(c1, t1, s1) := k1 in
  let '(c2, t2, s2) := k2 in
  if (c1 =? c2)%nat then
    if String.eqb t1 t2 then String.ltb s1 s2 else String.ltb t1 t2
  else (c1 <? c2)%nat.

(** [sorted(l)] for the order [lt]: a stable sort, an element goes before
    the first one that is not smaller than it. *)
Fixpoint insert_by {A} (lt : A -> A -> bool) (x : A) (l : list A) : list A :=
  match l with
  | [] => [x]
  | y :: l' => if lt y x then y :: insert_by lt x l' else x :: l
  end.

Definition sorted_by {A} (lt : A -> A -> bool) (l : list A) : list A :=
  foldr (insert_by lt) [] l.

(** [a] may stand before [b] in a sorted list: [b] is not smaller. *)
Definition not_after {A} (lt : A -> A -> bool) (a b : A) : Prop := lt b a = false.

Definition entry_ltb (e1 e2 : entry) : bool :=
  key_ltb (entry_sort_key e1) (entry_sort_key e2).

(** [sorted(entries, key=entry_sort_key)]. *)
Definition sorted_entries (entries : list entry) : list entry :=
  sorted_by entry_ltb entries.

(** ** [assign_doc_ids] *)

Definition decimal (n : nat) : string :=
  DecimalString.NilEmpty.string_of_uint (Nat.to_uint n).

Fixpoint zeros (n : nat) : string :=
  match n with O => "" | S k => String "0" (zeros k) end.

(** The format [03d]. *)
Definition fmt03 (n : nat) : string :=
  let d := decimal n in zeros (3 - String.length d) +:+ d.

Definition doc_id_of (code : string) (idx : nat) : string :=
  code +:+ "-" +:+ fmt03 idx.

Definition set_doc_id (id : string) (e : entry) : entry :=
  Entry (e_path e) (e_title e) (e_slug e) (e_category e) (Some id).

(** The entries of a list with their places in it: the sort moves
    references to the dicts, and the assignment reaches the dict itself. *)
Definition with_places (entries : list entry) : list (nat * entry) :=
  zip (seq 0 (length entries)) entries.

Definition sorted_places (entries : list entry) : list nat :=
  (sorted_by (fun a b => entry_ltb a.2 b.2) (with_places entries)).*1.

(** The loop over [enumerate(sorted(entries, key=entry_sort_key), start=1)]. *)
Definition assign_entries (code : string) (entries : list entry) : list entry :=
  foldl (fun es '(idx, i) => alter (set_doc_id (doc_id_of code idx)) i es)
        entries
        (zip (seq 1 (length entries)) (sorted_places entries)).

Definition dossiers : Type := list (string * list entry).

Definition assign_doc_ids (ds : dossiers) : dossiers :=
  map (fun '(dossier, entries) => (dossier, assign_entries (dossier_code dossier) entries)) ds.

(** ** [find_docs] *)

(** A Markdown file below a [docs] folder: its path relative to the folder
    and its text. *)
Record md_file := MdFile { md_rel : list string; md_text : string }.

(** A match of [*/docs] below a root: the name of the dossier directory
    and the [*.md] files found below, as the directory scan gives them. *)
Record docs_dir := DocsDir { dd_name : string; dd_files : list md_file }.

Record proc_result := ProcResult {
  returncode : Z;
  proc_stdout : string;
  proc_stderr : string
}.

(** What the script finds outside the cabinet directory. *)
Record env := Env {
  repo_root : string;
  which_pandoc : bool;
  listing : string -> option (list docs_dir);
  run_pandoc : list string -> proc_result;
  now_utc : string
}.

Definition DOSSIER_ROOTS : list string := ["dossiers"].

(** [p < q] on paths: their parts are compared as lists of strings. *)
Fixpoint parts_ltb (p q : list string) : bool :=
  match p, q with
  | _, [] => false
  | [], _ :: _ => true
  | a :: p', b :: q' => if String.eqb a b then parts_ltb p' q' else String.ltb a b
  end.

(** [rel.with_suffix] with the empty suffix. *)
Fixpoint with_suffix_empty (parts : list string) : list string :=
  match parts with
  | [] => []
  | [name] => [stem name]
  | p :: rest => p :: with_suffix_empty rest
  end.

Definition file_name (parts : list string) : string := List.last parts "".

Definition make_entry (e : env) (root dossier : string) (md : md_file) : entry :=
  let rel := md_rel md in
  Entry (repo_root e +:+ "/" +:+ root +:+ "/" +:+ dossier +:+ "/docs/" +:+ join "/" rel)
        (extract_title (md_text md) (file_name rel))
        (join "/" (with_suffix_empty rel))
        (match rel with c :: _ :: _ => c | _ => "" end)
        None.

(** [d[k] = v]: a new key goes last, a known key keeps its place. *)
Fixpoint dict_set {V} (k : string) (v : V) (d : list (string * V)) : list (string * V) :=
  match d with
  | [] => [(k, v)]
  | (k', v') :: d' => if String.eqb k' k then (k, v) :: d' else (k', v') :: dict_set k v d'
  end.

Definition dict_get {V} (k : string) (d : list (string * V)) : option V :=
  snd <$> List.find (fun kv => String.eqb kv.1 k) d.

Definition scan_docs_dir (e : env) (root : string) (acc : dossiers) (dd : docs_dir) : dossiers :=
  let entries :=
    map (make_entry e root (dd_name dd))
        (sorted_by (fun a b => parts_ltb (md_rel a) (md_rel b)) (dd_files dd)) in
  match entries with
  | [] => acc
  | _ => dict_set (dd_name dd) entries acc
  end.

Definition scan_root (e : env) (acc : dossiers) (root : string) : dossiers :=
  match listing e root with
  | None => acc
  | Some dirs =>
      foldl (scan_docs_dir e root) acc
            (sorted_by (fun a b => String.ltb (dd_name a) (dd_name b)) dirs)
  end.

Definition find_docs (e : env) : dossiers :=
  foldl (scan_root e) [] DOSSIER_ROOTS.

(** ** The cabinet directory and the effects of the script *)

(** An object below the cabinet directory, at a path relative to it. *)
Inductive obj := FFile (content : string) | FDir.

Global Instance obj_eq_dec : EqDecision obj.
Proof. solve_decision. Defined.

(** How a run of a function ends: it returns, [sys.exit] is called, or an
    exception is raised and not caught. *)
Inductive outcome (A : Type) : Type :=
  | Done (a : A)
  | Exit (status : nat)
  | Raise (exc : string).
Arguments Done {A} a.
Arguments Exit {A} status.
Arguments Raise {A} exc.

(** Code without effects that may raise. *)
Definition obind {A B} (o : outcome A) (k : A -> outcome B) : outcome B :=
  match o with
  | Done a => k a
  | Exit n => Exit n
  | Raise x => Raise x
  end.

Notation "'try' x <- o ; k" := (obind o (fun x => k))
  (at level 10, x name, o at level 100, k at level 200).

(** The cabinet files, the lines printed to the two streams, and the
    command lines of the processes run so far. *)
Record world := World {
  fs : gmap (list string) obj;
  stdout : list string;
  stderr : list string;
  spawned : list (list string)
}.

Definition M (A : Type) : Type := world -> outcome A * world.

Definition ret {A} (a : A) : M A := fun w => (Done a, w).

Definition bind {A B} (m : M A) (k : A -> M B) : M B :=
  fun w =>
    match m w with
    | (Done a, w') => k a w'
    | (Exit n, w') => (Exit n, w')
    | (Raise x, w') => (Raise x, w')
    end.

Notation "'do' x <- m ; k" := (bind m (fun x => k))
  (at level 10, x name, m at level 100, k at level 200).
Notation "m ;; k" := (bind m (fun _ => k))
  (at level 100, k at level 200, right associativity).

(** A computation without effects, run inside one that has them. *)
Definition lift {A} (o : outcome A) : M A := fun w => (o, w).

Definition sys_exit {A} (status : nat) : M A := fun w => (Exit status, w).
Definition raise {A} (exc : string) : M A := fun w => (Raise exc, w).

Definition print (line : string) : M unit :=
  fun w => (Done tt, World (fs w) (stdout w ++ [line]) (stderr w) (spawned w)).

Definition eprint (line : string) : M unit :=
  fun w => (Done tt, World (fs w) (stdout w) (stderr w ++ [line]) (spawned w)).

Definition set_fs (m : gmap (list string) obj) (w : world) : world :=
  World m (stdout w) (stderr w) (spawned w).

(** A [for] loop whose body has effects. *)
Fixpoint for_each {A} (l : list A) (body : A -> M unit) : M unit :=
  match l with
  | [] => ret tt
  | x :: l' => body x ;; for_each l' body
  end.

(** The cabinet directory itself is the empty path. *)
Definition dir_at (m : gmap (list string) obj) (p : list string) : bool :=
  match p with
  | [] => true
  | _ => bool_decide (m !! p = Some FDir)
  end.

Definition file_at (m : gmap (list string) obj) (p : list string) : bool :=
  match m !! p with Some (FFile _) => true | _ => false end.

Definition is_dir (p : list string) : M bool := fun w => (Done (dir_at (fs w) p), w).
Definition is_file (p : list string) : M bool := fun w => (Done (file_at (fs w) p), w).

(** The path and the directories above it, below the cabinet directory. *)
Definition ancestors (p : list string) : list (list string) :=
  map (fun n => take n p) (seq 1 (length p)).

Definition parent (p : list string) : list string := removelast p.

(** [p.mkdir(parents=True, exist_ok=True)]: fails when the path or a
    directory above it is a file, with [NotADirectoryError] when it is a
    directory above it and with [FileExistsError] when it is the path. *)
Definition mkdir_p (p : list string) : M unit :=
  fun w =>
    if existsb (file_at (fs w)) (ancestors p)
    then (Raise (if existsb (file_at (fs w)) (ancestors (parent p))
                 then "NotADirectoryError" else "FileExistsError"), w)
    else (Done tt, set_fs (foldr (fun q m => <[q := FDir]> m) (fs w) (ancestors p)) w).



(** [p.write_text(content)]: the directory of the file must exist and the
    path must not be a directory. *)
Definition write_text (p : list string) (content : string) : M unit :=
  fun w =>
    if dir_at (fs w) (parent p) && negb (dir_at (fs w) p)
    then (Done tt, set_fs (<[p := FFile content]> (fs w)) w)
    else (Raise "OSError", w).

Definition read_text (p : list string) : M string :=
  fun w =>
    match fs w !! p with
    | Some (FFile content) => (Done content, w)
    | _ => (Raise "OSError", w)
    end.

(** [shutil.rmtree(p)]: the directory and all that is below it. *)
Definition rmtree (p : list string) : M unit :=
  fun w => (Done tt, set_fs (filter (fun kv => ¬ p `prefix_of` kv.1) (fs w)) w).

(** [CABINET_DIR.iterdir()]: the names directly below the cabinet. *)
Definition iterdir : M (list string) :=
  fun w => (Done (omap (fun kv => match kv.1 with [name] => Some name | _ => None end)
                       (map_to_list (fs w))), w).

Definition subprocess_run (e : env) (cmd : list string) : M proc_result :=
  fun w => (Done (run_pandoc e cmd),
            World (fs w) (stdout w) (stderr w) (spawned w ++ [cmd])).

(** ** Paths *)

Definition dq : string := String (ascii_of_nat 34) "".
Definition nl : string := String (ascii_of_nat 10) "".

(** The parts of [s] between the occurrences of the character [sep]. *)
Fixpoint split_go (sep : ascii) (cur : string) (s : string) : list string :=
  match s with
  | "" => [cur]
  | String c s' =>
      if ascii_dec c sep then cur :: split_go sep "" s'
      else split_go sep (cur +:+ String c "") s'
  end.

(** [Path(s).parts] of a relative path: empty parts and [.] are dropped. *)
Definition path_parts (s : string) : list string :=
  filter (fun p => p <> "" /\ p <> ".") (split_go "/" "" s).

Definition TEMPLATE : list string := ["cabinet-template.html"].
Definition INDEX_TEMPLATE : list string := ["index-template.html"].

(** [str(CABINET_DIR / p)]. *)
Definition cabinet_path (e : env) (p : list string) : string :=
  join "/" ((repo_root e +:+ "/site/cabinet") :: p).

(** [(CABINET_DIR / p).relative_to(SITE_ROOT)], as printed. *)
Definition site_relative (p : list string) : string := join "/" ("cabinet" :: p).

(** [output_dir_for(dossier, slug)], below the cabinet directory. *)
Definition output_dir_for (dossier slug : string) : list string :=
  dossier :: path_parts slug.

Definition display_name (dossier : string) : string :=
  match DISPLAY_NAMES !! dossier with
  | Some d => d
  | None => title (replace "-" " " dossier)
  end.

Fixpoint repeat_string (s : string) (n : nat) : string :=
  match n with O => "" | S k => s +:+ repeat_string s k end.

(** ** [render_doc] *)

(** [entry["doc_id"]]. *)
Definition get_doc_id (en : entry) : outcome string :=
  match e_doc_id en with
  | Some id => Done id
  | None => Raise "KeyError"
  end.

(** [md_path.relative_to(REPO_ROOT).as_posix()]. *)
Definition relative_to_repo (e : env) (path : string) : outcome string :=
  if starts_with (repo_root e +:+ "/") path
  then Done (drop_string (String.length (repo_root e) + 1) path)
  else Raise "ValueError".

Definition pandoc_cmd (e : env) (en : entry) (doc_id dossier_display root_prefix
                        source_path built_at : string) : list string :=
  [ "pandoc"; e_path en;
    "--from=markdown+lists_without_preceding_blankline";
    "--to=html5";
    "--standalone";
    "--wrap=none";
    "--template=" +:+ cabinet_path e TEMPLATE;
    "--toc";
    "--toc-depth=3";
    "--mathml";
    "--metadata"; "lang=en";
    "--metadata"; "pagetitle=" +:+ e_title en +:+ " | SPECTER Labs";
    "--metadata"; "slug=" +:+ e_slug en;
    "--metadata"; "doc_id=" +:+ doc_id;
    "--metadata"; "dossier=" +:+ dossier_display;
    "--metadata"; "root_prefix=" +:+ root_prefix;
    "--metadata"; "source_path=" +:+ source_path;
    "--metadata"; "built_at=" +:+ built_at ]
  ++ (if nonempty (e_category en)
      then ["--metadata"; "category=" +:+ e_category en] else []).

Definition render_doc (e : env) (en : entry) (dossier built_at : string) : M unit :=
  let md_path := e_path en in
  let slug := e_slug en in
  let out_dir := output_dir_for dossier slug in
  mkdir_p out_dir ;;
  let out_file := out_dir ++ ["index.html"] in
  let depth := 2 + length (path_parts slug) in
  let root_prefix := repeat_string "../" depth in
  let dossier_display := display_name dossier in
  do source_path <- lift (relative_to_repo e md_path);
  do doc_id <- lift (get_doc_id en);
  let cmd := pandoc_cmd e en doc_id dossier_display root_prefix source_path built_at in
  do result <- subprocess_run e cmd;
  if negb (returncode result =? 0)%Z then
    eprint ("FAIL " +:+ md_path +:+ ": " +:+ strip (proc_stderr result)) ;;
    sys_exit 1
  else
    write_text out_file (proc_stdout result) ;;
    print ("  " +:+ site_relative out_file).

(** ** [build_index] *)

(** [html.escape(s)], with [quote=True]. *)
Definition html_escape (s : string) : string :=
  replace "'" "&#x27;"
    (replace dq "&quot;"
      (replace ">" "&gt;"
        (replace "<" "&lt;"
          (replace "&" "&amp;" s)))).

Definition MARKER : string := "<!-- DRAWERS -->".

Definition cat_span (en : entry) : string :=
  if nonempty (e_category en)
  then "<span class=" +:+ dq +:+ "drawer-item-category" +:+ dq +:+ ">"
       +:+ html_escape (e_category en) +:+ "</span>"
  else "".

(** The link of a document, once its id has been read. *)
Definition item_markup (dossier : string) (en : entry) (raw_id : string) : string :=
  let href := dossier +:+ "/" +:+ e_slug en +:+ "/" in
  let doc_id := html_escape raw_id in
  "<a class=" +:+ dq +:+ "drawer-item" +:+ dq +:+ " href=" +:+ dq
  +:+ html_escape href +:+ dq +:+ ">"
  +:+ "<span class=" +:+ dq +:+ "drawer-item-id" +:+ dq +:+ ">" +:+ doc_id +:+ "</span>"
  +:+ "<span class=" +:+ dq +:+ "drawer-item-title" +:+ dq +:+ ">"
  +:+ html_escape (e_title en) +:+ "</span>"
  +:+ cat_span en
  +:+ "</a>".

Definition item_html (dossier : string) (en : entry) : outcome string :=
  try raw_id <- get_doc_id en;
  Done (item_markup dossier en raw_id).

(** The loop that fills a list of strings. *)
Fixpoint collect {A} (l : list A) (body : A -> outcome string) : outcome (list string) :=
  match l with
  | [] => Done []
  | x :: l' => try h <- body x; try t <- collect l' body; Done (h :: t)
  end.

(** The drawer of a dossier around the links of its documents. *)
Definition drawer_markup (display : string) (count : nat) (items_html : list string) : string :=
  "<div class=" +:+ dq +:+ "cabinet-drawer" +:+ dq +:+ ">"
  +:+ "<div class=" +:+ dq +:+ "drawer-tab" +:+ dq +:+ ">"
  +:+ html_escape display
  +:+ "<span class=" +:+ dq +:+ "drawer-tab-count" +:+ dq +:+ ">"
  +:+ decimal count +:+ "</span>"
  +:+ "</div>"
  +:+ "<div class=" +:+ dq +:+ "drawer-body" +:+ dq +:+ ">"
  +:+ join "" items_html
  +:+ "</div></div>".

Definition drawer_html (dossier : string) (entries : list entry) : outcome string :=
  let display := display_name dossier in
  let entries_sorted := sorted_entries entries in
  try items_html <- collect entries_sorted (item_html dossier);
  Done (drawer_markup display (length entries) items_html).

(** [sorted(dossiers.keys())]. *)
Definition sorted_names (ds : dossiers) : list string :=
  sorted_by String.ltb ds.*1.

Definition drawers_html (ds : dossiers) : outcome (list string) :=
  collect (sorted_names ds)
          (fun dossier =>
             match dict_get dossier ds with
             | Some entries => drawer_html dossier entries
             | None => Raise "KeyError"
             end).

Definition build_index (ds : dossiers) : M unit :=
  do template <- read_text INDEX_TEMPLATE;
  do drawers <- lift (drawers_html ds);
  let index_html := replace MARKER (join nl drawers) template in
  let out := ["index.html"] in
  write_text out index_html ;;
  print ("  " +:+ site_relative out).

(** ** [clean_generated] and [main] *)

Definition clean_generated : M unit :=
  do children <- iterdir;
  for_each children (fun name =>
    do d <- is_dir [name];
    if d && negb (String.eqb name "." || String.eqb name "..")
    then rmtree [name] else ret tt).

(** [sorted(dossiers.items())]: the keys differ, so they decide. *)
Definition sorted_items (ds : dossiers) : dossiers :=
  sorted_by (fun a b => String.ltb a.1 b.1) ds.

(** The rendering loop of [main]. *)
Definition render_all (e : env) (ds : dossiers) (built_at : string) : M unit :=
  for_each (sorted_items ds) (fun '(dossier, entries) =>
    print ("[" +:+ dossier +:+ "]") ;;
    for_each entries (fun en => render_doc e en dossier built_at)).

Definition main (e : env) : M unit :=
  if negb (which_pandoc e) then
    eprint "pandoc not found. Install pandoc >= 3.x." ;; sys_exit 1
  else
    do template_ok <- is_file TEMPLATE;
    if negb template_ok then
      eprint ("Missing template: " +:+ cabinet_path e TEMPLATE) ;; sys_exit 1
    else
      let ds := find_docs e in
      match ds with
      | [] => eprint "No docs found in dossiers/*/docs/." ;; sys_exit 1
      | _ =>
          let ds := assign_doc_ids ds in
          let built_at := now_utc e in
          let total := list_sum (map (fun kv => length kv.2) ds) in
          print ("Cabinet: " +:+ decimal total +:+ " docs across "
                 +:+ decimal (length ds) +:+ " dossiers") ;;
          clean_generated ;;
          render_all e ds built_at ;;
          build_index ds ;;
          print "Done."
      end.

(** The exit status of the process for an outcome of [main]. *)
Definition exit_status {A} (o : outcome A) : nat :=
  match o with
  | Done _ => 0
  | Exit n => n
  | Raise _ => 1
  end.

(** ** The dossier code in the words of its description *)

(** The words of a name: its longest runs of alphanumeric characters;
    [cur] is the word being read, if any. *)
Fixpoint alnum_words_go (cur : option string) (s : string) : list string :=
  match s with
  | "" => option_list cur
  | String c s' =>
      if is_alnum c
      then alnum_words_go (Some (default "" cur +:+ String c "")) s'
      else option_list cur ++ alnum_words_go None s'
  end.

Definition alnum_words (s : string) : list string := alnum_words_go None s.

Fixpoint has_alnum (s : string) : bool :=
  match s with
  | "" => false
  | String c s' => is_alnum c || has_alnum s'
  end.

Definition initials (ws : list string) : string := join "" (map first_char ws).

(** ** The title in the words of its description *)

Fixpoint all_chars (P : ascii -> bool) (s : string) : bool :=
  match s with
  | "" => true
  | String c s' => P c && all_chars P s'
  end.

(** A line without a line boundary in it. *)
Definition one_line (s : string) : Prop :=
  all_chars (fun c => negb (is_linebreak c)) s = true.

(** A level-1 heading: a hash, a space, and a text that is not empty; the
    heading's text is what follows the space, trimmed. *)
Definition spec_heading (line text : string) : Prop :=
  exists sp rest,
    line = String "#" (String sp rest) /\ is_space sp = true /\ rest <> ""
    /\ text = strip rest.


Definition separator_to_space (c : ascii) : ascii :=
  if ascii_dec "-" c then " "%char else if ascii_dec "_" c then " "%char else c.



(** ** The order of the entries in the words of its description *)

Definition str_lt (a b : string) : Prop := String.le a b /\ a <> b.

(** The order on the keys (category rank, lowercase title, slug): the rank
    decides, then the title, then the slug. *)
Definition key_le (k1 k2 : sort_key) : Prop :=
  let '(c1, t1, s1) := k1 in
  let '(c2, t2, s2) := k2 in
  (c1 < c2)%nat \/ (c1 = c2 /\ (str_lt t1 t2 \/ (t1 = t2 /\ String.le s1 s2))).

Definition entry_le (a b : entry) : Prop :=
  key_le (entry_sort_key a) (entry_sort_key b).

(** Text of the ASCII range: on such text the character classes of this
    file are those of Python. *)
Definition ascii_text (s : string) : Prop :=
  all_chars (fun c => (code c <? 128)%nat) s = true.

(** The two alphabets, letter by letter. *)
Definition UPPER_LETTERS : string := "ABCDEFGHIJKLMNOPQRSTUVWXYZ".
Definition LOWER_LETTERS : string := "abcdefghijklmnopqrstuvwxyz".

Fixpoint position (c : ascii) (s : string) : option nat :=
  match s with
  | "" => None
  | String d s' => if ascii_dec c d then Some 0%nat else S <$> position c s'
  end.

(** The letter of the other alphabet at the same place; any other
    character is left as it is. *)
Definition spec_lower_char (c : ascii) : ascii :=
  match position c UPPER_LETTERS with
  | Some i => default c (String.get i LOWER_LETTERS)
  | None => c
  end.



Fixpoint spec_lower (s : string) : string :=
  match s with
  | "" => ""
  | String c s' => String (spec_lower_char c) (spec_lower s')
  end.











(** The rank of a category: its place in the preference list core,
    backends, providers, corpus, and the place after them for any other. *)
Definition spec_rank (category : string) : nat :=
  if decide (category = "core") then 0
  else if decide (category = "backends") then 1
  else if decide (category = "providers") then 2
  else if decide (category = "corpus") then 3
  else 4.

(** The key (category rank, lowercase title, slug) of a document. *)
Definition spec_key (e : entry) : sort_key :=
  (spec_rank (e_category e), spec_lower (e_title e), e_slug e).

(** A document that may stand before another in the order of the keys. *)
Definition spec_entry_le (a b : entry) : Prop := key_le (spec_key a) (spec_key b).


(** The entry at place [i] after the assignment, for an entry [e] before. *)
Definition assigned (code : string) (entries : list entry) (ie : nat * entry) : nat * entry :=
  (ie.1, default ie.2 (assign_entries code entries !! ie.1)).

(** ** Escaped text in the words of its description *)

(** Each character replaced by a string. *)
Fixpoint subst (f : ascii -> string) (s : string) : string :=
  match s with
  | "" => ""
  | String c s' => f c +:+ subst f s'
  end.

(** The entity that stands for a character of the markup. *)
Definition esc_char (c : ascii) : string :=
  if ascii_dec "&" c then "&amp;"
  else if ascii_dec "<" c then "&lt;"
  else if ascii_dec ">" c then "&gt;"
  else if ascii_dec (ascii_of_nat 34) c then "&quot;"
  else if ascii_dec "'" c then "&#x27;"
  else String c "".

(** The characters that open or close a tag or an attribute value. *)
Definition markup_char (c : ascii) : bool :=
  if ascii_dec "<" c then true
  else if ascii_dec ">" c then true
  else if ascii_dec (ascii_of_nat 34) c then true
  else if ascii_dec "'" c then true
  else false.

(** A text without a character of the markup. *)
Definition text_safe (s : string) : Prop :=
  all_chars (fun c => negb (markup_char c)) s = true.

(** [x in s]. *)
Definition occurs (x s : string) : Prop := exists pre post, s = pre +:+ x +:+ post.

Definition SCRIPT : string := "<script>".

(** A reader of the tag [SCRIPT]: the state is the number of characters of
    the tag just read, and 8 once the whole tag has been seen. *)
Definition script_step (q : nat) (c : ascii) : nat :=
  if (8 <=? q)%nat then 8%nat
  else if bool_decide (String.get q SCRIPT = Some c) then S q
  else if ascii_dec "<" c then 1%nat else 0%nat.

Fixpoint script_run (q : nat) (s : string) : nat :=
  match s with
  | "" => q
  | String c s' => script_run (script_step q c) s'
  end.

(** A piece of the page that neither holds the tag nor ends inside it. *)
Definition inert (s : string) : Prop := script_run 0 s = 0%nat.

(** ** The cleanup in the words of its description *)

Definition self_or_parent (name : string) : bool :=
  String.eqb name "." || String.eqb name "..".

(** A path at or below a directory child of the cabinet directory whose
    name is neither the self nor the parent reference. *)
Definition generated (m : gmap (list string) obj) (p : list string) : bool :=
  match p with
  | name :: _ => bool_decide (m !! [name] = Some FDir) && negb (self_or_parent name)
  | [] => false
  end.

(** One turn of the loop of [clean_generated], on the files. *)
Definition clean_step (m : gmap (list string) obj) (name : string) : gmap (list string) obj :=
  if dir_at m [name] && negb (self_or_parent name)
  then filter (fun kv => ¬ [name] `prefix_of` kv.1) m else m.

Definition below (name : string) (p : list string) : bool :=
  match p with
  | x :: _ => String.eqb x name
  | [] => false
  end.

(** ** A failing converter in the words of its description *)

(** The converter exits with a status that is not zero on this command. *)
Definition failed (e : env) (cmd : list string) : bool :=
  negb (returncode (run_pandoc e cmd) =? 0)%Z.

(** The report of a failure: the path of the document, which is the first
    argument of the command, and the error text of the converter. *)
Definition fail_line (e : env) (cmd : list string) : string :=
  "FAIL " +:+ nth 1 cmd "" +:+ ": " +:+ strip (proc_stderr (run_pandoc e cmd)).

(** The commands that a run has added to the log: either each of them has
    succeeded, or the last one is the only one that failed, and then the
    run has ended with status 1 and the report is the last line of the
    error stream. *)
Definition trace_ok {A} (e : env) (cmds : list (list string)) (o : outcome A)
    (err : list string) : Prop :=
  Forall (fun c => failed e c = false) cmds
  \/ exists cmds0 cmd,
       cmds = cmds0 ++ [cmd]
       /\ Forall (fun c => failed e c = false) cmds0
       /\ failed e cmd = true
       /\ o = Exit 1
       /\ last err = Some (fail_line e cmd).

Definition fails_fast {A} (e : env) (m : M A) : Prop :=
  forall w o w', m w = (o, w') ->
    exists cmds, spawned w' = spawned w ++ cmds /\ trace_ok e cmds o (stderr w').

(** A computation that runs no process. *)
Definition spawns_nothing {A} (m : M A) : Prop :=
  forall w o w', m w = (o, w') -> spawned w' = spawned w.

(** The entries made for a docs folder. *)
Definition folder_entries (e : env) (root : string) (dd : docs_dir) : list entry :=
  map (make_entry e root (dd_name dd))
      (sorted_by (fun a b => parts_ltb (md_rel a) (md_rel b)) (dd_files dd)).

(** ** Two runs in the words of the description of determinism *)

(** The same docs folder seen by two scans: the same name and the same
    files, in any order. *)
Definition same_dir (a b : docs_dir) : Prop :=
  dd_name a = dd_name b /\ dd_files a ≡ₚ dd_files b.

(** The same root seen by two scans: the same folders, in any order. *)
Definition same_scan (l1 l2 : option (list docs_dir)) : Prop :=
  match l1, l2 with
  | None, None => True
  | Some d1, Some d2 => exists d, d ≡ₚ d1 /\ Forall2 same_dir d d2
  | _, _ => False
  end.

(** The folders of a root have distinct names and the files of a folder
    have distinct paths. *)
Definition distinct_paths (l : option (list docs_dir)) : Prop :=
  match l with
  | None => True
  | Some dirs =>
      NoDup (dd_name <$> dirs)
      /\ Forall (fun dd => NoDup (md_rel <$> dd_files dd)) dirs
  end.

(** The text of a file directly in the cabinet directory. *)
Definition top_file (m : gmap (list string) obj) (name : string) : option string :=
  match m !! [name] with
  | Some (FFile content) => Some content
  | _ => None
  end.

(** A cabinet tree: the root is not an entry, what lies deeper is below a
    directory child, and no directory child is named as the self or the
    parent reference. *)
Definition cabinet_tree (m : gmap (list string) obj) : Prop :=
  m !! [] = None
  /\ (forall name x rest y, m !! (name :: x :: rest) = Some y -> m !! [name] = Some FDir)
  /\ (forall name, m !! [name] = Some FDir -> self_or_parent name = false).

(** Two states of a run that differ at most in the index page, which is
    not a directory in either. *)
Definition sim (w1 w2 : world) : Prop :=
  stdout w1 = stdout w2 /\ stderr w1 = stderr w2 /\ spawned w1 = spawned w2
  /\ (forall p, p <> ["index.html"] -> fs w1 !! p = fs w2 !! p)
  /\ fs w1 !! ["index.html"] <> Some FDir
  /\ fs w2 !! ["index.html"] <> Some FDir.

(** A computation that acts alike on two such states. *)
Definition respects {A} (m : M A) : Prop :=
  forall w1 w2, sim w1 w2 -> (m w1).1 = (m w2).1 /\ sim (m w1).2 (m w2).2.

(** The environment of a second run: only the order of the scans may differ. *)
Definition rescan (e : env) (listing2 : string -> option (list docs_dir)) : env :=
  Env (repo_root e) (which_pandoc e) listing2 (run_pandoc e) (now_utc e).

(** The word being read, if the part read so far is not empty. *)
Definition started (cur : string) : option string :=
  if nonempty cur then Some cur else None.

(** ** Names of files and directories *)

Definition no_slash (s : string) : Prop :=
  all_chars (fun c => if ascii_dec c "/" then false else true) s = true.

(** A name that a directory scan can return and that a path keeps as one
    part: not empty, not the self reference, without a slash. *)
Definition ordinary_name (s : string) : Prop :=
  s <> "" /\ s <> "." /\ no_slash s.

(** An ordinary name that is not the parent reference either: a part of
    a path that names a directory entry of its own. *)
Definition plain_name (s : string) : Prop := ordinary_name s /\ s <> "..".


(** ** Shapes of codes and texts *)

(** A character of a derived code: an upper-case letter or a digit. *)
Definition is_code_char (c : ascii) : bool := is_upper c || is_digit c.

(** The five characters that [html.escape] replaces. *)
Definition needs_escape (c : ascii) : bool :=
  if ascii_dec "&" c then true else markup_char c.

(** ** What a run keeps *)

(** Every run of [m] relates the state before to the state after by [R],
    and when it ends by [sys.exit] the status satisfies [E]. *)
Definition run_inv {A} (R : world -> world -> Prop) (E : nat -> Prop) (m : M A) : Prop :=
  forall w o w', m w = (o, w') -> R w w' /\ forall n, o = Exit n -> E n.

(** The files directly in the cabinet directory, the index page apart, are
    still there with the same text. *)
Definition keeps_top_files (w w' : world) : Prop :=
  forall name content,
    name <> "index.html" ->
    fs w !! [name] = Some (FFile content) -> fs w' !! [name] = Some (FFile content).

(** What is a file stays a file, and what is a directory stays one. *)
Definition keeps_files (w w' : world) : Prop :=
  forall p, (file_at (fs w) p = true -> file_at (fs w') p = true)
            /\ (fs w !! p = Some FDir -> fs w' !! p = Some FDir).

(** The documents in the order in which [main] renders them. *)
Definition render_order (ds : dossiers) : list entry :=
  concat (map snd (sorted_items ds)).

(** The page of a document of a dossier. *)
Definition page_of (dossier : string) (en : entry) : list string :=
  output_dir_for dossier (e_slug en) ++ ["index.html"].

(** The page of a document of [ds], or a directory on the way to it. *)
Definition page_or_dir (ds : dossiers) (p : list string) (y : obj) : Prop :=
  exists d es en, (d, es) ∈ ds /\ en ∈ es
    /\ ((p = page_of d en /\ exists content, y = FFile content)
        \/ (p ∈ ancestors (output_dir_for d (e_slug en)) /\ y = FDir)).

(** The page of a document is a file and the directories on the way to it
    are directories. *)
Definition page_made (d : string) (en : entry) (w : world) : Prop :=
  file_at (fs w) (page_of d en) = true
  /\ forall q, q ∈ ancestors (output_dir_for d (e_slug en)) -> fs w !! q = Some FDir.

(** The exceptions of the file system calls of a run. *)
Definition fs_error (x : string) : Prop :=
  x = "FileExistsError" \/ x = "NotADirectoryError" \/ x = "OSError".

(** * Properties *)

Example dossier_code_abg : dossier_code "alpha-beta-gamma" = "ABG".
Proof. vm_compute. reflexivity. Qed.

Example extract_title_h1 :
  extract_title ("intro" +:+ String (ascii_of_nat 10) "#  My Doc  " +:+ String (ascii_of_nat 10) "# Later") "a-b.md" = "My Doc".
Proof. vm_compute. reflexivity. Qed.

Example extract_title_name : extract_title "" "my_first-doc2x.md" = "My First Doc2X".
Proof. vm_compute. reflexivity. Qed.

(** ** Strings *)

(** The letters of the two alphabets are those of the character classes. *)
Lemma spec_lower_char_eq c : spec_lower_char c = lower_char c.
Proof. destruct c as [[] [] [] [] [] [] [] []]; vm_compute; reflexivity. Qed.



Lemma spec_lower_eq s : spec_lower s = lower s.
Proof.
  induction s as [|c s IH]; [done|]. cbn [spec_lower]. rewrite IH, spec_lower_char_eq.
  reflexivity.
Qed.


Lemma str_app_nil_l (s : string) : "" +:+ s = s.
Proof. reflexivity. Qed.

Lemma str_app_cons (c : ascii) (s t : string) : String c s +:+ t = String c (s +:+ t).
Proof. reflexivity. Qed.

Lemma str_app_nil_r (s : string) : s +:+ "" = s.
Proof. induction s as [|c s IH]; [reflexivity|]. rewrite str_app_cons, IH. reflexivity. Qed.

Lemma str_app_assoc (s t u : string) : (s +:+ t) +:+ u = s +:+ (t +:+ u).
Proof. induction s as [|c s IH]; [reflexivity|]. rewrite !str_app_cons, IH. reflexivity. Qed.

Lemma nonempty_app_r (s : string) (c : ascii) : nonempty (s +:+ String c "") = true.
Proof. destruct s; reflexivity. Qed.

Lemma nonempty_map_string f s : nonempty (map_string f s) = nonempty s.
Proof. destruct s; reflexivity. Qed.

(** ** [dossier_code] *)

Lemma re_split_words s : forall cur in_sep,
  (in_sep = true -> cur = "") ->
  filter (fun p => nonempty p = true) (re_split_go cur in_sep s)
  = alnum_words_go (started cur) s.
Proof.
  induction s as [|c s IH]; intros cur in_sep Hsep; simpl.
  - unfold started. destruct (nonempty cur) eqn:E.
    + rewrite filter_cons_True by done. reflexivity.
    + rewrite filter_cons_False by (rewrite E; done). reflexivity.
  - destruct (is_alnum c).
    + rewrite IH by done. unfold started at 1. rewrite nonempty_app_r.
      unfold started. destruct cur; reflexivity.
    + destruct in_sep.
      * rewrite Hsep by done. rewrite IH by done. reflexivity.
      * rewrite filter_cons. rewrite IH by done. unfold started.
        destruct (nonempty cur) eqn:E; case_decide; try congruence; reflexivity.
Qed.

Lemma alnum_words_go_nonempty s : forall cur w,
  (forall c, cur = Some c -> nonempty c = true) ->
  w ∈ alnum_words_go cur s -> nonempty w = true.
Proof.
  induction s as [|c s IH]; intros cur w Hcur; simpl.
  - destruct cur; simpl; [|by intros ?%elem_of_nil].
    intros ->%list_elem_of_singleton. by apply Hcur.
  - destruct (is_alnum c).
    + apply IH. intros c' [= <-]. apply nonempty_app_r.
    + rewrite elem_of_app. intros [Hw|Hw].
      * destruct cur; simpl in Hw; [|by apply elem_of_nil in Hw].
        apply list_elem_of_singleton in Hw as ->. by apply Hcur.
      * eapply IH; [|exact Hw]. done.
Qed.

Lemma alnum_words_go_some s cur : alnum_words_go (Some cur) s <> [].
Proof.
  revert cur. induction s as [|c s IH]; intros cur; simpl; [done|].
  destruct (is_alnum c); [apply IH|done].
Qed.

Lemma alnum_words_nil s : alnum_words_go None s = [] <-> has_alnum s = false.
Proof.
  induction s as [|c s IH]; simpl; [done|].
  destruct (is_alnum c); simpl; [|exact IH].
  split; [|done]. intros H. by apply alnum_words_go_some in H.
Qed.

Lemma initials_nonempty ws :
  ws <> [] -> (forall w, w ∈ ws -> nonempty w = true) -> nonempty (initials ws) = true.
Proof.
  destruct ws as [|w ws]; [done|]. intros _ H.
  assert (nonempty w = true) as Hw by (apply H; left).
  destruct w as [|c w]; [done|].
  unfold initials. simpl. destruct (map first_char ws); reflexivity.
Qed.

Lemma initials_nil : initials [] = "".
Proof. reflexivity. Qed.





(** ** [extract_title] *)

Lemma first_some_Some {A B} (f : A -> option B) (l : list A) y :
  first_some f l = Some y ->
  exists i x, l !! i = Some x /\ f x = Some y
    /\ forall j x', (j < i)%nat -> l !! j = Some x' -> f x' = None.
Proof.
  induction l as [|a l IH]; simpl; [done|].
  destruct (f a) eqn:E.
  - intros [= ->]. exists 0%nat, a. repeat split; [done|]. intros; lia.
  - intros (i & x & Hi & Hx & Hlt)%IH. exists (S i), x. repeat split; [done..|].
    intros [|j] x' Hj; simpl; [by intros [= <-]|]. intros. eapply (Hlt j); [lia|done].
Qed.


Lemma all_chars_app P s t :
  all_chars P (s +:+ t) = all_chars P s && all_chars P t.
Proof.
  induction s as [|c s IH]; [reflexivity|]. rewrite str_app_cons. simpl.
  rewrite IH. by rewrite andb_assoc.
Qed.

Lemma splitlines_go_one_line_le n : forall s cur,
  (String.length s <= n)%nat ->
  one_line cur -> Forall one_line (splitlines_go cur s).
Proof.
  unfold one_line.
  induction n as [|n IH]; intros s cur Hn Hcur; destruct s as [|c s]; simpl in *;
    try lia.
  - destruct (nonempty cur); [|constructor]. by repeat constructor.
  - destruct (nonempty cur); [|constructor]. by repeat constructor.
  - destruct (is_linebreak c) eqn:E.
    + constructor; [done|]. destruct s as [|c' s'']; [constructor|].
      destruct (_ && _); apply IH; simpl in *; try done; lia.
    + apply IH; [lia|]. rewrite all_chars_app, Hcur. simpl. by rewrite E.
Qed.

Lemma splitlines_go_one_line s cur :
  one_line cur -> Forall one_line (splitlines_go cur s).
Proof. by apply (splitlines_go_one_line_le (String.length s)). Qed.

Lemma splitlines_one_line text line : line ∈ splitlines text -> one_line line.
Proof.
  intros H. eapply Forall_forall in H; [exact H|].
  by apply splitlines_go_one_line.
Qed.

Lemma one_line_span_dot s : one_line s -> span_dot s = (s, "").
Proof.
  unfold one_line. induction s as [|c s IH]; simpl; [done|].
  intros [Hc Hs]%andb_prop. rewrite (IH Hs).
  destruct (code c =? 10)%nat eqn:E; [|done].
  apply Nat.eqb_eq in E. unfold is_linebreak, in_range in Hc. rewrite E in Hc. done.
Qed.

Lemma one_line_match_group s :
  one_line s -> match_group s = if nonempty s then Some s else None.
Proof.
  intros H. unfold match_group. rewrite one_line_span_dot by done. simpl.
  by rewrite andb_true_r.
Qed.

Lemma one_line_tail c s : one_line (String c s) -> one_line s.
Proof. unfold one_line. simpl. by intros [_ ?]%andb_prop. Qed.

Lemma strip_space c s : is_space c = true -> strip (String c s) = strip s.
Proof. intros H. unfold strip. simpl. by rewrite H. Qed.

Lemma match_spaces_Some s : forall g,
  one_line s -> match_spaces s = Some g ->
  exists sp rest, s = String sp rest /\ is_space sp = true /\ rest <> ""
    /\ strip g = strip rest.
Proof.
  induction s as [|c s IH]; intros g Hs; simpl; [done|].
  destruct (is_space c) eqn:Hc; [|done].
  pose proof (one_line_tail _ _ Hs) as Hs'.
  destruct (match_spaces s) as [g'|] eqn:E.
  - intros [= <-]. destruct (IH g' Hs' eq_refl) as (sp & rest & -> & Hsp & Hne & Hg).
    exists c, (String sp rest). repeat split; [done..|].
    by rewrite strip_space.
  - rewrite one_line_match_group by done. destruct s as [|c' s']; [done|].
    intros [= <-]. exists c, (String c' s'). repeat split; done.
Qed.

Lemma match_spaces_is_Some sp rest :
  one_line rest -> is_space sp = true -> rest <> "" ->
  is_Some (match_spaces (String sp rest)).
Proof.
  intros Hl Hsp Hne. simpl. rewrite Hsp.
  destruct (match_spaces rest); [by eexists|].
  rewrite one_line_match_group by done. destruct rest; [done|]. by eexists.
Qed.

Lemma code_inj c n : (n < 256)%nat -> (code c =? n)%nat = true -> c = ascii_of_nat n.
Proof.
  intros Hn H%Nat.eqb_eq. unfold code in H. rewrite <- H. by rewrite ascii_nat_embedding.
Qed.










Lemma heading_title_spec line text :
  one_line line -> heading_title line = Some text <-> spec_heading line text.
Proof.
  intros Hl. unfold heading_title, match_h1, spec_heading. split.
  - destruct line as [|c s]; [done|].
    destruct (code c =? 35)%nat eqn:Hc; [|done].
    apply (code_inj _ 35) in Hc as ->; [|lia].
    destruct (match_spaces s) as [g|] eqn:E; [|done]. intros [= <-].
    apply match_spaces_Some in E as (sp & rest & -> & ? & ? & ?);
      [|by eapply one_line_tail].
    by exists sp, rest.
  - intros (sp & rest & -> & Hsp & Hne & ->). cbn [code nat_of_ascii].
    change (code "#" =? 35)%nat with true. cbv iota.
    destruct (match_spaces_is_Some sp rest) as [g Hg]; [|done..|].
    { eapply one_line_tail, one_line_tail, Hl. }
    rewrite Hg. f_equal.
    apply match_spaces_Some in Hg as (sp' & rest' & [= <- <-] & _ & _ & ->); [done|].
    eapply one_line_tail, Hl.
Qed.

Lemma replace_char a b s :
  replace (String a "") (String b "") s
  = map_string (fun c => if ascii_dec a c then b else c) s.
Proof.
  unfold replace. induction s as [|c s IH]; [reflexivity|].
  cbn [replace_go starts_with String.length Nat.sub map_string].
  destruct (ascii_dec a c).
  - rewrite IH. destruct s; reflexivity.
  - by rewrite IH.
Qed.

Lemma map_string_map_string f g s :
  map_string g (map_string f s) = map_string (fun c => g (f c)) s.
Proof. induction s as [|c s IH]; simpl; [done|]. by rewrite IH. Qed.

Lemma map_string_ext f g s :
  (forall c, f c = g c) -> map_string f s = map_string g s.
Proof. intros H. induction s as [|c s IH]; simpl; [done|]. by rewrite H, IH. Qed.

Lemma name_title_eq name :
  name_title name = title (map_string separator_to_space (stem name)).
Proof.
  unfold name_title. rewrite !replace_char, map_string_map_string. f_equal.
  apply map_string_ext. intros c. unfold separator_to_space.
  destruct (ascii_dec "-" c) as [<-|]; [reflexivity|]. done.
Qed.

Lemma length_title_go s : forall b, String.length (title_go b s) = String.length s.
Proof. induction s as [|c s IH]; intros b; simpl; [done|]. by rewrite IH. Qed.






Lemma rfind_dot_md x : forall i,
  rfind_dot i (x +:+ ".md") = Some (i + String.length x)%nat.
Proof.
  induction x as [|c x IH]; intros i.
  - simpl. f_equal. lia.
  - rewrite str_app_cons. simpl. rewrite IH. f_equal. lia.
Qed.

Lemma take_string_app x y : take_string (String.length x) (x +:+ y) = x.
Proof.
  induction x as [|c x IH]; [by destruct y|].
  rewrite str_app_cons. simpl. by rewrite IH.
Qed.

Lemma str_length_app x y : String.length (x +:+ y) = (String.length x + String.length y)%nat.
Proof. induction x as [|c x IH]; [done|]. rewrite str_app_cons. simpl. by rewrite IH. Qed.

(** The stem of a Markdown file name is the name without its extension. *)
Lemma stem_md x : x <> "" -> stem (x +:+ ".md") = x.
Proof.
  intros Hx. unfold stem. rewrite rfind_dot_md. simpl.
  rewrite str_length_app. simpl.
  destruct x as [|c x]; [done|]. simpl String.length.
  replace (0 <? S _)%nat with true by (symmetry; apply Nat.ltb_lt; lia).
  replace (S (String.length x) <? _)%nat with true by (symmetry; apply Nat.ltb_lt; lia).
  simpl. apply (take_string_app (String c x)).
Qed.




(** ** The stable sort *)

Section sorted_by.
Context {A : Type} (lt : A -> A -> bool).

Lemma insert_by_perm x l : insert_by lt x l ≡ₚ x :: l.
Proof.
  induction l as [|y l IH]; simpl; [done|].
  destruct (lt y x); [|done]. rewrite IH. apply Permutation_swap.
Qed.

Lemma sorted_by_perm l : sorted_by lt l ≡ₚ l.
Proof.
  induction l as [|x l IH]; simpl; [done|].
  rewrite insert_by_perm. by rewrite IH.
Qed.

Lemma length_sorted_by l : length (sorted_by lt l) = length l.
Proof. by rewrite sorted_by_perm. Qed.

Lemma elem_of_sorted_by x l : x ∈ sorted_by lt l <-> x ∈ l.
Proof. by rewrite sorted_by_perm. Qed.

Hypothesis lt_asym : forall a b, lt a b = true -> lt b a = false.
Hypothesis not_after_trans :
  forall a b c, not_after lt a b -> not_after lt b c -> not_after lt a c.

Lemma insert_by_sorted x l :
  StronglySorted (not_after lt) l -> StronglySorted (not_after lt) (insert_by lt x l).
Proof.
  induction 1 as [|y l Hl IH Hy]; simpl; [by repeat constructor|].
  destruct (lt y x) eqn:E.
  - constructor; [done|]. rewrite insert_by_perm. constructor; [|done].
    by apply lt_asym.
  - constructor; [by constructor|]. constructor; [done|].
    eapply Forall_impl; [exact Hy|]. intros z Hz. by eapply not_after_trans.
Qed.

Lemma sorted_by_sorted l : StronglySorted (not_after lt) (sorted_by lt l).
Proof.
  induction l as [|x l IH]; simpl; [constructor|]. by apply insert_by_sorted.
Qed.
End sorted_by.

(** Sorting commutes with a map that keeps the order of the elements. *)
Lemma insert_by_fmap {A B} (ltA : A -> A -> bool) (ltB : B -> B -> bool)
    (f : A -> B) x l :
  (forall y, y ∈ l -> ltB (f y) (f x) = ltA y x) ->
  f <$> insert_by ltA x l = insert_by ltB (f x) (f <$> l).
Proof.
  induction l as [|y l IH]; intros H; simpl; [done|].
  rewrite H by left. destruct (ltA y x); [|done].
  csimpl. rewrite IH; [done|]. intros z Hz. apply H. by right.
Qed.

Lemma sorted_by_fmap {A B} (ltA : A -> A -> bool) (ltB : B -> B -> bool)
    (f : A -> B) l :
  (forall x y, x ∈ l -> y ∈ l -> ltB (f x) (f y) = ltA x y) ->
  f <$> sorted_by ltA l = sorted_by ltB (f <$> l).
Proof.
  induction l as [|x l IH]; intros H; simpl; [done|].
  rewrite (insert_by_fmap ltA ltB).
  - rewrite IH; [done|]. intros y z Hy Hz. apply H; by right.
  - intros y Hy%elem_of_sorted_by. apply H; [by right|left].
Qed.

(** ** The order of the keys *)

Lemma ltb_false_le a b : String.ltb b a = false <-> String.le a b.
Proof.
  unfold String.le, String.ltb, String.leb. rewrite (String.compare_antisym a b).
  destruct (b ?= a)%string; simpl; split; done.
Qed.

Lemma ltb_true_lt a b : String.ltb a b = true <-> str_lt a b.
Proof.
  unfold str_lt. rewrite <- (ltb_false_le a b). unfold String.ltb.
  rewrite (String.compare_antisym b a).
  destruct (a ?= b)%string eqn:E; simpl.
  - apply String.compare_eq_iff in E. split; [done|]. by intros [_ ?].
  - split; [|done]. intros _. split; [done|]. intros ->.
    assert ((b ?= b)%string = Eq) as Hb; [|congruence].
    clear E. induction b as [|c b IH]; simpl; [done|].
    unfold Ascii.compare. by rewrite N.compare_refl.
  - split; [done|]. by intros [? _].
Qed.



Lemma str_lt_asym a b : str_lt a b -> ~ String.le b a.
Proof. intros [H N] H'. apply N. by apply (anti_symm String.le). Qed.

Lemma key_ltb_lt k1 k2 : key_ltb k1 k2 = false <-> key_le k2 k1.
Proof.
  destruct k1 as [[c1 t1] s1], k2 as [[c2 t2] s2]. unfold key_ltb, key_le.
  destruct (c1 =? c2)%nat eqn:Ec.
  - apply Nat.eqb_eq in Ec as ->.
    destruct (String.eqb_spec t1 t2) as [->|Nt].
    + rewrite ltb_false_le. split; [by right; split; [|right]|].
      intros [?|[_ [[_ ?]|[_ ?]]]]; [lia|done..].
    + rewrite ltb_false_le. split.
      * intros H. right. split; [done|]. left. split; [done|congruence].
      * intros [?|[_ [[? _]|[? _]]]]; [lia|done|congruence].
  - apply Nat.eqb_neq in Ec. rewrite Nat.ltb_ge. split; [lia|].
    intros [?|[? _]]; lia.
Qed.




Lemma entry_not_after a b : not_after entry_ltb a b <-> entry_le a b.
Proof. unfold not_after, entry_ltb, entry_le. apply key_ltb_lt. Qed.



(** ** The rank of a category *)

Lemma list_index_Some x l i :
  list_index x l = Some i ->
  l !! i = Some x /\ forall j, (j < i)%nat -> l !! j <> Some x.
Proof.
  revert i. induction l as [|y l IH]; intros i; simpl; [done|].
  destruct (String.eqb_spec y x) as [->|N].
  - intros [= <-]. split; [done|]. intros; lia.
  - destruct (list_index x l) as [k|]; [|done]. intros [= <-].
    destruct (IH k eq_refl) as [H1 H2]. split; [done|].
    intros [|j] Hj; simpl; [congruence|]. apply H2. lia.
Qed.




(** ** The format of the sequence number *)









Lemma digits_string_of_uint d :
  all_chars is_digit (DecimalString.NilEmpty.string_of_uint d) = true.
Proof. induction d; simpl; done. Qed.




(** ** [assign_doc_ids] *)

(** The loop of the assignment reaches every place once: the entry at the
    [k]-th place of the sorted order gets the [k]-th value, the others are
    left as they are. *)
Lemma assign_loop_lookup (f : nat -> entry -> entry) (places : list nat) :
  forall (start : nat) (es : list entry),
  NoDup places ->
  let es' := foldl (fun (es : list entry) '(idx, i) => alter (f idx) i es) es
                   (zip (seq start (length places)) places) in
  (forall k i, places !! k = Some i -> es' !! i = f (start + k)%nat <$> es !! i)
  /\ (forall i, i ∉ places -> es' !! i = es !! i).
Proof.
  induction places as [|i0 places IH]; intros start es Hnd; simpl.
  { split; [done|]. done. }
  apply NoDup_cons in Hnd as [Hi0 Hnd].
  destruct (IH (S start) (alter (f start) i0 es) Hnd) as [IH1 IH2].
  split.
  - intros [|k] i; simpl.
    + intros [= <-]. rewrite IH2 by done. rewrite list_lookup_alter_eq.
      by rewrite Nat.add_0_r.
    + intros Hk. rewrite (IH1 k i Hk).
      rewrite list_lookup_alter_ne.
      * f_equal. f_equal. lia.
      * intros <-. apply Hi0. by eapply list_elem_of_lookup_2.
  - intros i [Hne Hi]%not_elem_of_cons. rewrite IH2 by done.
    by rewrite list_lookup_alter_ne.
Qed.

Lemma length_foldl_alter (f : nat -> entry -> entry) (ps : list (nat * nat)) :
  forall es : list entry,
  length (foldl (fun (es : list entry) '(idx, i) => alter (f idx) i es) es ps)
  = length es.
Proof.
  induction ps as [|[idx i] ps IH]; intros es; simpl; [done|].
  by rewrite IH, length_alter.
Qed.

Lemma length_assign_entries code entries :
  length (assign_entries code entries) = length entries.
Proof. apply length_foldl_alter. Qed.

Lemma with_places_lookup entries k i e :
  with_places entries !! k = Some (i, e) <-> i = k /\ entries !! k = Some e.
Proof.
  unfold with_places. rewrite lookup_zip_Some. simpl.
  rewrite lookup_seq. split.
  - intros [[-> _] ?]. done.
  - intros [-> H]. repeat split; [|done]. by eapply lookup_lt_Some.
Qed.

Lemma elem_of_with_places entries i e :
  (i, e) ∈ with_places entries <-> entries !! i = Some e.
Proof.
  rewrite list_elem_of_lookup. split.
  - intros [k [-> ?]%with_places_lookup]. done.
  - intros H. exists i. by apply with_places_lookup.
Qed.

Lemma with_places_fst entries : (with_places entries).*1 = seq 0 (length entries).
Proof. unfold with_places. apply fst_zip. by rewrite length_seq. Qed.


Lemma sorted_places_perm entries : sorted_places entries ≡ₚ seq 0 (length entries).
Proof.
  unfold sorted_places. rewrite sorted_by_perm. by rewrite with_places_fst.
Qed.

Lemma sorted_places_nodup entries : NoDup (sorted_places entries).
Proof. rewrite sorted_places_perm. apply NoDup_seq. Qed.

Lemma length_sorted_places entries : length (sorted_places entries) = length entries.
Proof. by rewrite sorted_places_perm, length_seq. Qed.


Lemma assign_entries_places code entries k i :
  sorted_places entries !! k = Some i ->
  assign_entries code entries !! i
  = set_doc_id (doc_id_of code (S k)) <$> entries !! i.
Proof.
  intros Hk. unfold assign_entries.
  pose proof (assign_loop_lookup (fun idx => set_doc_id (doc_id_of code idx))
                (sorted_places entries) 1 entries (sorted_places_nodup entries)) as [H _].
  rewrite length_sorted_places in H. by apply H.
Qed.

Lemma assign_entries_lookup code entries i e :
  entries !! i = Some e ->
  exists k, sorted_places entries !! k = Some i
    /\ assign_entries code entries !! i = Some (set_doc_id (doc_id_of code (S k)) e).
Proof.
  intros Hi.
  assert (i ∈ sorted_places entries) as [k Hk]%list_elem_of_lookup.
  { rewrite sorted_places_perm. apply elem_of_seq. apply lookup_lt_Some in Hi. lia. }
  exists k. split; [done|]. rewrite (assign_entries_places _ _ _ _ Hk). by rewrite Hi.
Qed.

Lemma with_places_assign code entries :
  with_places (assign_entries code entries)
  = assigned code entries <$> with_places entries.
Proof.
  apply list_eq. intros k. rewrite list_lookup_fmap.
  destruct (entries !! k) as [e|] eqn:He.
  - destruct (assign_entries_lookup code _ _ _ He) as (j & _ & Hj).
    rewrite (proj2 (with_places_lookup entries k k e)) by done. simpl.
    unfold assigned. simpl. rewrite Hj. simpl.
    by apply with_places_lookup.
  - assert (with_places entries !! k = None) as ->.
    { apply lookup_ge_None. unfold with_places.
      rewrite length_zip, length_seq. apply lookup_ge_None in He. lia. }
    apply lookup_ge_None. unfold with_places.
    rewrite length_zip, length_seq, length_assign_entries.
    apply lookup_ge_None in He. lia.
Qed.

Lemma sorted_assign code entries :
  sorted_by (fun a b => entry_ltb a.2 b.2) (with_places (assign_entries code entries))
  = assigned code entries
    <$> sorted_by (fun a b => entry_ltb a.2 b.2) (with_places entries).
Proof.
  rewrite with_places_assign. symmetry. apply sorted_by_fmap.
  assert (Hkey : forall ie, ie ∈ with_places entries ->
            entry_sort_key (assigned code entries ie).2 = entry_sort_key ie.2).
  { intros [i e] Hie%elem_of_with_places.
    destruct (assign_entries_lookup code _ _ _ Hie) as (j & _ & Hj).
    unfold assigned. simpl. by rewrite Hj. }
  intros a b Ha Hb. unfold entry_ltb. by rewrite !Hkey.
Qed.




(** The key of the code is the key of the description. *)
Lemma spec_rank_eq category : spec_rank category = category_idx category.
Proof.
  unfold spec_rank, category_idx, CATEGORY_ORDER. cbn [list_index].
  repeat (destruct (decide _) as [->|N];
          [reflexivity|
           apply String.eqb_neq in N; rewrite String.eqb_sym in N; rewrite N; clear N]).
  reflexivity.
Qed.

Lemma spec_key_eq e : spec_key e = entry_sort_key e.
Proof. unfold spec_key, entry_sort_key. by rewrite spec_rank_eq, spec_lower_eq. Qed.

Lemma spec_entry_le_not_after a b : not_after entry_ltb a b <-> spec_entry_le a b.
Proof. unfold spec_entry_le. rewrite !spec_key_eq. apply entry_not_after. Qed.





Example assign_doc_ids_example :
  assign_doc_ids
    [("zeta", [Entry "/r/dossiers/zeta/docs/b.md" "Beta" "b" "" None;
               Entry "/r/dossiers/zeta/docs/core/a.md" "Alpha" "core/a" "core" None])]
  = [("zeta", [Entry "/r/dossiers/zeta/docs/b.md" "Beta" "b" "" (Some "Z-002");
               Entry "/r/dossiers/zeta/docs/core/a.md" "Alpha" "core/a" "core" (Some "Z-001")])].
Proof. vm_compute. reflexivity. Qed.

(** ** [html.escape] *)

Lemma subst_app f s t : subst f (s +:+ t) = subst f s +:+ subst f t.
Proof.
  induction s as [|c s IH]; [done|]. rewrite str_app_cons. simpl.
  by rewrite IH, str_app_assoc.
Qed.

Lemma subst_subst f g s : subst g (subst f s) = subst (fun c => subst g (f c)) s.
Proof. induction s as [|c s IH]; simpl; [done|]. by rewrite subst_app, IH. Qed.

Lemma subst_ext f g s : (forall c, f c = g c) -> subst f s = subst g s.
Proof. intros H. induction s as [|c s IH]; simpl; [done|]. by rewrite H, IH. Qed.

Lemma replace_char_string a new s :
  replace (String a "") new s
  = subst (fun c => if ascii_dec a c then new else String c "") s.
Proof.
  unfold replace. induction s as [|c s IH]; [reflexivity|].
  cbn [replace_go starts_with String.length Nat.sub subst].
  destruct (ascii_dec a c).
  - rewrite IH. destruct s; reflexivity.
  - by rewrite IH.
Qed.

Lemma subst_one f c : subst f (String c "") = f c.
Proof. simpl. apply str_app_nil_r. Qed.

(** The five replacements of [html.escape], one after the other, replace
    each character by its entity. *)
Lemma html_escape_subst s : html_escape s = subst esc_char s.
Proof.
  unfold html_escape, dq. rewrite !replace_char_string, !subst_subst.
  apply subst_ext. intros c. unfold esc_char.
  destruct (ascii_dec "&" c) as [<-|N1]; [reflexivity|].
  rewrite subst_one.
  destruct (ascii_dec "<" c) as [<-|N2]; [reflexivity|].
  rewrite !subst_one.
  destruct (ascii_dec ">" c) as [<-|N3]; [reflexivity|].
  rewrite !subst_one.
  destruct (ascii_dec (ascii_of_nat 34) c) as [<-|N4]; [reflexivity|].
  rewrite !subst_one.
  destruct (ascii_dec "'" c) as [<-|N5]; reflexivity.
Qed.

Lemma html_escape_app s t : html_escape (s +:+ t) = html_escape s +:+ html_escape t.
Proof. by rewrite !html_escape_subst, subst_app. Qed.

Lemma esc_char_safe c : text_safe (esc_char c).
Proof.
  unfold text_safe, esc_char.
  destruct (ascii_dec "&" c); [reflexivity|].
  destruct (ascii_dec "<" c) as [|N2]; [reflexivity|].
  destruct (ascii_dec ">" c) as [|N3]; [reflexivity|].
  destruct (ascii_dec (ascii_of_nat 34) c) as [|N4]; [reflexivity|].
  destruct (ascii_dec "'" c) as [|N5]; [reflexivity|].
  simpl. unfold markup_char.
  destruct (ascii_dec "<" c); [done|]. destruct (ascii_dec ">" c); [done|].
  destruct (ascii_dec (ascii_of_nat 34) c); [done|].
  destruct (ascii_dec "'" c); done.
Qed.

Lemma html_escape_safe s : text_safe (html_escape s).
Proof.
  rewrite html_escape_subst. unfold text_safe.
  induction s as [|c s IH]; simpl; [done|].
  rewrite all_chars_app, IH. by rewrite (esc_char_safe c).
Qed.

(** ** Occurrences *)

Lemma occurs_refl x : occurs x x.
Proof. exists "", "". by rewrite str_app_nil_l, str_app_nil_r. Qed.

Lemma occurs_app_l x s t : occurs x s -> occurs x (s +:+ t).
Proof.
  intros (pre & post & ->). exists pre, (post +:+ t). by rewrite !str_app_assoc.
Qed.

Lemma occurs_app_r x s t : occurs x t -> occurs x (s +:+ t).
Proof.
  intros (pre & post & ->). exists (s +:+ pre), post. by rewrite !str_app_assoc.
Qed.

Lemma occurs_trans x y s : occurs x y -> occurs y s -> occurs x s.
Proof.
  intros (p1 & q1 & ->) (p2 & q2 & ->).
  exists (p2 +:+ p1), (q1 +:+ q2). by rewrite !str_app_assoc.
Qed.

Lemma join_cons sep p rest :
  rest <> [] -> join sep (p :: rest) = p +:+ sep +:+ join sep rest.
Proof. by destruct rest. Qed.

Lemma occurs_join x sep parts : x ∈ parts -> occurs x (join sep parts).
Proof.
  induction parts as [|p parts IH]; [by intros ?%elem_of_nil|].
  intros [->|Hx]%elem_of_cons.
  - destruct parts; [apply occurs_refl|]. rewrite join_cons by done.
    apply occurs_app_l, occurs_refl.
  - destruct parts as [|p' parts]; [by apply elem_of_nil in Hx|].
    rewrite join_cons by done. by apply occurs_app_r, occurs_app_r, IH.
Qed.

(** ** The reader of the script tag *)

Lemma script_run_app q s t : script_run q (s +:+ t) = script_run (script_run q s) t.
Proof. revert q. induction s as [|c s IH]; intros q; [done|]. rewrite str_app_cons. apply IH. Qed.

Lemma script_run_tag q : script_run q SCRIPT = 8%nat.
Proof. do 8 (destruct q as [|q]; [reflexivity|]). reflexivity. Qed.

Lemma script_run_seen s : script_run 8 s = 8%nat.
Proof. induction s as [|c s IH]; [done|]. exact IH. Qed.

Lemma occurs_script_run s : occurs SCRIPT s -> script_run 0 s = 8%nat.
Proof.
  intros (pre & post & ->).
  by rewrite !script_run_app, script_run_tag, script_run_seen.
Qed.

Lemma inert_no_script s : inert s -> ~ occurs SCRIPT s.
Proof. unfold inert. intros H Ho%occurs_script_run. congruence. Qed.

Lemma inert_app s t : inert s -> inert t -> inert (s +:+ t).
Proof. unfold inert. intros Hs Ht. by rewrite script_run_app, Hs. Qed.

Lemma script_step_start c : "<"%char <> c -> script_step 0 c = 0%nat.
Proof.
  intros N. unfold script_step. change (8 <=? 0)%nat with false. cbv iota.
  change (String.get 0 SCRIPT) with (Some "<"%char).
  rewrite bool_decide_eq_false_2 by congruence.
  by destruct (ascii_dec "<" c).
Qed.

Lemma inert_text s : text_safe s -> inert s.
Proof.
  unfold text_safe, inert. induction s as [|c s IH]; [done|].
  cbn [all_chars script_run]. intros [Hc Hs]%andb_prop.
  rewrite script_step_start; [by apply IH|].
  unfold markup_char in Hc. by destruct (ascii_dec "<" c).
Qed.

Lemma inert_join sep parts : inert sep -> Forall inert parts -> inert (join sep parts).
Proof.
  intros Hsep. induction 1 as [|p parts Hp Hparts IH]; [done|].
  destruct parts; [done|]. rewrite join_cons by done.
  by repeat apply inert_app.
Qed.

Lemma digits_safe s : all_chars is_digit s = true -> text_safe s.
Proof.
  unfold text_safe. induction s as [|c s IH]; simpl; [done|].
  intros [Hc Hs]%andb_prop. rewrite IH by done. rewrite andb_true_r.
  unfold markup_char.
  destruct (ascii_dec "<" c) as [<-|]; [done|].
  destruct (ascii_dec ">" c) as [<-|]; [done|].
  destruct (ascii_dec (ascii_of_nat 34) c) as [<-|]; [done|].
  destruct (ascii_dec "'" c) as [<-|]; done.
Qed.

(** ** The drawers of the index *)

Lemma obind_Done {A B} (o : outcome A) (k : A -> outcome B) b :
  obind o k = Done b -> exists a, o = Done a /\ k a = Done b.
Proof. destruct o; simpl; [eauto|done..]. Qed.

Lemma collect_Done {A} (l : list A) body hs :
  collect l body = Done hs -> Forall2 (fun x h => body x = Done h) l hs.
Proof.
  revert hs. induction l as [|x l IH]; intros hs; simpl.
  - intros [= <-]. constructor.
  - intros (h & Hh & (t & Ht & [= <-])%obind_Done)%obind_Done.
    constructor; [done|]. by apply IH.
Qed.

Lemma Forall2_elem_of_l {A B} (P : A -> B -> Prop) l k x :
  Forall2 P l k -> x ∈ l -> exists y, y ∈ k /\ P x y.
Proof.
  induction 1 as [|a b l k Hab Hlk IH]; [by intros ?%elem_of_nil|].
  intros [->|Hx]%elem_of_cons.
  - exists b. split; [left|done].
  - destruct (IH Hx) as (y & Hy & HP). exists y. split; [by right|done].
Qed.

Lemma Forall2_elem_of_r {A B} (P : A -> B -> Prop) l k y :
  Forall2 P l k -> y ∈ k -> exists x, x ∈ l /\ P x y.
Proof.
  induction 1 as [|a b l k Hab Hlk IH]; [by intros ?%elem_of_nil|].
  intros [->|Hy]%elem_of_cons.
  - exists a. split; [left|done].
  - destruct (IH Hy) as (x & Hx & HP). exists x. split; [by right|done].
Qed.

Lemma dict_get_elem_of {V} k (v : V) (d : list (string * V)) :
  dict_get k d = Some v -> (k, v) ∈ d.
Proof.
  unfold dict_get. induction d as [|[k' v'] d IH]; simpl; [done|].
  destruct (String.eqb_spec k' k) as [->|N]; simpl.
  - intros [= ->]. left.
  - intros H. right. by apply IH.
Qed.

Lemma dict_get_nodup {V} k (v : V) (d : list (string * V)) :
  NoDup d.*1 -> (k, v) ∈ d -> dict_get k d = Some v.
Proof.
  unfold dict_get. induction d as [|[k' v'] d IH]; simpl; [by intros _ ?%elem_of_nil|].
  intros [Hk Hd]%NoDup_cons [[= -> ->]|Hin]%elem_of_cons.
  - by rewrite String.eqb_refl.
  - destruct (String.eqb_spec k' k) as [->|N]; simpl; [|by apply IH].
    exfalso. apply Hk. apply list_elem_of_fmap. by exists (k, v).
Qed.

Lemma item_html_Done dossier en h :
  item_html dossier en = Done h ->
  exists id, e_doc_id en = Some id
    /\ h = "<a class=" +:+ dq +:+ "drawer-item" +:+ dq +:+ " href=" +:+ dq
           +:+ html_escape (dossier +:+ "/" +:+ e_slug en +:+ "/") +:+ dq +:+ ">"
           +:+ "<span class=" +:+ dq +:+ "drawer-item-id" +:+ dq +:+ ">"
           +:+ html_escape id +:+ "</span>"
           +:+ "<span class=" +:+ dq +:+ "drawer-item-title" +:+ dq +:+ ">"
           +:+ html_escape (e_title en) +:+ "</span>"
           +:+ cat_span en
           +:+ "</a>".
Proof.
  unfold item_html, get_doc_id. destruct (e_doc_id en) as [id|]; simpl; [|done].
  intros [= <-]. by exists id.
Qed.

Lemma drawer_html_Done dossier entries h :
  drawer_html dossier entries = Done h ->
  exists items,
    Forall2 (fun en it => item_html dossier en = Done it) (sorted_entries entries) items
    /\ h = "<div class=" +:+ dq +:+ "cabinet-drawer" +:+ dq +:+ ">"
           +:+ "<div class=" +:+ dq +:+ "drawer-tab" +:+ dq +:+ ">"
           +:+ html_escape (display_name dossier)
           +:+ "<span class=" +:+ dq +:+ "drawer-tab-count" +:+ dq +:+ ">"
           +:+ decimal (length entries) +:+ "</span>"
           +:+ "</div>"
           +:+ "<div class=" +:+ dq +:+ "drawer-body" +:+ dq +:+ ">"
           +:+ join "" items
           +:+ "</div></div>".
Proof.
  unfold drawer_html. intros (items & Hitems & [= <-])%obind_Done.
  exists items. split; [by apply collect_Done|done].
Qed.

Lemma drawers_html_Done ds hs :
  drawers_html ds = Done hs ->
  Forall2 (fun dossier h => exists entries,
             dict_get dossier ds = Some entries
             /\ drawer_html dossier entries = Done h)
          (sorted_names ds) hs.
Proof.
  unfold drawers_html. intros H%collect_Done.
  eapply Forall2_impl; [exact H|]. simpl. intros dossier h.
  destruct (dict_get dossier ds) as [entries|]; [|done]. eauto.
Qed.

Ltac solve_inert :=
  repeat first
    [ assumption
    | apply inert_text, html_escape_safe
    | solve [unfold inert; reflexivity]
    | apply inert_app ].

Lemma inert_cat_span en : inert (cat_span en).
Proof. unfold cat_span. destruct (nonempty (e_category en)); solve_inert. Qed.

Lemma inert_item dossier en h : item_html dossier en = Done h -> inert h.
Proof.
  intros (id & _ & ->)%item_html_Done. pose proof (inert_cat_span en). solve_inert.
Qed.

Lemma inert_decimal n : inert (decimal n).
Proof. apply inert_text, digits_safe, digits_string_of_uint. Qed.

Lemma inert_drawer dossier entries h : drawer_html dossier entries = Done h -> inert h.
Proof.
  intros (items & Hitems & ->)%drawer_html_Done.
  assert (inert (join "" items)).
  { apply inert_join; [done|]. apply Forall_forall. intros it Hit.
    destruct (Forall2_elem_of_r _ _ _ _ Hitems Hit) as (en & _ & Hen).
    by eapply inert_item. }
  pose proof (inert_decimal (length entries)). solve_inert.
Qed.

Lemma inert_drawers ds hs : drawers_html ds = Done hs -> inert (join nl hs).
Proof.
  intros H%drawers_html_Done. apply inert_join; [done|].
  apply Forall_forall. intros h Hh.
  destruct (Forall2_elem_of_r _ _ _ _ H Hh) as (d & _ & entries & _ & Hd).
  by eapply inert_drawer.
Qed.

Ltac find_occurs :=
  solve [ apply occurs_refl
        | apply occurs_app_l; find_occurs
        | apply occurs_app_r; find_occurs ].

Lemma escaped_title_occurs dossier en h x :
  item_html dossier en = Done h -> occurs x (e_title en) -> occurs (html_escape x) h.
Proof.
  intros (id & _ & ->)%item_html_Done (pre & post & ->).
  rewrite !html_escape_app.
  find_occurs.
Qed.

Lemma sorted_names_perm ds : sorted_names ds ≡ₚ ds.*1.
Proof. apply sorted_by_perm. Qed.

Lemma escape_script : html_escape SCRIPT = "&lt;script&gt;".
Proof. vm_compute. reflexivity. Qed.

(** C3: every text that goes into the markup of the index (the href, the
    document id, the title, the category label, the display name) goes
    through [html.escape], which replaces each character of the markup by
    its entity, so an escaped text holds none of them; whatever the
    documents are, the markup made for the index never holds the script
    tag, and a title that holds it shows up with its angle brackets
    escaped. *)
Theorem index_text_escaped (ds : dossiers) (hs : list string) :
  NoDup ds.*1 ->
  drawers_html ds = Done hs ->
  (forall s, html_escape s = subst esc_char s /\ text_safe (html_escape s))
  /\ (forall dossier en h, item_html dossier en = Done h ->
        exists id, e_doc_id en = Some id
          /\ h = "<a class=" +:+ dq +:+ "drawer-item" +:+ dq +:+ " href=" +:+ dq
                 +:+ html_escape (dossier +:+ "/" +:+ e_slug en +:+ "/") +:+ dq +:+ ">"
                 +:+ "<span class=" +:+ dq +:+ "drawer-item-id" +:+ dq +:+ ">"
                 +:+ html_escape id +:+ "</span>"
                 +:+ "<span class=" +:+ dq +:+ "drawer-item-title" +:+ dq +:+ ">"
                 +:+ html_escape (e_title en) +:+ "</span>"
                 +:+ cat_span en
                 +:+ "</a>")
  /\ (forall en, cat_span en
        = if nonempty (e_category en)
          then "<span class=" +:+ dq +:+ "drawer-item-category" +:+ dq +:+ ">"
               +:+ html_escape (e_category en) +:+ "</span>"
          else "")
  /\ (forall dossier entries h, drawer_html dossier entries = Done h ->
        exists items,
          Forall2 (fun en it => item_html dossier en = Done it)
                  (sorted_entries entries) items
          /\ h = "<div class=" +:+ dq +:+ "cabinet-drawer" +:+ dq +:+ ">"
                 +:+ "<div class=" +:+ dq +:+ "drawer-tab" +:+ dq +:+ ">"
                 +:+ html_escape (display_name dossier)
                 +:+ "<span class=" +:+ dq +:+ "drawer-tab-count" +:+ dq +:+ ">"
                 +:+ decimal (length entries) +:+ "</span>"
                 +:+ "</div>"
                 +:+ "<div class=" +:+ dq +:+ "drawer-body" +:+ dq +:+ ">"
                 +:+ join "" items
                 +:+ "</div></div>")
  /\ ~ occurs SCRIPT (join nl hs)
  /\ (forall dossier entries en,
        (dossier, entries) ∈ ds -> en ∈ entries ->
        occurs SCRIPT (e_title en) ->
        occurs "&lt;script&gt;" (join nl hs)).
Proof.
  intros Hnd Hhs.
  split; [intros s; split; [apply html_escape_subst|apply html_escape_safe]|].
  split; [apply item_html_Done|].
  split; [reflexivity|].
  split; [apply drawer_html_Done|].
  split; [by eapply inert_no_script, inert_drawers|].
  intros dossier entries en Hd Hen Ht.
  pose proof (drawers_html_Done _ _ Hhs) as Hall.
  assert (dossier ∈ sorted_names ds) as Hin.
  { rewrite sorted_names_perm. apply list_elem_of_fmap. by exists (dossier, entries). }
  destruct (Forall2_elem_of_l _ _ _ _ Hall Hin) as (h & Hh & entries' & Hget & Hdr).
  rewrite (dict_get_nodup _ _ _ Hnd Hd) in Hget. injection Hget as <-.
  apply drawer_html_Done in Hdr as (items & Hitems & ->).
  assert (en ∈ sorted_entries entries) as Hen' by by apply elem_of_sorted_by.
  destruct (Forall2_elem_of_l _ _ _ _ Hitems Hen') as (it & Hit & Hitem).
  rewrite <- escape_script.
  eapply occurs_trans; [|by apply occurs_join].
  eapply occurs_trans; [by eapply escaped_title_occurs|].
  eapply occurs_trans; [by apply (occurs_join _ "")|].
  find_occurs.
Qed.

Lemma index_text_escaped_witness :
  exists hs,
    drawers_html
      [("zeta", [Entry "/r/dossiers/zeta/docs/b.md" "Beta <script>" "b" "" (Some "Z-001")])]
    = Done hs
    /\ ~ occurs SCRIPT (join nl hs).
Proof.
  eexists. split; [vm_compute; reflexivity|].
  eapply (index_text_escaped
    [("zeta", [Entry "/r/dossiers/zeta/docs/b.md" "Beta <script>" "b" "" (Some "Z-001")])]).
  - apply NoDup_singleton.
  - vm_compute. reflexivity.
Defined.

(** ** [str.replace] on a text with one occurrence *)

Lemma starts_with_spec old s :
  starts_with old s = true <-> exists post, s = old +:+ post.
Proof.
  revert s. induction old as [|a old IH]; intros s.
  - simpl. split; [|done]. intros _. by exists s.
  - destruct s as [|b s]; simpl.
    + split; [done|]. by intros [post ?].
    + destruct (ascii_dec a b) as [->|N].
      * rewrite IH. split; intros [post H]; exists post.
        -- by rewrite str_app_cons, H.
        -- rewrite str_app_cons in H. by injection H.
      * split; [done|]. intros [post H]. rewrite str_app_cons in H. congruence.
Qed.




(** ** [build_index] *)

Lemma collect_total {A} (l : list A) body :
  (forall x, x ∈ l -> exists h, body x = Done h) ->
  exists hs, collect l body = Done hs.
Proof.
  induction l as [|x l IH]; intros H; simpl; [by eexists|].
  destruct (H x) as [h Hh]; [left|]. rewrite Hh. simpl.
  destruct IH as [hs Hhs]; [intros y Hy; apply H; by right|].
  rewrite Hhs. simpl. by eexists.
Qed.

Lemma assign_doc_ids_keys ds : (assign_doc_ids ds).*1 = ds.*1.
Proof.
  unfold assign_doc_ids. induction ds as [|[d es] ds IH]; [done|].
  cbn [map]. rewrite !fmap_cons. f_equal. exact IH.
Qed.

Lemma elem_of_assign_doc_ids ds d es' :
  (d, es') ∈ assign_doc_ids ds ->
  exists es, (d, es) ∈ ds /\ es' = assign_entries (dossier_code d) es.
Proof.
  unfold assign_doc_ids. induction ds as [|[d0 es0] ds IH]; simpl.
  { by intros ?%elem_of_nil. }
  intros [[= -> ->]|H]%elem_of_cons.
  - exists es0. split; [left|done].
  - destruct (IH H) as (es & Hes & ->). exists es. split; [by right|done].
Qed.

Lemma assigned_has_id code entries en :
  en ∈ assign_entries code entries -> is_Some (e_doc_id en).
Proof.
  intros [i Hi]%list_elem_of_lookup.
  destruct (entries !! i) as [e|] eqn:He.
  - destruct (assign_entries_lookup code _ _ _ He) as (k & _ & Hk).
    rewrite Hk in Hi. injection Hi as <-. by eexists.
  - apply lookup_ge_None in He. apply lookup_lt_Some in Hi.
    rewrite length_assign_entries in Hi. lia.
Qed.

Lemma drawer_html_assigned dossier code entries :
  exists h, drawer_html dossier (assign_entries code entries) = Done h.
Proof.
  unfold drawer_html.
  destruct (collect_total (sorted_entries (assign_entries code entries))
              (item_html dossier)) as [items Hitems].
  { intros en Hen%elem_of_sorted_by. apply assigned_has_id in Hen as [id Hid].
    unfold item_html, get_doc_id. rewrite Hid. by eexists. }
  rewrite Hitems. by eexists.
Qed.

Lemma elem_of_keys {V} (d : list (string * V)) k :
  k ∈ d.*1 -> exists v, dict_get k d = Some v.
Proof.
  unfold dict_get. induction d as [|[k' v'] d IH]; simpl; [by intros ?%elem_of_nil|].
  destruct (String.eqb_spec k' k) as [->|N]; simpl; [by eexists|].
  intros [?|H]%elem_of_cons; [congruence|]. by apply IH.
Qed.

Lemma drawers_html_assigned ds :
  exists hs, drawers_html (assign_doc_ids ds) = Done hs.
Proof.
  unfold drawers_html. apply collect_total.
  intros d Hd. rewrite sorted_names_perm in Hd.
  destruct (elem_of_keys _ _ Hd) as [es' Hget]. rewrite Hget.
  apply dict_get_elem_of, elem_of_assign_doc_ids in Hget as (es & _ & ->).
  apply drawer_html_assigned.
Qed.


Lemma cat_span_empty en : e_category en = "" -> cat_span en = "".
Proof. unfold cat_span. by intros ->. Qed.

Lemma cat_span_nonempty en :
  e_category en <> "" ->
  cat_span en = "<span class=" +:+ dq +:+ "drawer-item-category" +:+ dq +:+ ">"
                +:+ html_escape (e_category en) +:+ "</span>".
Proof. unfold cat_span. by destruct (e_category en). Qed.






(** ** The fatal checks of [main] *)

Lemma find_docs_no_folder e :
  (forall root, root ∈ DOSSIER_ROOTS ->
     listing e root = None \/ listing e root = Some []) ->
  find_docs e = [].
Proof.
  intros H. unfold find_docs, DOSSIER_ROOTS in *. simpl. unfold scan_root.
  destruct (H "dossiers") as [-> | ->]; [left|done..].
Qed.

Lemma main_exits_early (e : env) (w : world) :
  which_pandoc e = false \/ file_at (fs w) TEMPLATE = false \/ find_docs e = [] ->
  exists msg,
    main e w = (Exit 1, World (fs w) (stdout w) (stderr w ++ [msg]) (spawned w))
    /\ (which_pandoc e = false -> msg = "pandoc not found. Install pandoc >= 3.x.")
    /\ (which_pandoc e = true -> file_at (fs w) TEMPLATE = false ->
          msg = "Missing template: " +:+ cabinet_path e TEMPLATE)
    /\ (which_pandoc e = true -> file_at (fs w) TEMPLATE = true ->
          msg = "No docs found in dossiers/*/docs/.").
Proof.
  intros H. unfold main.
  destruct (which_pandoc e) eqn:Ew; simpl.
  - unfold bind at 1. unfold is_file at 1.
    destruct (file_at (fs w) TEMPLATE) eqn:Et; simpl.
    + destruct H as [?|[?|Hd]]; [done..|]. rewrite Hd.
      eexists. split; [reflexivity|]. repeat split; done.
    + eexists. split; [reflexivity|]. repeat split; done.
  - eexists. split; [reflexivity|]. repeat split; done.
Qed.

(** C5: when the converter is not found, or the render template is not a
    file, or no document is discovered (as when no docs folder exists),
    the run prints one message to the error stream and exits with status
    1; the files of the cabinet are as before: nothing is written and
    nothing is deleted, and no converter has been run. *)
Theorem main_fatal_checks (e : env) (w : world) :
  which_pandoc e = false
  \/ file_at (fs w) TEMPLATE = false
  \/ find_docs e = []
  \/ (forall root, root ∈ DOSSIER_ROOTS ->
        listing e root = None \/ listing e root = Some []) ->
  exists msg,
    main e w = (Exit 1, World (fs w) (stdout w) (stderr w ++ [msg]) (spawned w))
    /\ exit_status (main e w).1 = 1%nat
    /\ fs (main e w).2 = fs w
    /\ (which_pandoc e = false -> msg = "pandoc not found. Install pandoc >= 3.x.")
    /\ (which_pandoc e = true -> file_at (fs w) TEMPLATE = false ->
          msg = "Missing template: " +:+ cabinet_path e TEMPLATE)
    /\ (which_pandoc e = true -> file_at (fs w) TEMPLATE = true ->
          msg = "No docs found in dossiers/*/docs/.").
Proof.
  intros H.
  destruct (main_exits_early e w) as (msg & Hmain & Hmsg).
  { destruct H as [?|[?|[?|?]]]; auto using find_docs_no_folder. }
  exists msg. rewrite Hmain. simpl. repeat split; try done; apply Hmsg.
Qed.

Lemma main_fatal_checks_witness :
  exists msg,
    main (Env "/r" true (fun _ => None) (fun _ => ProcResult 0 "" "") "2026-01-01T00:00:00Z")
         (World (<[TEMPLATE := FFile "t"]> ∅) [] [] [])
    = (Exit 1, World (<[TEMPLATE := FFile "t"]> ∅) [] [msg] []).
Proof.
  destruct (main_fatal_checks
    (Env "/r" true (fun _ => None) (fun _ => ProcResult 0 "" "") "2026-01-01T00:00:00Z")
    (World (<[TEMPLATE := FFile "t"]> ∅) [] [] [])) as (msg & H & _).
  - right. right. right. intros root _. by left.
  - exists msg. exact H.
Defined.

(** ** [clean_generated] *)

Lemma below_prefix name p : [name] `prefix_of` p <-> below name p = true.
Proof.
  destruct p as [|x p]; simpl.
  - split; [|done]. by intros [k ?].
  - rewrite String.eqb_eq. split.
    + intros [k [= ->]]. done.
    + intros ->. by exists p.
Qed.

Lemma lookup_rmtree (m : gmap (list string) obj) name p :
  filter (fun kv => ¬ [name] `prefix_of` kv.1) m !! p
  = if below name p then None else m !! p.
Proof.
  destruct (below name p) eqn:E.
  - apply map_lookup_filter_None. right. intros x _. simpl.
    intros H. apply H. by apply below_prefix.
  - destruct (m !! p) as [x|] eqn:Hp.
    + apply map_lookup_filter_Some. split; [done|]. simpl.
      rewrite below_prefix. congruence.
    + apply map_lookup_filter_None. by left.
Qed.

Lemma lookup_clean_step (m : gmap (list string) obj) name p :
  clean_step m name !! p
  = if below name p && bool_decide (m !! [name] = Some FDir) && negb (self_or_parent name)
    then None else m !! p.
Proof.
  unfold clean_step. cbn [dir_at].
  destruct (bool_decide (m !! [name] = Some FDir)), (negb (self_or_parent name));
    simpl; rewrite ?andb_false_r, ?andb_true_r; try done.
  apply lookup_rmtree.
Qed.

Lemma existsb_ext_in {A} (f g : A -> bool) l :
  (forall x, x ∈ l -> f x = g x) -> existsb f l = existsb g l.
Proof.
  induction l as [|x l IH]; intros H; simpl; [done|].
  rewrite (H x) by left. rewrite IH; [done|]. intros y Hy. apply H. by right.
Qed.

Lemma lookup_clean_fold names : forall (m : gmap (list string) obj) p,
  foldl clean_step m names !! p
  = if existsb (fun name => below name p && bool_decide (m !! [name] = Some FDir)
                            && negb (self_or_parent name)) names
    then None else m !! p.
Proof.
  induction names as [|n names IH]; intros m p; simpl; [done|].
  rewrite IH, lookup_clean_step.
  destruct (below n p && bool_decide (m !! [n] = Some FDir) && negb (self_or_parent n))
    eqn:E; simpl.
  - by destruct (existsb _ names).
  - erewrite existsb_ext_in; [reflexivity|]. intros name _. simpl.
    destruct (below name p) eqn:Eb; simpl; [|done].
    rewrite lookup_clean_step.
    destruct (below n [name] && bool_decide (m !! [n] = Some FDir)
              && negb (self_or_parent n)) eqn:E'; [|done].
    exfalso. apply andb_prop in E' as [[Hn Hd]%andb_prop Hs].
    simpl in Hn. apply String.eqb_eq in Hn as ->.
    rewrite Eb, Hd, Hs in E. done.
Qed.

Lemma clean_loop_run names : forall w,
  for_each names (fun name =>
    do d <- is_dir [name];
    if d && negb (String.eqb name "." || String.eqb name "..")
    then rmtree [name] else ret tt) w
  = (Done tt, set_fs (foldl clean_step (fs w) names) w).
Proof.
  induction names as [|n names IH]; intros w; simpl.
  { unfold ret, set_fs. by destruct w. }
  unfold bind at 1. unfold bind at 1. unfold is_dir at 1.
  unfold clean_step at 2. fold (self_or_parent n).
  destruct (dir_at (fs w) [n] && negb (self_or_parent n)).
  - unfold rmtree. rewrite IH. done.
  - unfold ret. rewrite IH. done.
Qed.

Lemma clean_generated_run w :
  clean_generated w
  = (Done tt,
     set_fs (foldl clean_step (fs w)
               (omap (fun kv => match kv.1 with [name] => Some name | _ => None end)
                     (map_to_list (fs w)))) w).
Proof. unfold clean_generated, bind, iterdir. apply clean_loop_run. Qed.

(** The files after the cleanup. *)
Lemma lookup_clean_generated w p :
  fs (clean_generated w).2 !! p = if generated (fs w) p then None else fs w !! p.
Proof.
  rewrite clean_generated_run. simpl. rewrite lookup_clean_fold.
  match goal with |- (if ?a then _ else _) = (if ?b then _ else _) =>
    assert (a = b) as ->; [|done] end.
  unfold generated. destruct p as [|x p].
  { simpl. induction (omap _ _); simpl; [done|]. done. }
  destruct (bool_decide (fs w !! [x] = Some FDir) && negb (self_or_parent x)) eqn:E.
  - apply andb_prop in E as [Hd Hs].
    apply existsb_exists. exists x. split.
    + apply list_elem_of_In, list_elem_of_omap. exists ([x], FDir). split; [|done].
      apply elem_of_map_to_list. by apply bool_decide_eq_true in Hd.
    + simpl. by rewrite String.eqb_refl, Hd, Hs.
  - apply not_true_iff_false. intros (name & _ & H)%existsb_exists.
    apply andb_prop in H as [[Hn Hd]%andb_prop Hs]. simpl in Hn.
    apply String.eqb_eq in Hn as ->. rewrite Hd, Hs in E. done.
Qed.

Lemma main_run (e : env) (w : world) :
  which_pandoc e = true -> file_at (fs w) TEMPLATE = true -> find_docs e <> [] ->
  let ds := assign_doc_ids (find_docs e) in
  main e w
  = (render_all e ds (now_utc e) ;; build_index ds ;; print "Done.")
      (World (fs (clean_generated w).2)
             (stdout w ++ ["Cabinet: " +:+ decimal (list_sum (map (fun kv => length kv.2) ds))
                           +:+ " docs across " +:+ decimal (length ds) +:+ " dossiers"])
             (stderr w) (spawned w)).
Proof.
  intros Hw Ht Hd ds. unfold main. rewrite Hw. simpl.
  unfold bind at 1. unfold is_file at 1. rewrite Ht. simpl.
  destruct (find_docs e) as [|d0 ds0] eqn:E; [done|]. fold ds.
  unfold bind at 1. unfold print at 1. unfold bind at 1.
  rewrite !clean_generated_run. reflexivity.
Qed.

(** C7: the cleanup removes every directory child of the cabinet directory
    whose name is neither the self nor the parent reference, with all that
    is below it, and nothing else: the files directly in the cabinet
    directory, such as the templates, are as before, and so is what is not
    below a removed directory; it prints nothing and runs nothing.  In
    [main] it runs before the rendering loop: the loop starts from the
    cleaned files, with no converter run yet. *)
Theorem clean_generated_spec (e : env) (w : world) :
  let w' := (clean_generated w).2 in
  (clean_generated w).1 = Done tt
  /\ stdout w' = stdout w /\ stderr w' = stderr w /\ spawned w' = spawned w
  /\ (forall p, fs w' !! p = if generated (fs w) p then None else fs w !! p)
  /\ (forall name rest,
        fs w !! [name] = Some FDir -> name <> "." -> name <> ".." ->
        fs w' !! (name :: rest) = None)
  /\ (forall name content,
        fs w !! [name] = Some (FFile content) ->
        fs w' !! [name] = Some (FFile content))
  /\ (forall name rest,
        fs w !! [name] <> Some FDir ->
        fs w' !! (name :: rest) = fs w !! (name :: rest))
  /\ (which_pandoc e = true -> file_at (fs w) TEMPLATE = true -> find_docs e <> [] ->
        let ds := assign_doc_ids (find_docs e) in
        exists line,
          main e w
          = (render_all e ds (now_utc e) ;; build_index ds ;; print "Done.")
              (World (fs w') (stdout w ++ [line]) (stderr w) (spawned w))).
Proof.
  intros w'. subst w'.
  split; [by rewrite clean_generated_run|].
  split; [by rewrite clean_generated_run|].
  split; [by rewrite clean_generated_run|].
  split; [by rewrite clean_generated_run|].
  split; [apply lookup_clean_generated|].
  split.
  { intros name rest Hd N1 N2. rewrite lookup_clean_generated. simpl.
    rewrite bool_decide_eq_true_2 by done. unfold self_or_parent.
    apply String.eqb_neq in N1, N2. by rewrite N1, N2. }
  split.
  { intros name content Hf. rewrite lookup_clean_generated. simpl.
    rewrite bool_decide_eq_false_2 by congruence. done. }
  split.
  { intros name rest Hd. rewrite lookup_clean_generated. simpl.
    by rewrite bool_decide_eq_false_2. }
  intros Hw Ht Hd ds. eexists. by apply main_run.
Qed.

Example clean_generated_example :
  let m := fs (clean_generated
        (World (<[["cabinet-template.html"] := FFile "T"]>
                 (<[["old"] := FDir]> (<[["old"; "a"; "index.html"] := FFile "x"]>
                   (<[["old"; "a"] := FDir]> ∅)))) [] [] [])).2 in
  m !! ["cabinet-template.html"] = Some (FFile "T")
  /\ m !! ["old"] = None
  /\ m !! ["old"; "a"] = None
  /\ m !! ["old"; "a"; "index.html"] = None
  /\ size m = 1%nat.
Proof. vm_compute. repeat split. Qed.

(** ** A failing converter ends the run *)

Lemma spawns_nothing_fails_fast {A} e (m : M A) : spawns_nothing m -> fails_fast e m.
Proof.
  intros H w o w' Hm. exists []. rewrite app_nil_r. split; [by eapply H|].
  left. constructor.
Qed.

Lemma spawns_nothing_bind {A B} (m : M A) (k : A -> M B) :
  spawns_nothing m -> (forall a, spawns_nothing (k a)) -> spawns_nothing (bind m k).
Proof.
  intros Hm Hk w o w'. unfold bind.
  destruct (m w) as [[a|n|x] w1] eqn:E; pose proof (Hm _ _ _ E) as H1.
  - intros H2%Hk. congruence.
  - intros [= <- <-]. done.
  - intros [= <- <-]. done.
Qed.

Lemma spawns_nothing_for_each {A} (l : list A) body :
  (forall x, spawns_nothing (body x)) -> spawns_nothing (for_each l body).
Proof.
  intros H. induction l as [|x l IH]; simpl.
  - by intros w o w' [= <- <-].
  - apply spawns_nothing_bind; [apply H|done].
Qed.

Lemma spawns_nothing_ret {A} (a : A) : spawns_nothing (ret a).
Proof. by intros w o w' [= <- <-]. Qed.

Lemma spawns_nothing_lift {A} (o : outcome A) : spawns_nothing (lift o).
Proof. by intros w o' w' [= <- <-]. Qed.

Lemma spawns_nothing_sys_exit {A} n : spawns_nothing (@sys_exit A n).
Proof. by intros w o w' [= <- <-]. Qed.

Lemma spawns_nothing_print line : spawns_nothing (print line).
Proof. by intros w o w' [= <- <-]. Qed.

Lemma spawns_nothing_eprint line : spawns_nothing (eprint line).
Proof. by intros w o w' [= <- <-]. Qed.

Lemma spawns_nothing_is_file p : spawns_nothing (is_file p).
Proof. by intros w o w' [= <- <-]. Qed.

Lemma spawns_nothing_mkdir_p p : spawns_nothing (mkdir_p p).
Proof.
  intros w o w'. unfold mkdir_p. destruct (existsb _ _); by intros [= <- <-].
Qed.

Lemma spawns_nothing_write_text p content : spawns_nothing (write_text p content).
Proof.
  intros w o w'. unfold write_text. destruct (_ && _); by intros [= <- <-].
Qed.

Lemma spawns_nothing_read_text p : spawns_nothing (read_text p).
Proof.
  intros w o w'. unfold read_text. destruct (fs w !! p) as [[]|]; by intros [= <- <-].
Qed.

Lemma spawns_nothing_clean_generated : spawns_nothing clean_generated.
Proof. intros w o w'. rewrite clean_generated_run. by intros [= <- <-]. Qed.

Lemma spawns_nothing_build_index ds : spawns_nothing (build_index ds).
Proof.
  unfold build_index.
  apply spawns_nothing_bind; [apply spawns_nothing_read_text|]. intros template.
  apply spawns_nothing_bind; [apply spawns_nothing_lift|]. intros drawers.
  apply spawns_nothing_bind; [apply spawns_nothing_write_text|]. intros _.
  apply spawns_nothing_print.
Qed.

Lemma trace_ok_Done {A} e cmds (a : A) err :
  trace_ok e cmds (Done a) err -> Forall (fun c => failed e c = false) cmds.
Proof. intros [H|(c0 & c & _ & _ & _ & ? & _)]; done. Qed.

Lemma fails_fast_bind {A B} e (m : M A) (k : A -> M B) :
  fails_fast e m -> (forall a, fails_fast e (k a)) -> fails_fast e (bind m k).
Proof.
  intros Hm Hk w o w'. unfold bind.
  destruct (m w) as [[a|n|x] w1] eqn:E; destruct (Hm _ _ _ E) as (c1 & Hs1 & Ht1).
  - intros H2. destruct (Hk _ _ _ _ H2) as (c2 & Hs2 & Ht2).
    exists (c1 ++ c2). split; [by rewrite Hs2, Hs1, (assoc_L (++))|].
    apply trace_ok_Done in Ht1.
    destruct Ht2 as [Hall|(c0 & c & -> & Hall & Hc & Ho & Hl)].
    + left. by apply Forall_app.
    + right. exists (c1 ++ c0), c. split; [by rewrite (assoc_L (++))|].
      split; [by apply Forall_app|]. done.
  - intros [= <- <-]. exists c1. split; [done|].
    destruct Ht1 as [?|(c0 & c & -> & ? & ? & [= ->] & ?)]; [by left|].
    right. by exists c0, c.
  - intros [= <- <-]. exists c1. split; [done|].
    destruct Ht1 as [?|(c0 & c & -> & ? & ? & ? & ?)]; [by left|done].
Qed.

Lemma fails_fast_for_each {A} e (l : list A) body :
  (forall x, fails_fast e (body x)) -> fails_fast e (for_each l body).
Proof.
  intros H. induction l as [|x l IH]; simpl.
  - apply spawns_nothing_fails_fast, spawns_nothing_ret.
  - apply fails_fast_bind; [apply H|done].
Qed.

(** The call of the converter and what follows it in [render_doc]. *)
Lemma fails_fast_convert e cmd path (k : proc_result -> M unit) :
  nth 1 cmd "" = path ->
  (forall r, spawns_nothing (k r)) ->
  fails_fast e
    (do result <- subprocess_run e cmd;
     if negb (returncode result =? 0)%Z then
       eprint ("FAIL " +:+ path +:+ ": " +:+ strip (proc_stderr result)) ;;
       sys_exit 1
     else k result).
Proof.
  intros Hpath Hk w o w'. unfold bind at 1. unfold subprocess_run at 1.
  intros H. exists [cmd].
  destruct (negb (returncode (run_pandoc e cmd) =? 0)%Z) eqn:E.
  - unfold bind, eprint, sys_exit in H. injection H as <- <-. simpl.
    split; [done|]. right. exists [], cmd. repeat split; try done.
    unfold fail_line. by rewrite last_snoc, Hpath.
  - apply Hk in H. simpl in H. split; [done|]. left. by repeat constructor.
Qed.

Lemma pandoc_cmd_path e en doc_id display root_prefix source_path built_at :
  nth 1 (pandoc_cmd e en doc_id display root_prefix source_path built_at) ""
  = e_path en.
Proof. reflexivity. Qed.

Lemma fails_fast_render_doc e en dossier built_at :
  fails_fast e (render_doc e en dossier built_at).
Proof.
  unfold render_doc.
  apply fails_fast_bind; [apply spawns_nothing_fails_fast, spawns_nothing_mkdir_p|].
  intros _.
  apply fails_fast_bind; [apply spawns_nothing_fails_fast, spawns_nothing_lift|].
  intros source_path.
  apply fails_fast_bind; [apply spawns_nothing_fails_fast, spawns_nothing_lift|].
  intros doc_id.
  apply fails_fast_convert; [apply pandoc_cmd_path|]. intros r.
  apply spawns_nothing_bind; [apply spawns_nothing_write_text|]. intros _.
  apply spawns_nothing_print.
Qed.

Lemma fails_fast_render_all e ds built_at : fails_fast e (render_all e ds built_at).
Proof.
  unfold render_all. apply fails_fast_for_each. intros [dossier entries].
  apply fails_fast_bind; [apply spawns_nothing_fails_fast, spawns_nothing_print|].
  intros _. apply fails_fast_for_each. intros en. apply fails_fast_render_doc.
Qed.

Lemma fails_fast_main e : fails_fast e (main e).
Proof.
  unfold main. destruct (which_pandoc e); simpl.
  2: { apply spawns_nothing_fails_fast, spawns_nothing_bind;
         [apply spawns_nothing_eprint|intros; apply spawns_nothing_sys_exit]. }
  apply fails_fast_bind; [apply spawns_nothing_fails_fast, spawns_nothing_is_file|].
  intros [|]; simpl.
  2: { apply spawns_nothing_fails_fast, spawns_nothing_bind;
         [apply spawns_nothing_eprint|intros; apply spawns_nothing_sys_exit]. }
  destruct (find_docs e) as [|d0 ds0].
  { apply spawns_nothing_fails_fast, spawns_nothing_bind;
      [apply spawns_nothing_eprint|intros; apply spawns_nothing_sys_exit]. }
  apply fails_fast_bind; [apply spawns_nothing_fails_fast, spawns_nothing_print|].
  intros _.
  apply fails_fast_bind;
    [apply spawns_nothing_fails_fast, spawns_nothing_clean_generated|].
  intros _.
  apply fails_fast_bind; [apply fails_fast_render_all|]. intros _.
  apply fails_fast_bind;
    [apply spawns_nothing_fails_fast, spawns_nothing_build_index|].
  intros _. apply spawns_nothing_fails_fast, spawns_nothing_print.
Qed.

Lemma lookup_mkdirs (m : gmap (list string) obj) qs p :
  foldr (fun q m => <[q := FDir]> m) m qs !! p
  = if bool_decide (p ∈ qs) then Some FDir else m !! p.
Proof.
  induction qs as [|q qs IH]; simpl; [done|].
  destruct (decide (q = p)) as [->|N].
  - rewrite lookup_insert_eq. rewrite bool_decide_eq_true_2; [done|left].
  - rewrite lookup_insert_ne by done. rewrite IH.
    destruct (bool_decide (p ∈ qs)) eqn:E.
    + apply bool_decide_eq_true in E. rewrite bool_decide_eq_true_2; [done|by right].
    + apply bool_decide_eq_false in E. rewrite bool_decide_eq_false_2; [done|].
      intros [?|?]%elem_of_cons; congruence.
Qed.

Lemma not_elem_of_ancestors p name : p ++ [name] ∉ ancestors p.
Proof.
  unfold ancestors. intros (n & Hn & _)%list_elem_of_fmap.
  apply (f_equal length) in Hn. rewrite length_app, length_take in Hn. simpl in Hn. lia.
Qed.

(** The run of [render_doc] on a document that the converter rejects. *)
Lemma render_doc_failure (e : env) (en : entry) (dossier built_at : string)
    (w : world) (source_path doc_id : string) :
  let out_dir := output_dir_for dossier (e_slug en) in
  let cmd := pandoc_cmd e en doc_id (display_name dossier)
               (repeat_string "../" (2 + length (path_parts (e_slug en))))
               source_path built_at in
  existsb (file_at (fs w)) (ancestors out_dir) = false ->
  relative_to_repo e (e_path en) = Done source_path ->
  e_doc_id en = Some doc_id ->
  returncode (run_pandoc e cmd) <> 0%Z ->
  render_doc e en dossier built_at w
  = (Exit 1,
     World (foldr (fun q m => <[q := FDir]> m) (fs w) (ancestors out_dir))
           (stdout w)
           (stderr w ++ ["FAIL " +:+ e_path en +:+ ": "
                         +:+ strip (proc_stderr (run_pandoc e cmd))])
           (spawned w ++ [cmd])).
Proof.
  intros out_dir cmd Hmk Hrel Hid Hrc.
  unfold render_doc. fold out_dir. unfold bind at 1. unfold mkdir_p at 1.
  rewrite Hmk. unfold bind at 1. unfold lift at 1. rewrite Hrel.
  unfold bind at 1. unfold lift at 1. unfold get_doc_id. rewrite Hid.
  fold cmd. unfold bind at 1. unfold subprocess_run at 1.
  apply Z.eqb_neq in Hrc. rewrite Hrc. reflexivity.
Qed.

Lemma for_each_exit {A} (body : A -> M unit) before x after w0 w1 w2 n :
  for_each before body w0 = (Done tt, w1) ->
  body x w1 = (Exit n, w2) ->
  for_each (before ++ x :: after) body w0 = (Exit n, w2).
Proof.
  revert w0. induction before as [|y before IH]; intros w0; simpl.
  - intros [= <-] Hx. unfold bind. by rewrite Hx.
  - unfold bind at 1 2. destruct (body y w0) as [[[]|?|?] w] eqn:E; try done.
    apply IH.
Qed.

(** C4: when the converter exits with a status that is not zero on a
    document, the call reports the path of the document and the trimmed
    error text on the error stream and exits with status 1; it has written
    no file, the output file of the document included; the rendering loop
    stops there, whatever documents follow; and in a whole run a converter
    call that fails is the last process run, the run exits with status 1
    and the report is the last line of the error stream. *)
Theorem render_failure_is_fatal (e : env) (w : world) :
  (forall en dossier built_at w0 source_path doc_id,
     let out_dir := output_dir_for dossier (e_slug en) in
     let cmd := pandoc_cmd e en doc_id (display_name dossier)
                  (repeat_string "../" (2 + length (path_parts (e_slug en))))
                  source_path built_at in
     existsb (file_at (fs w0)) (ancestors out_dir) = false ->
     relative_to_repo e (e_path en) = Done source_path ->
     e_doc_id en = Some doc_id ->
     returncode (run_pandoc e cmd) <> 0%Z ->
     exists w1,
       render_doc e en dossier built_at w0 = (Exit 1, w1)
       /\ stderr w1 = stderr w0 ++ ["FAIL " +:+ e_path en +:+ ": "
                                    +:+ strip (proc_stderr (run_pandoc e cmd))]
       /\ stdout w1 = stdout w0
       /\ spawned w1 = spawned w0 ++ [cmd]
       /\ fs w1 !! (out_dir ++ ["index.html"]) = fs w0 !! (out_dir ++ ["index.html"])
       /\ (forall p content,
             fs w1 !! p = Some (FFile content) -> fs w0 !! p = Some (FFile content)))
  /\ (forall dossier built_at before en after w0 w1 w2 n,
        for_each before (fun en => render_doc e en dossier built_at) w0 = (Done tt, w1) ->
        render_doc e en dossier built_at w1 = (Exit n, w2) ->
        for_each (before ++ en :: after) (fun en => render_doc e en dossier built_at) w0
        = (Exit n, w2))
  /\ (forall o w',
        main e w = (o, w') ->
        forall cmds1 cmd cmds2,
          spawned w' = spawned w ++ cmds1 ++ cmd :: cmds2 ->
          returncode (run_pandoc e cmd) <> 0%Z ->
          cmds2 = [] /\ o = Exit 1 /\ exit_status o = 1%nat
          /\ last (stderr w')
             = Some ("FAIL " +:+ nth 1 cmd "" +:+ ": "
                     +:+ strip (proc_stderr (run_pandoc e cmd)))).
Proof.
  split; [|split].
  - intros en dossier built_at w0 source_path doc_id out_dir cmd Hmk Hrel Hid Hrc.
    eexists. split; [by apply render_doc_failure|]. cbn [fs stdout stderr spawned].
    repeat split; try done.
    + rewrite lookup_mkdirs. rewrite bool_decide_eq_false_2; [done|].
      apply not_elem_of_ancestors.
    + intros p content. rewrite lookup_mkdirs. by destruct (bool_decide _).
  - intros dossier built_at before en after w0 w1 w2 n.
    apply (for_each_exit (fun en => render_doc e en dossier built_at)).
  - intros o w' Hmain cmds1 cmd cmds2 Hsp Hrc.
    destruct (fails_fast_main e _ _ _ Hmain) as (cmds & Hcmds & Htr).
    rewrite Hcmds in Hsp. apply app_inv_head in Hsp. subst cmds.
    assert (failed e cmd = true) as Hf.
    { unfold failed. apply Z.eqb_neq in Hrc. by rewrite Hrc. }
    destruct Htr as [Hall|(c0 & c & Heq & Hall & Hc & -> & Hl)].
    + apply Forall_app in Hall as [_ Hall]. apply Forall_cons in Hall as [Hall _].
      congruence.
    + destruct cmds2 as [|c' cmds2 _] using rev_ind.
      * apply app_inj_tail in Heq as [_ <-]. done.
      * exfalso. change (cmd :: cmds2 ++ [c']) with ((cmd :: cmds2) ++ [c']) in Heq.
        rewrite (assoc_L (++)) in Heq. apply app_inj_tail in Heq as [<- _].
        apply Forall_app in Hall as [_ Hall]. apply Forall_cons in Hall as [Hall _].
        congruence.
Qed.

Lemma render_failure_is_fatal_witness :
  (main (Env "/r" true
             (fun _ => Some [DocsDir "zeta" [MdFile ["a.md"] "# A"; MdFile ["b.md"] "# B"]])
             (fun _ => ProcResult 2 "" " no such filter ")
             "2026-01-01T00:00:00Z")
        (World (<[TEMPLATE := FFile "t"]> ∅) [] [] [])).1 = Exit 1.
Proof.
  destruct (render_failure_is_fatal
    (Env "/r" true
         (fun _ => Some [DocsDir "zeta" [MdFile ["a.md"] "# A"; MdFile ["b.md"] "# B"]])
         (fun _ => ProcResult 2 "" " no such filter ")
         "2026-01-01T00:00:00Z")
    (World (<[TEMPLATE := FFile "t"]> ∅) [] [] [])) as (_ & _ & H).
  eapply (H _ _ (surjective_pairing _) [] _ []).
  - vm_compute. reflexivity.
  - done.
Defined.

Example render_failure_example :
  let r := main (Env "/r" true
             (fun _ => Some [DocsDir "zeta" [MdFile ["a.md"] "# A"; MdFile ["b.md"] "# B"]])
             (fun _ => ProcResult 2 "" " no such filter ")
             "2026-01-01T00:00:00Z")
        (World (<[TEMPLATE := FFile "t"]> (<[["zeta"] := FDir]>
                 (<[["zeta"; "b"] := FDir]> (<[["zeta"; "b"; "index.html"] := FFile "old"]> ∅))))
               [] [] []) in
  r.1 = Exit 1
  /\ stderr r.2 = ["FAIL /r/dossiers/zeta/docs/a.md: no such filter"]
  /\ length (spawned r.2) = 1%nat
  /\ fs r.2 !! ["zeta"; "a"] = Some FDir
  /\ fs r.2 !! ["zeta"; "a"; "index.html"] = None
  /\ fs r.2 !! ["zeta"; "b"] = None
  /\ size (fs r.2) = 3%nat.
Proof. vm_compute. repeat split. Qed.

(** ** [find_docs] *)

Lemma elem_of_dict_set_keys {V} k (v : V) d k' :
  k' ∈ (dict_set k v d).*1 <-> k' = k \/ k' ∈ d.*1.
Proof.
  induction d as [|[k0 v0] d IH]; simpl.
  - rewrite list_elem_of_singleton. split; [by left|]. intros [?|?%elem_of_nil]; done.
  - destruct (String.eqb_spec k0 k) as [->|N]; rewrite !fmap_cons; simpl;
      rewrite !elem_of_cons.
    + tauto.
    + rewrite IH. tauto.
Qed.

Lemma dict_set_nodup {V} k (v : V) d : NoDup d.*1 -> NoDup (dict_set k v d).*1.
Proof.
  induction d as [|[k0 v0] d IH].
  - intros _. apply NoDup_singleton.
  - cbn [dict_set]. rewrite fmap_cons. intros [Hk Hd]%NoDup_cons.
    destruct (String.eqb_spec k0 k) as [->|N]; rewrite fmap_cons.
    + by apply NoDup_cons.
    + apply NoDup_cons. split; [|by apply IH].
      rewrite elem_of_dict_set_keys. intros [?|?]; done.
Qed.

Lemma elem_of_dict_set {V} k (v : V) d k' v' :
  (k', v') ∈ dict_set k v d -> (k' = k /\ v' = v) \/ (k', v') ∈ d.
Proof.
  induction d as [|[k0 v0] d IH]; simpl.
  - intros [= -> ->]%list_elem_of_singleton. by left.
  - destruct (String.eqb_spec k0 k) as [->|N].
    + intros [[= -> ->]|?]%elem_of_cons; [by left|]. right. by right.
    + intros [[= -> ->]|H]%elem_of_cons; [right; left|].
      destruct (IH H) as [?|?]; [by left|]. right. by right.
Qed.

Lemma folder_entries_nil e root dd : folder_entries e root dd = [] <-> dd_files dd = [].
Proof.
  unfold folder_entries. split.
  - intros H. apply (f_equal length) in H. rewrite length_map, length_sorted_by in H.
    by destruct (dd_files dd).
  - by intros ->.
Qed.

Lemma scan_docs_dir_eq e root acc dd :
  scan_docs_dir e root acc dd
  = if decide (dd_files dd = []) then acc
    else dict_set (dd_name dd) (folder_entries e root dd) acc.
Proof.
  unfold scan_docs_dir. fold (folder_entries e root dd).
  destruct (decide (dd_files dd = [])) as [H|H].
  - apply (folder_entries_nil e root) in H. by rewrite H.
  - destruct (folder_entries e root dd) eqn:E; [|done].
    by apply folder_entries_nil in E.
Qed.

Lemma scan_dirs_keys e root dds : forall acc k,
  k ∈ (foldl (scan_docs_dir e root) acc dds).*1
  <-> k ∈ acc.*1 \/ exists dd, dd ∈ dds /\ dd_name dd = k /\ dd_files dd <> [].
Proof.
  induction dds as [|dd dds IH]; intros acc k; simpl.
  - split; [by left|]. intros [?|(dd & ?%elem_of_nil & _)]; done.
  - rewrite IH, scan_docs_dir_eq. destruct (decide (dd_files dd = [])) as [H|H].
    + split; intros [?|(dd' & Hin & Hn & Hf)]; auto.
      * right. exists dd'. split; [by right|done].
      * apply elem_of_cons in Hin as [->|Hin]; [done|]. right. eauto.
    + rewrite elem_of_dict_set_keys. split.
      * intros [[->|?]|(dd' & Hin & Hn & Hf)]; auto.
        -- right. exists dd. split; [left|done].
        -- right. exists dd'. split; [by right|done].
      * intros [?|(dd' & Hin & Hn & Hf)]; auto.
        apply elem_of_cons in Hin as [->|Hin]; [by left; left|]. right. eauto.
Qed.

Lemma scan_dirs_nodup e root dds : forall acc,
  NoDup acc.*1 -> NoDup (foldl (scan_docs_dir e root) acc dds).*1.
Proof.
  induction dds as [|dd dds IH]; intros acc Hacc; simpl; [done|].
  apply IH. rewrite scan_docs_dir_eq. destruct (decide _); [done|].
  by apply dict_set_nodup.
Qed.

Lemma scan_dirs_nonempty e root dds : forall acc,
  (forall d es, (d, es) ∈ acc -> es <> []) ->
  forall d es, (d, es) ∈ foldl (scan_docs_dir e root) acc dds -> es <> [].
Proof.
  induction dds as [|dd dds IH]; intros acc Hacc; simpl; [done|].
  apply IH. intros d es. rewrite scan_docs_dir_eq.
  destruct (decide (dd_files dd = [])) as [H|H]; [apply Hacc|].
  intros [[-> ->]|?]%elem_of_dict_set; [|by eapply Hacc].
  by rewrite folder_entries_nil.
Qed.

(** The dossiers found are those with a Markdown file in their docs folder. *)
Lemma find_docs_keys e k :
  k ∈ (find_docs e).*1
  <-> exists root dirs dd,
        root ∈ DOSSIER_ROOTS /\ listing e root = Some dirs
        /\ dd ∈ dirs /\ dd_name dd = k /\ dd_files dd <> [].
Proof.
  unfold find_docs, DOSSIER_ROOTS. simpl. unfold scan_root.
  destruct (listing e "dossiers") as [dirs|] eqn:E.
  - rewrite scan_dirs_keys. split.
    + intros [?%elem_of_nil|(dd & Hin%elem_of_sorted_by & Hn & Hf)]; [done|].
      exists "dossiers", dirs, dd. repeat split; [left|done..].
    + intros (root & dirs' & dd & ->%list_elem_of_singleton & Hl & Hin & Hn & Hf).
      rewrite E in Hl. injection Hl as <-.
      right. exists dd. split; [by apply elem_of_sorted_by|done].
  - split; [by intros ?%elem_of_nil|].
    intros (root & dirs' & dd & ->%list_elem_of_singleton & Hl & _). congruence.
Qed.

Lemma find_docs_nodup e : NoDup (find_docs e).*1.
Proof.
  unfold find_docs, DOSSIER_ROOTS. simpl. unfold scan_root.
  destruct (listing e "dossiers"); [|constructor].
  apply scan_dirs_nodup. constructor.
Qed.

Lemma find_docs_nonempty e d es : (d, es) ∈ find_docs e -> es <> [].
Proof.
  unfold find_docs, DOSSIER_ROOTS. simpl. unfold scan_root.
  destruct (listing e "dossiers"); [|by intros ?%elem_of_nil].
  apply scan_dirs_nonempty. by intros ?? ?%elem_of_nil.
Qed.

Lemma dict_get_None {V} k (d : list (string * V)) : k ∉ d.*1 -> dict_get k d = None.
Proof.
  intros H. destruct (dict_get k d) as [v|] eqn:E; [|done].
  exfalso. apply H. apply dict_get_elem_of in E.
  apply list_elem_of_fmap. by exists (k, v).
Qed.

Lemma Forall2_with_elem_of {A B} (P : A -> B -> Prop) l k :
  Forall2 P l k -> Forall2 (fun x y => x ∈ l /\ P x y) l k.
Proof.
  induction 1 as [|x y l k Hxy Hlk IH]; constructor.
  - split; [left|done].
  - eapply Forall2_impl; [exact IH|]. simpl. intros a b [Ha Hab].
    split; [by right|done].
Qed.

(** C10: a collection whose docs folder holds no Markdown file is not in
    the result of the discovery: every collection found has a document;
    so it gets no code and no ids, it is not counted, and the index has a
    drawer for each collection found and no other. *)
Theorem find_docs_omits_empty (e : env) (name : string) :
  (forall root dirs dd,
      root ∈ DOSSIER_ROOTS -> listing e root = Some dirs -> dd ∈ dirs ->
      dd_name dd = name -> dd_files dd = []) ->
  let ds := assign_doc_ids (find_docs e) in
  (name ∉ (find_docs e).*1)
  /\ (forall d es, (d, es) ∈ find_docs e -> es <> [])
  /\ (name ∉ ds.*1)
  /\ dict_get name ds = None
  /\ (forall es, (name, es) ∉ ds)
  /\ (name ∉ sorted_names ds)
  /\ (forall hs, drawers_html ds = Done hs ->
        length hs = length (find_docs e)
        /\ Forall2 (fun dossier h => dossier <> name /\ exists entries,
                      (dossier, entries) ∈ ds
                      /\ drawer_html dossier entries = Done h)
                   (sorted_names ds) hs).
Proof.
  intros Hempty ds.
  assert (Hno : name ∉ (find_docs e).*1).
  { rewrite find_docs_keys. intros (root & dirs & dd & Hr & Hl & Hin & Hn & Hf).
    apply Hf. by eapply Hempty. }
  assert (Hno' : name ∉ ds.*1) by (unfold ds; by rewrite assign_doc_ids_keys).
  assert (Hsn : name ∉ sorted_names ds) by by rewrite sorted_names_perm.
  split; [done|]. split; [apply find_docs_nonempty|]. split; [done|].
  split; [by apply dict_get_None|].
  split.
  { intros es Hin. apply Hno'. apply list_elem_of_fmap. by exists (name, es). }
  split; [done|].
  intros hs Hhs. pose proof (drawers_html_Done _ _ Hhs) as Hall. split.
  - rewrite <- (Forall2_length _ _ _ Hall). unfold sorted_names.
    rewrite length_sorted_by, length_fmap. unfold ds, assign_doc_ids.
    by rewrite length_map.
  - eapply Forall2_impl.
    + apply Forall2_with_elem_of. exact Hall.
    + simpl. intros dossier h [Hin (entries & Hget & Hdr)]. split.
      * intros ->. done.
      * exists entries. split; [by apply dict_get_elem_of|done].
Qed.

Lemma find_docs_omits_empty_witness :
  "empty" ∉ (find_docs (Env "/r" true
                 (fun _ => Some [DocsDir "zeta" [MdFile ["a.md"] "# A"]; DocsDir "empty" []])
                 (fun _ => ProcResult 0 "" "") "2026-01-01T00:00:00Z")).*1.
Proof.
  apply (find_docs_omits_empty
           (Env "/r" true
                (fun _ => Some [DocsDir "zeta" [MdFile ["a.md"] "# A"]; DocsDir "empty" []])
                (fun _ => ProcResult 0 "" "") "2026-01-01T00:00:00Z") "empty").
  intros root dirs dd _ [= <-] Hin Hn.
  apply elem_of_cons in Hin as [->|Hin]; [discriminate Hn|].
  apply elem_of_cons in Hin as [->|Hin]; [reflexivity|].
  by apply elem_of_nil in Hin.
Defined.

Example find_docs_example :
  (find_docs (Env "/r" true
     (fun _ => Some [DocsDir "zeta" [MdFile ["a.md"] "# A"]; DocsDir "empty" []])
     (fun _ => ProcResult 0 "" "") "2026-01-01T00:00:00Z")).*1 = ["zeta"].
Proof. vm_compute. reflexivity. Qed.

(** ** The order of the scan does not matter *)

Lemma sorted_by_unique {A} (lt : A -> A -> bool) (l1 l2 : list A) :
  (forall a b, lt a b = true -> lt b a = false) ->
  (forall a b c, not_after lt a b -> not_after lt b c -> not_after lt a c) ->
  (forall a b, a ∈ l1 -> b ∈ l1 -> not_after lt a b -> not_after lt b a -> a = b) ->
  l1 ≡ₚ l2 -> sorted_by lt l1 = sorted_by lt l2.
Proof.
  intros Hasym Htrans Hanti Hperm.
  apply (StronglySorted_unique_strong (not_after lt)).
  - intros a b Ha%elem_of_sorted_by Hb%elem_of_sorted_by. apply Hanti; [done|].
    by rewrite Hperm.
  - by apply sorted_by_sorted.
  - by apply sorted_by_sorted.
  - by rewrite !sorted_by_perm.
Qed.

Lemma insert_by_Forall2 {A} (R : A -> A -> Prop) (lt : A -> A -> bool) x y l k :
  (forall a a' b b', R a a' -> R b b' -> lt a b = lt a' b') ->
  R x y -> Forall2 R l k -> Forall2 R (insert_by lt x l) (insert_by lt y k).
Proof.
  intros Hlt Hxy. induction 1 as [|a b l k Hab Hlk IH]; simpl.
  - by repeat constructor.
  - rewrite (Hlt a b x y) by done. destruct (lt b y); by repeat constructor.
Qed.

Lemma sorted_by_Forall2 {A} (R : A -> A -> Prop) (lt : A -> A -> bool) l k :
  (forall a a' b b', R a a' -> R b b' -> lt a b = lt a' b') ->
  Forall2 R l k -> Forall2 R (sorted_by lt l) (sorted_by lt k).
Proof.
  intros Hlt. induction 1 as [|a b l k Hab Hlk IH]; simpl; [constructor|].
  by apply insert_by_Forall2.
Qed.

Lemma ltb_asym a b : String.ltb a b = true -> String.ltb b a = false.
Proof. intros H%ltb_true_lt. apply ltb_false_le, H. Qed.

Lemma ltb_antisym a b : String.ltb a b = false -> String.ltb b a = false -> a = b.
Proof. rewrite !ltb_false_le. intros. by apply (anti_symm String.le). Qed.

Lemma ltb_not_after_trans a b c :
  not_after String.ltb a b -> not_after String.ltb b c -> not_after String.ltb a c.
Proof. unfold not_after. rewrite !ltb_false_le. intros. by etrans. Qed.

Lemma parts_ltb_asym p : forall q, parts_ltb p q = true -> parts_ltb q p = false.
Proof.
  induction p as [|a p IH]; intros [|b q]; simpl; try done.
  rewrite (String.eqb_sym b a). destruct (String.eqb_spec a b) as [->|N].
  - apply IH.
  - apply ltb_asym.
Qed.

Lemma parts_ltb_antisym p : forall q,
  parts_ltb p q = false -> parts_ltb q p = false -> p = q.
Proof.
  induction p as [|a p IH]; intros [|b q]; simpl; try done.
  rewrite (String.eqb_sym b a). destruct (String.eqb_spec a b) as [->|N].
  - intros H1 H2. f_equal. by apply IH.
  - intros H1 H2. exfalso. apply N. by apply ltb_antisym.
Qed.

Lemma parts_not_after_trans p : forall q r,
  parts_ltb q p = false -> parts_ltb r q = false -> parts_ltb r p = false.
Proof.
  induction p as [|a p IH]; intros [|b q] [|c r]; simpl; try done.
  destruct (String.eqb_spec b a) as [->|Nba].
  - destruct (String.eqb_spec c a) as [->|Nca]; [apply IH|done].
  - destruct (String.eqb_spec c b) as [->|Ncb].
    + destruct (String.eqb_spec b a); [done|]. done.
    + intros H1%ltb_false_le H2%ltb_false_le.
      destruct (String.eqb_spec c a) as [->|Nca].
      * exfalso. apply Nba. by apply (anti_symm String.le).
      * apply ltb_false_le. by etrans.
Qed.

Lemma sorted_files_unique (fs1 fs2 : list md_file) :
  NoDup (md_rel <$> fs1) -> fs1 ≡ₚ fs2 ->
  sorted_by (fun a b => parts_ltb (md_rel a) (md_rel b)) fs1
  = sorted_by (fun a b => parts_ltb (md_rel a) (md_rel b)) fs2.
Proof.
  intros Hnd. apply sorted_by_unique.
  - intros a b. apply parts_ltb_asym.
  - intros a b c. unfold not_after. apply parts_not_after_trans.
  - intros a b Ha Hb H1 H2. unfold not_after in *.
    assert (md_rel a = md_rel b) as Hrel by by apply parts_ltb_antisym.
    apply list_elem_of_lookup in Ha as [i Hi], Hb as [j Hj].
    assert (i = j) as ->; [|congruence].
    eapply NoDup_lookup; [exact Hnd| |]; rewrite list_lookup_fmap.
    + by rewrite Hi.
    + by rewrite Hj, Hrel.
Qed.

Lemma sorted_dirs_unique (d1 d2 : list docs_dir) :
  NoDup (dd_name <$> d1) -> d1 ≡ₚ d2 ->
  sorted_by (fun a b => String.ltb (dd_name a) (dd_name b)) d1
  = sorted_by (fun a b => String.ltb (dd_name a) (dd_name b)) d2.
Proof.
  intros Hnd. apply sorted_by_unique.
  - intros a b. apply ltb_asym.
  - intros a b c. apply ltb_not_after_trans.
  - intros a b Ha Hb H1 H2. unfold not_after in *.
    assert (dd_name a = dd_name b) as Hn by by apply ltb_antisym.
    apply list_elem_of_lookup in Ha as [i Hi], Hb as [j Hj].
    assert (i = j) as ->; [|congruence].
    eapply NoDup_lookup; [exact Hnd| |]; rewrite list_lookup_fmap.
    + by rewrite Hi.
    + by rewrite Hj, Hn.
Qed.

Lemma same_dir_scan e root acc a b :
  NoDup (md_rel <$> dd_files a) -> same_dir a b ->
  scan_docs_dir e root acc a = scan_docs_dir e root acc b.
Proof.
  intros Hnd [Hn Hf]. rewrite !scan_docs_dir_eq. unfold folder_entries.
  rewrite <- Hn, <- (sorted_files_unique _ _ Hnd Hf).
  destruct (decide (dd_files a = [])) as [Ha|Ha], (decide (dd_files b = [])) as [Hb|Hb];
    try done.
  - rewrite Ha in Hf. by apply Permutation_nil_l in Hf.
  - rewrite Hb in Hf. by apply Permutation_nil_r in Hf.
Qed.

Lemma same_dirs_scan e root d1 d2 : forall acc,
  Forall (fun dd => NoDup (md_rel <$> dd_files dd)) d1 ->
  Forall2 same_dir d1 d2 ->
  foldl (scan_docs_dir e root) acc d1 = foldl (scan_docs_dir e root) acc d2.
Proof.
  intros acc Hnd H. revert acc Hnd.
  induction H as [|a b d1 d2 Hab Hd IH]; intros acc Hnd; simpl; [done|].
  apply Forall_cons in Hnd as [Ha Hnd].
  rewrite (same_dir_scan e root acc a b Ha Hab). by apply IH.
Qed.

Lemma same_scan_root e listing2 acc root :
  distinct_paths (listing e root) ->
  same_scan (listing e root) (listing2 root) ->
  scan_root e acc root = scan_root (rescan e listing2) acc root.
Proof.
  unfold scan_root, distinct_paths, same_scan. simpl.
  destruct (listing e root) as [d1|], (listing2 root) as [d2|]; try done.
  intros [Hnames Hfiles] (d & Hperm & Hsame).
  rewrite <- (sorted_dirs_unique d d1); [|by rewrite Hperm|done].
  change (scan_docs_dir (rescan e listing2) root) with (scan_docs_dir e root).
  apply same_dirs_scan.
  - apply Forall_forall. intros dd Hdd%elem_of_sorted_by.
    rewrite Hperm in Hdd. by eapply Forall_forall in Hfiles.
  - apply sorted_by_Forall2; [|done].
    intros a a' b b' [Ha _] [Hb _]. by rewrite Ha, Hb.
Qed.

(** Two scans of the same tree find the same documents. *)
Lemma find_docs_rescan e listing2 :
  (forall root, root ∈ DOSSIER_ROOTS ->
     distinct_paths (listing e root) /\ same_scan (listing e root) (listing2 root)) ->
  find_docs (rescan e listing2) = find_docs e.
Proof.
  intros H. unfold find_docs, DOSSIER_ROOTS in *. simpl.
  destruct (H "dossiers") as [H1 H2]; [left|].
  symmetry. by apply same_scan_root.
Qed.

(** ** What a run leaves of the cabinet before it renders *)

Lemma lookup_clean_tree w p :
  cabinet_tree (fs w) ->
  fs (clean_generated w).2 !! p
  = match p with
    | [name] => FFile <$> top_file (fs w) name
    | _ => None
    end.
Proof.
  intros (Hroot & Hdeep & Hname). rewrite lookup_clean_generated.
  destruct p as [|name [|x rest]]; simpl.
  - done.
  - unfold top_file. destruct (fs w !! [name]) as [[c|]|] eqn:E; simpl; try done.
    by rewrite (Hname name).
  - destruct (bool_decide (fs w !! [name] = Some FDir) && _) eqn:E; [done|].
    destruct (fs w !! (name :: x :: rest)) as [y|] eqn:Ey; [|done].
    apply Hdeep in Ey. rewrite bool_decide_eq_true_2, (Hname name) in E; done.
Qed.

Lemma sim_after_clean w1 w2 line :
  cabinet_tree (fs w1) -> cabinet_tree (fs w2) ->
  (forall name, name <> "index.html" -> top_file (fs w1) name = top_file (fs w2) name) ->
  stdout w1 = stdout w2 -> stderr w1 = stderr w2 -> spawned w1 = spawned w2 ->
  sim (World (fs (clean_generated w1).2) (stdout w1 ++ [line]) (stderr w1) (spawned w1))
      (World (fs (clean_generated w2).2) (stdout w2 ++ [line]) (stderr w2) (spawned w2)).
Proof.
  intros H1 H2 Htop Ho He Hs. unfold sim. simpl.
  split; [by rewrite Ho|]. split; [done|]. split; [done|].
  split.
  - intros p Hp. rewrite !lookup_clean_tree by done.
    destruct p as [|name [|x rest]]; try done.
    rewrite Htop; [done|]. intros ->. done.
  - split; rewrite lookup_clean_tree by done; by destruct (top_file _ _).
Qed.

(** ** Computations that do not depend on the old index page *)

Lemma sim_refl_fs w1 w2 m1 m2 :
  sim w1 w2 ->
  (forall p, p <> ["index.html"] -> m1 !! p = m2 !! p) ->
  m1 !! ["index.html"] = fs w1 !! ["index.html"] ->
  m2 !! ["index.html"] = fs w2 !! ["index.html"] ->
  sim (set_fs m1 w1) (set_fs m2 w2).
Proof.
  intros (Ho & He & Hs & Hfs & Hi1 & Hi2) Hm H1 H2. unfold sim. simpl.
  rewrite H1, H2. done.
Qed.

Lemma respects_ret {A} (a : A) : respects (ret a).
Proof. by intros w1 w2 H. Qed.

Lemma respects_lift {A} (o : outcome A) : respects (lift o).
Proof. by intros w1 w2 H. Qed.

Lemma respects_sys_exit {A} n : respects (@sys_exit A n).
Proof. by intros w1 w2 H. Qed.

Lemma respects_print line : respects (print line).
Proof.
  intros w1 w2 (Ho & He & Hs & Hfs & Hi1 & Hi2). split; [done|].
  unfold sim. simpl. by rewrite Ho.
Qed.

Lemma respects_eprint line : respects (eprint line).
Proof.
  intros w1 w2 (Ho & He & Hs & Hfs & Hi1 & Hi2). split; [done|].
  unfold sim. simpl. by rewrite He.
Qed.

Lemma respects_subprocess_run e cmd : respects (subprocess_run e cmd).
Proof.
  intros w1 w2 (Ho & He & Hs & Hfs & Hi1 & Hi2). split; [done|].
  unfold sim. simpl. by rewrite Hs.
Qed.

Lemma respects_bind {A B} (m : M A) (k : A -> M B) :
  respects m -> (forall a, respects (k a)) -> respects (bind m k).
Proof.
  intros Hm Hk w1 w2 Hsim. unfold bind.
  destruct (Hm w1 w2 Hsim) as [Ho Hw].
  destruct (m w1) as [o1 w1'], (m w2) as [o2 w2']. simpl in *. subst o2.
  destruct o1; [by apply Hk|done..].
Qed.

Lemma respects_for_each {A} (l : list A) body :
  (forall x, x ∈ l -> respects (body x)) -> respects (for_each l body).
Proof.
  induction l as [|x l IH]; intros H; simpl; [apply respects_ret|].
  apply respects_bind; [apply H; left|]. intros _. apply IH.
  intros y Hy. apply H. by right.
Qed.

Lemma file_at_sim w1 w2 p :
  sim w1 w2 -> p <> ["index.html"] -> file_at (fs w1) p = file_at (fs w2) p.
Proof. intros (_ & _ & _ & Hfs & _) Hp. unfold file_at. by rewrite Hfs. Qed.

Lemma dir_at_sim w1 w2 p : sim w1 w2 -> dir_at (fs w1) p = dir_at (fs w2) p.
Proof.
  intros (_ & _ & _ & Hfs & Hi1 & Hi2). destruct p as [|x p]; [done|]. simpl.
  destruct (decide (x :: p = ["index.html"])) as [->|N].
  - by rewrite !bool_decide_eq_false_2.
  - by rewrite Hfs.
Qed.

Lemma ancestors_head d parts q : q ∈ ancestors (d :: parts) -> exists r, q = d :: r.
Proof.
  unfold ancestors. intros (n & -> & Hn)%list_elem_of_fmap.
  apply elem_of_seq in Hn. destruct n as [|n]; [lia|]. simpl. eauto.
Qed.

Lemma respects_mkdir_p d parts : d <> "index.html" -> respects (mkdir_p (d :: parts)).
Proof.
  intros Hd w1 w2 Hsim. unfold mkdir_p.
  assert (Hq : forall q, q ∈ ancestors (d :: parts) -> q <> ["index.html"]).
  { intros q [r ->]%ancestors_head. congruence. }
  assert (Hq' : forall q, q ∈ ancestors (parent (d :: parts)) -> q <> ["index.html"]).
  { unfold parent. destruct parts as [|x parts]; [by intros q ?%elem_of_nil|].
    cbn [removelast]. intros q [r ->]%ancestors_head. congruence. }
  rewrite (existsb_ext_in (file_at (fs w1)) (file_at (fs w2)) (ancestors (d :: parts))).
  2: { intros q Hin. apply file_at_sim; auto. }
  rewrite (existsb_ext_in (file_at (fs w1)) (file_at (fs w2))
             (ancestors (parent (d :: parts)))).
  2: { intros q Hin. apply file_at_sim; auto. }
  destruct (existsb _ (ancestors (d :: parts))); [done|]. split; [done|]. cbn [snd].
  apply sim_refl_fs; [done|..].
  - intros p Hp. rewrite !lookup_mkdirs.
    destruct (bool_decide _); [done|]. by apply Hsim.
  - rewrite lookup_mkdirs. rewrite bool_decide_eq_false_2; [done|].
    intros Hin. by apply Hq in Hin.
  - rewrite lookup_mkdirs. rewrite bool_decide_eq_false_2; [done|].
    intros Hin. by apply Hq in Hin.
Qed.

Lemma respects_write_text p content :
  p <> ["index.html"] -> respects (write_text p content).
Proof.
  intros Hp w1 w2 Hsim. unfold write_text.
  rewrite (dir_at_sim w1 w2 (parent p)), (dir_at_sim w1 w2 p) by done.
  destruct (_ && _); [|done]. split; [done|]. cbn [snd].
  apply sim_refl_fs; [done|..].
  - intros q Hq. destruct (decide (p = q)) as [->|N].
    + by rewrite !lookup_insert_eq.
    + rewrite !lookup_insert_ne by done. by apply Hsim.
  - by rewrite lookup_insert_ne.
  - by rewrite lookup_insert_ne.
Qed.

Lemma respects_render_doc e en dossier built_at :
  dossier <> "index.html" -> respects (render_doc e en dossier built_at).
Proof.
  intros Hd. unfold render_doc, output_dir_for.
  apply respects_bind; [by apply respects_mkdir_p|]. intros _.
  apply respects_bind; [apply respects_lift|]. intros source_path.
  apply respects_bind; [apply respects_lift|]. intros doc_id.
  apply respects_bind; [apply respects_subprocess_run|]. intros result.
  destruct (negb _).
  - apply respects_bind; [apply respects_eprint|]. intros _. apply respects_sys_exit.
  - apply respects_bind; [|intros _; apply respects_print].
    apply respects_write_text. intros [= ? H]. by destruct (path_parts (e_slug en)).
Qed.

Lemma respects_render_all e ds built_at :
  "index.html" ∉ ds.*1 -> respects (render_all e ds built_at).
Proof.
  intros Hno. unfold render_all. apply respects_for_each.
  intros [dossier entries] Hin.
  apply respects_bind; [apply respects_print|]. intros _.
  apply respects_for_each. intros en _. apply respects_render_doc.
  intros ->. apply Hno. unfold sorted_items in Hin. apply elem_of_sorted_by in Hin.
  apply list_elem_of_fmap. by exists ("index.html", entries).
Qed.

(** The index page is written anew: after it the files are the same. *)
Lemma build_index_sim ds w1 w2 :
  sim w1 w2 ->
  (build_index ds w1).1 = (build_index ds w2).1
  /\ stdout (build_index ds w1).2 = stdout (build_index ds w2).2
  /\ stderr (build_index ds w1).2 = stderr (build_index ds w2).2
  /\ spawned (build_index ds w1).2 = spawned (build_index ds w2).2
  /\ ((build_index ds w1).1 = Done tt ->
      fs (build_index ds w1).2 = fs (build_index ds w2).2).
Proof.
  intros Hsim. pose proof Hsim as (Ho & He & Hs & Hfs & Hi1 & Hi2).
  unfold build_index, bind, read_text, lift, write_text, print.
  rewrite <- (Hfs INDEX_TEMPLATE) by done.
  destruct (fs w1 !! INDEX_TEMPLATE) as [[template|]|]; simpl; try done.
  destruct (drawers_html ds) as [hs| |]; simpl; try done.
  rewrite !bool_decide_eq_false_2 by done. simpl.
  rewrite Ho, He, Hs. repeat split; try done. intros _.
  apply map_eq. intros p. destruct (decide (p = ["index.html"])) as [->|N].
  - by rewrite !lookup_insert_eq.
  - rewrite !lookup_insert_ne by done. by apply Hfs.
Qed.

(** ** Two runs on the same tree *)

Lemma file_at_top_file m1 m2 name :
  top_file m1 name = top_file m2 name -> file_at m1 [name] = file_at m2 [name].
Proof.
  unfold top_file, file_at.
  destruct (m1 !! [name]) as [[]|], (m2 !! [name]) as [[]|]; done.
Qed.

Lemma render_all_rescan e listing2 ds built_at :
  render_all (rescan e listing2) ds built_at = render_all e ds built_at.
Proof. reflexivity. Qed.

(** The part of [main] after the cleanup, on two states that differ at
    most in the old index page. *)
Lemma render_and_index_sim e ds built_at w1 w2 :
  "index.html" ∉ ds.*1 -> sim w1 w2 ->
  let rest := render_all e ds built_at ;; build_index ds ;; print "Done." in
  (rest w1).1 = (rest w2).1
  /\ stdout (rest w1).2 = stdout (rest w2).2
  /\ stderr (rest w1).2 = stderr (rest w2).2
  /\ spawned (rest w1).2 = spawned (rest w2).2
  /\ ((rest w1).1 = Done tt -> fs (rest w1).2 = fs (rest w2).2).
Proof.
  intros Hno Hsim rest. subst rest. unfold bind.
  destruct (respects_render_all e ds built_at Hno w1 w2 Hsim) as [Ho Hsim'].
  destruct (render_all e ds built_at w1) as [o1 w1'],
           (render_all e ds built_at w2) as [o2 w2']. simpl in Ho, Hsim'. subst o2.
  destruct o1 as [[]|n|x]; simpl.
  2,3: destruct Hsim' as (? & ? & ? & _); repeat split; done.
  destruct (build_index_sim ds w1' w2' Hsim') as (Ho & H1 & H2 & H3 & H4).
  destruct (build_index ds w1') as [o1 w1''], (build_index ds w2') as [o2 w2''].
  simpl in *. subst o2.
  destruct o1 as [[]|n|x]; simpl; repeat split; try done.
  by rewrite H1.
Qed.

(** C9: two runs with the same converter and the same build time, on the
    same dossier tree, whatever the order in which the directories are
    scanned, and on cabinets that hold the same files directly in the
    cabinet directory apart from the old index page, whatever was
    generated before, end alike: the same outcome, the same lines on both
    streams, the same converter calls, and after a run that succeeds the
    same files in the cabinet. *)
Theorem main_deterministic (e : env) (listing2 : string -> option (list docs_dir))
    (w1 w2 : world) :
  (forall root, root ∈ DOSSIER_ROOTS ->
     distinct_paths (listing e root) /\ same_scan (listing e root) (listing2 root)) ->
  "index.html" ∉ (find_docs e).*1 ->
  cabinet_tree (fs w1) -> cabinet_tree (fs w2) ->
  (forall name, name <> "index.html" -> top_file (fs w1) name = top_file (fs w2) name) ->
  stdout w1 = stdout w2 -> stderr w1 = stderr w2 -> spawned w1 = spawned w2 ->
  let r1 := main e w1 in
  let r2 := main (rescan e listing2) w2 in
  r1.1 = r2.1
  /\ stdout r1.2 = stdout r2.2
  /\ stderr r1.2 = stderr r2.2
  /\ spawned r1.2 = spawned r2.2
  /\ (r1.1 = Done tt -> fs r1.2 = fs r2.2).
Proof.
  intros Hscan Hno Ht1 Ht2 Htop Hout Herr Hsp r1 r2. subst r1 r2.
  pose proof (find_docs_rescan e listing2 Hscan) as Hfd.
  assert (Htpl : file_at (fs w1) TEMPLATE = file_at (fs w2) TEMPLATE).
  { apply file_at_top_file, Htop. done. }
  destruct (which_pandoc e) eqn:Ew.
  2: { destruct (main_exits_early e w1) as (m1 & -> & Hm1 & _); [by left|].
       destruct (main_exits_early (rescan e listing2) w2) as (m2 & -> & Hm2 & _);
         [by left|].
       simpl. rewrite Hm1, Hm2 by done. rewrite Hout, Herr, Hsp. done. }
  destruct (file_at (fs w1) TEMPLATE) eqn:Et.
  2: { destruct (main_exits_early e w1) as (m1 & -> & _ & Hm1 & _); [by right; left|].
       destruct (main_exits_early (rescan e listing2) w2) as (m2 & -> & _ & Hm2 & _);
         [by right; left|].
       simpl. rewrite Hm1, Hm2 by done. rewrite Hout, Herr, Hsp. done. }
  destruct (decide (find_docs e = [])) as [Hd|Hd].
  { destruct (main_exits_early e w1) as (m1 & -> & _ & _ & Hm1); [by right; right|].
    destruct (main_exits_early (rescan e listing2) w2) as (m2 & -> & _ & _ & Hm2).
    { right; right. by rewrite Hfd. }
    simpl. rewrite Hm1, Hm2 by done. rewrite Hout, Herr, Hsp. done. }
  rewrite (main_run e w1) by done.
  rewrite (main_run (rescan e listing2) w2); [|done|done|by rewrite Hfd].
  rewrite Hfd, render_all_rescan. cbn [now_utc rescan].
  apply render_and_index_sim.
  - by rewrite assign_doc_ids_keys.
  - by apply sim_after_clean.
Qed.

Lemma main_deterministic_witness :
  fs (main (Env "/r" true
              (fun _ => Some [DocsDir "zeta" [MdFile ["b.md"] "# B"; MdFile ["a.md"] "# A"];
                              DocsDir "alpha" [MdFile ["x.md"] "# X"]])
              (fun cmd => ProcResult 0 (join " " cmd) "") "2026-01-01T00:00:00Z")
           (World (<[TEMPLATE := FFile "t"]>
                     (<[INDEX_TEMPLATE := FFile "<!-- DRAWERS -->"]>
                        (<[["old"] := FDir]> (<[["old"; "x"] := FFile "y"]> ∅))))
                  [] [] [])).2
  = fs (main (rescan
                (Env "/r" true
                   (fun _ => Some [DocsDir "zeta" [MdFile ["b.md"] "# B"; MdFile ["a.md"] "# A"];
                                   DocsDir "alpha" [MdFile ["x.md"] "# X"]])
                   (fun cmd => ProcResult 0 (join " " cmd) "") "2026-01-01T00:00:00Z")
                (fun _ => Some [DocsDir "alpha" [MdFile ["x.md"] "# X"];
                                DocsDir "zeta" [MdFile ["a.md"] "# A"; MdFile ["b.md"] "# B"]]))
             (World (<[TEMPLATE := FFile "t"]>
                       (<[INDEX_TEMPLATE := FFile "<!-- DRAWERS -->"]>
                          (<[["index.html"] := FFile "stale"]> ∅)))
                    [] [] [])).2.
Proof.
  apply main_deterministic; try reflexivity.
  - intros root _. split.
    + split; [by apply (bool_decide_unpack _)|].
      repeat constructor; by apply (bool_decide_unpack _).
    + exists [DocsDir "alpha" [MdFile ["x.md"] "# X"];
              DocsDir "zeta" [MdFile ["b.md"] "# B"; MdFile ["a.md"] "# A"]].
      split; [apply perm_swap|].
      repeat constructor.
  - by apply (bool_decide_unpack _).
  - split; [reflexivity|]. split.
    + intros name x rest y H. cbn [fs] in H.
      repeat (apply lookup_insert_Some in H as [[Heq Hv]|[_ H]];
              [try discriminate Heq; try discriminate Hv|]).
      * injection Heq as <- <- <-. reflexivity.
      * by rewrite lookup_empty in H.
    + intros name H. cbn [fs] in H.
      repeat (apply lookup_insert_Some in H as [[Heq Hv]|[_ H]];
              [try discriminate Heq; try discriminate Hv|]).
      * injection Heq as <-. reflexivity.
      * by rewrite lookup_empty in H.
  - split; [reflexivity|]. split.
    + intros name x rest y H. cbn [fs] in H.
      repeat (apply lookup_insert_Some in H as [[Heq Hv]|[_ H]];
              [try discriminate Heq; try discriminate Hv|]).
      by rewrite lookup_empty in H.
    + intros name H. cbn [fs] in H.
      repeat (apply lookup_insert_Some in H as [[Heq Hv]|[_ H]];
              [try discriminate Heq; try discriminate Hv|]).
      by rewrite lookup_empty in H.
  - intros name Hn. unfold top_file. cbn [fs].
    destruct (decide (name = "cabinet-template.html")) as [->|N1]; [reflexivity|].
    destruct (decide (name = "index-template.html")) as [->|N2]; [reflexivity|].
    destruct (decide (name = "old")) as [->|N3]; [reflexivity|].
    rewrite !lookup_insert_ne
      by (unfold TEMPLATE, INDEX_TEMPLATE; intros [=]; congruence).
    reflexivity.
Defined.

(** * Further properties *)

(** ** Paths and their parts *)

Lemma split_go_no_slash t : forall cur s,
  no_slash t -> split_go "/" cur (t +:+ s) = split_go "/" (cur +:+ t) s.
Proof.
  unfold no_slash. induction t as [|c t IH]; intros cur s H.
  - by rewrite str_app_nil_l, str_app_nil_r.
  - cbn [all_chars] in H. apply andb_prop in H as [Hc Ht].
    rewrite str_app_cons. cbn [split_go].
    destruct (ascii_dec c "/"); [done|].
    rewrite IH by done. by rewrite str_app_assoc.
Qed.

Lemma split_go_slash cur s :
  split_go "/" cur ("/" +:+ s) = cur :: split_go "/" "" s.
Proof. reflexivity. Qed.

Lemma split_go_end s : forall cur,
  split_go "/" cur (s +:+ "/") = split_go "/" cur s ++ [""].
Proof.
  induction s as [|c s IH]; intros cur; [reflexivity|].
  rewrite str_app_cons. cbn [split_go].
  destruct (ascii_dec c "/"); [|apply IH]. by rewrite IH.
Qed.

Lemma split_join parts :
  parts <> [] -> Forall no_slash parts -> split_go "/" "" (join "/" parts) = parts.
Proof.
  induction parts as [|p parts IH]; [done|]. intros _ Hall.
  apply Forall_cons in Hall as [Hp Hparts].
  destruct parts as [|q parts].
  - simpl. rewrite <- (str_app_nil_r p) at 1.
    rewrite split_go_no_slash by done. reflexivity.
  - rewrite join_cons by done. rewrite split_go_no_slash by done.
    rewrite split_go_slash, str_app_nil_l. f_equal. by apply IH.
Qed.

Lemma path_parts_join parts :
  Forall ordinary_name parts -> path_parts (join "/" parts) = parts.
Proof.
  intros Hall. unfold path_parts. destruct parts as [|p parts]; [reflexivity|].
  rewrite split_join; [|done|].
  - induction Hall as [|q qs [H1 [H2 _]] _ IH]; [done|].
    rewrite filter_cons_True by done. by rewrite IH.
  - eapply Forall_impl; [exact Hall|]. by intros q (_ & _ & ?).
Qed.

Lemma ordinary_kept p : ordinary_name p -> p <> "" /\ p <> ".".
Proof. by intros (? & ? & _). Qed.

(** X1: the href of a link in the index names the directory in which
    [render_doc] writes the page of the document: its parts are the parts
    of the output directory, whatever the slug is. *)
Theorem href_parts_output_dir (dossier slug : string) :
  ordinary_name dossier ->
  path_parts (dossier +:+ "/" +:+ slug +:+ "/") = output_dir_for dossier slug.
Proof.
  intros Hd. unfold output_dir_for, path_parts.
  rewrite split_go_no_slash by apply Hd.
  rewrite split_go_slash, str_app_nil_l, split_go_end.
  rewrite filter_cons_True by by apply ordinary_kept.
  rewrite filter_app. rewrite (filter_cons_False _ ""); [|by intros [? _]].
  by rewrite filter_nil, app_nil_r.
Qed.

Lemma href_parts_output_dir_witness :
  path_parts ("zeta" +:+ "/" +:+ "core/a" +:+ "/") = output_dir_for "zeta" "core/a".
Proof.
  apply href_parts_output_dir. split; [done|split; [done|reflexivity]].
Defined.

(** ** The entries that the discovery makes *)

Lemma with_suffix_empty_snoc dirs name :
  with_suffix_empty (dirs ++ [name]) = dirs ++ [stem name].
Proof.
  induction dirs as [|d dirs IH]; [reflexivity|].
  cbn [app with_suffix_empty]. rewrite IH.
  by destruct dirs.
Qed.

Lemma file_name_snoc dirs name : file_name (dirs ++ [name]) = name.
Proof. unfold file_name. apply List.last_last. Qed.

Lemma category_snoc dirs (name : string) :
  match dirs ++ [name] with c :: _ :: _ => c | _ => "" end = hd "" dirs.
Proof. destruct dirs as [|c [|d dirs]]; reflexivity. Qed.

Lemma starts_with_app a b : starts_with a (a +:+ b) = true.
Proof. apply starts_with_spec. by exists b. Qed.

Lemma drop_string_app a b : drop_string (String.length a) (a +:+ b) = b.
Proof. induction a as [|c a IH]; [by destruct b|]. rewrite str_app_cons. exact IH. Qed.

Lemma relative_to_repo_under e rest :
  relative_to_repo e (repo_root e +:+ "/" +:+ rest) = Done rest.
Proof.
  unfold relative_to_repo. rewrite <- str_app_assoc, starts_with_app.
  replace (String.length (repo_root e) + 1)%nat
    with (String.length (repo_root e +:+ "/")) by (rewrite str_length_app; reflexivity).
  by rewrite drop_string_app.
Qed.

Lemma make_entry_slug e root dossier dirs x text :
  x <> "" ->
  e_slug (make_entry e root dossier (MdFile (dirs ++ [x +:+ ".md"]) text))
  = join "/" (dirs ++ [x]).
Proof.
  intros Hx. cbn [make_entry e_slug md_rel].
  by rewrite with_suffix_empty_snoc, stem_md.
Qed.

Lemma ordinary_last dirs x : Forall ordinary_name (dirs ++ [x]) -> x <> "".
Proof.
  intros H. eapply Forall_forall in H as [? _]; [done|].
  apply elem_of_app. right. left.
Qed.

(** X2: the entry of a Markdown file with ordinary names: the slug is the path
    without the extension, its parts are the directories of the page below
    the dossier directory, the category is the first directory if there is
    one, no id is set yet, and the path that [render_doc] passes to the
    converter as the source path is the path below the repository root. *)
Theorem make_entry_layout (e : env) (root dossier : string) (dirs : list string)
    (x text : string) :
  Forall ordinary_name (dirs ++ [x]) ->
  let en := make_entry e root dossier (MdFile (dirs ++ [x +:+ ".md"]) text) in
  e_slug en = join "/" (dirs ++ [x])
  /\ path_parts (e_slug en) = dirs ++ [x]
  /\ output_dir_for dossier (e_slug en) = dossier :: dirs ++ [x]
  /\ (2 + length (path_parts (e_slug en)) = 3 + length dirs)%nat
  /\ e_category en = hd "" dirs
  /\ e_title en = extract_title text (x +:+ ".md")
  /\ e_doc_id en = None
  /\ relative_to_repo e (e_path en)
     = Done (root +:+ "/" +:+ dossier +:+ "/docs/" +:+ join "/" (dirs ++ [x +:+ ".md"])).
Proof.
  intros Hall en.
  assert (x <> "") as Hx by by eapply ordinary_last.
  assert (Hslug : e_slug en = join "/" (dirs ++ [x])) by by apply make_entry_slug.
  assert (Hparts : path_parts (e_slug en) = dirs ++ [x]).
  { rewrite Hslug. by apply path_parts_join. }
  split; [done|]. split; [done|].
  split; [unfold output_dir_for; by rewrite Hparts|].
  split; [rewrite Hparts, length_app; simpl; lia|].
  split; [apply category_snoc|].
  split; [subst en; cbn [make_entry e_title md_rel md_text]; by rewrite file_name_snoc|].
  split; [done|].
  apply relative_to_repo_under.
Qed.

Lemma make_entry_layout_witness :
  e_slug (make_entry (Env "/r" true (fun _ => None) (fun _ => ProcResult 0 "" "") "t")
            "dossiers" "zeta" (MdFile (["core"] ++ ["a" +:+ ".md"]) "# A"))
  = "core/a".
Proof.
  refine (proj1 (make_entry_layout
    (Env "/r" true (fun _ => None) (fun _ => ProcResult 0 "" "") "t")
    "dossiers" "zeta" ["core"] "a" "# A" _)).
  repeat constructor; done.
Defined.

Lemma plain_ordinary (l : list string) : Forall plain_name l -> Forall ordinary_name l.
Proof. intros H. eapply Forall_impl; [exact H|]. by intros x [? _]. Qed.

(** X3: within a dossier two different Markdown files, whose directory names
    and stems are plain names, have different slugs, different output
    directories and different pages. *)
Theorem slug_unique (e : env) (root dossier : string) (dirs1 dirs2 : list string)
    (x1 x2 text1 text2 : string) :
  Forall plain_name (dirs1 ++ [x1]) ->
  Forall plain_name (dirs2 ++ [x2]) ->
  dirs1 ++ [x1 +:+ ".md"] <> dirs2 ++ [x2 +:+ ".md"] ->
  let en1 := make_entry e root dossier (MdFile (dirs1 ++ [x1 +:+ ".md"]) text1) in
  let en2 := make_entry e root dossier (MdFile (dirs2 ++ [x2 +:+ ".md"]) text2) in
  e_slug en1 <> e_slug en2
  /\ output_dir_for dossier (e_slug en1) <> output_dir_for dossier (e_slug en2)
  /\ page_of dossier en1 <> page_of dossier en2.
Proof.
  intros H1%plain_ordinary H2%plain_ordinary Hne en1 en2.
  assert (x1 <> "") as Hx1 by by eapply ordinary_last.
  assert (x2 <> "") as Hx2 by by eapply ordinary_last.
  assert (path_parts (e_slug en1) <> path_parts (e_slug en2)) as Hp.
  { subst en1 en2. rewrite !make_entry_slug by done.
    rewrite !path_parts_join by done.
    intros [-> ->]%app_inj_tail. done. }
  split; [by intros Heq; apply Hp; rewrite Heq|].
  split.
  - unfold output_dir_for. intros [= Heq]. done.
  - unfold page_of, output_dir_for. intros [= Heq].
    by apply app_inv_tail in Heq.
Qed.

Lemma slug_unique_witness :
  output_dir_for "zeta" "a/x" <> output_dir_for "zeta" "b/x".
Proof.
  refine (proj1 (proj2 (slug_unique
            (Env "/r" true (fun _ => None) (fun _ => ProcResult 0 "" "") "t")
            "dossiers" "zeta" ["a"] ["b"] "x" "x" "# A" "# B" _ _ _))).
  - repeat constructor; done.
  - repeat constructor; done.
  - done.
Defined.

(** ** The shape of a dossier code *)

Lemma dossier_code_unfold name :
  dossier_code name
  = match DOSSIER_CODES !! name with
    | Some c => c
    | None =>
        if has_alnum name
        then upper (initials (take 3 (alnum_words name)))
        else upper (take_string 2 name)
    end.
Proof.
  unfold dossier_code. destruct (DOSSIER_CODES !! name); [reflexivity|].
  unfold re_split. rewrite re_split_words by done.
  change (started "") with (@None string).
  fold (alnum_words name). fold (initials (take 3 (alnum_words name))).
  destruct (has_alnum name) eqn:E.
  - unfold upper at 1. rewrite nonempty_map_string, initials_nonempty; [reflexivity| |].
    + unfold alnum_words. destruct (alnum_words_go None name) eqn:E'; [|done].
      apply alnum_words_nil in E'. congruence.
    + intros w Hw%elem_of_take. destruct Hw as (i & Hw & _).
      apply list_elem_of_lookup_2 in Hw.
      eapply alnum_words_go_nonempty; [|exact Hw]. done.
  - apply alnum_words_nil in E. unfold alnum_words. rewrite E. reflexivity.
Qed.

Lemma alnum_words_go_alnum s : forall cur w,
  (forall c, cur = Some c -> all_chars is_alnum c = true) ->
  w ∈ alnum_words_go cur s -> all_chars is_alnum w = true.
Proof.
  induction s as [|c s IH]; intros cur w Hcur; simpl.
  - destruct cur; simpl; [|by intros ?%elem_of_nil].
    intros ->%list_elem_of_singleton. by apply Hcur.
  - destruct (is_alnum c) eqn:Ec.
    + apply IH. intros c' [= <-]. rewrite all_chars_app. simpl. rewrite Ec.
      destruct cur as [c0|]; simpl; [|done]. by rewrite (Hcur c0).
    + rewrite elem_of_app. intros [Hw|Hw].
      * destruct cur; simpl in Hw; [|by apply elem_of_nil in Hw].
        apply list_elem_of_singleton in Hw as ->. by apply Hcur.
      * eapply IH; [|exact Hw]. done.
Qed.

Lemma upper_char_code c : is_alnum c = true -> is_code_char (upper_char c) = true.
Proof. destruct c as [[] [] [] [] [] [] [] []]; vm_compute; done. Qed.

Lemma initials_shape ws :
  (forall w, w ∈ ws -> nonempty w = true /\ all_chars is_alnum w = true) ->
  String.length (upper (initials ws)) = length ws
  /\ all_chars is_code_char (upper (initials ws)) = true.
Proof.
  unfold initials. induction ws as [|w ws IH]; intros H; [done|].
  destruct (H w) as [Hn Ha]; [left|].
  destruct IH as [IH1 IH2]; [intros v Hv; apply H; by right|].
  destruct w as [|c w]; [done|]. cbn [all_chars] in Ha. apply andb_prop in Ha as [Hc _].
  assert (join "" (map first_char (String c w :: ws))
          = String c (join "" (map first_char ws))) as ->.
  { cbn [map first_char take_string]. destruct (map first_char ws); reflexivity. }
  unfold upper in *. cbn [map_string String.length all_chars length].
  rewrite IH1, IH2, upper_char_code by done. done.
Qed.

Lemma length_take_string n s : (String.length (take_string n s) <= n)%nat.
Proof.
  revert s. induction n as [|n IH]; intros [|c s]; simpl; try lia.
  specialize (IH s). lia.
Qed.

Lemma length_map_string f s : String.length (map_string f s) = String.length s.
Proof. induction s as [|c s IH]; simpl; [done|]. by rewrite IH. Qed.

Lemma has_alnum_nonempty s : has_alnum s = true -> s <> "".
Proof. by destruct s. Qed.

(** X4: the code of a dossier whose name is of the ASCII range has at most
    three characters; for a name with an alphanumeric character it has at
    least one, and each is an upper-case letter or a digit; it is empty
    only for the empty name. *)
Theorem dossier_code_shape (name : string) :
  ascii_text name ->
  (String.length (dossier_code name) <= 3)%nat
  /\ (has_alnum name = true ->
        (1 <= String.length (dossier_code name))%nat
        /\ all_chars is_code_char (dossier_code name) = true)
  /\ (dossier_code name = "" <-> name = "").
Proof.
  intros _.
  rewrite dossier_code_unfold.
  destruct (DOSSIER_CODES !! name) as [c|] eqn:Et.
  { assert (c = "WS" /\ name = "wonton-soup" \/ c = "LS" /\ name = "lenia-swarm")
      as [[-> ->]|[-> ->]].
    { unfold DOSSIER_CODES in Et.
      apply lookup_insert_Some in Et as [[<- <-]|[_ Et]]; [by left|].
      apply lookup_insert_Some in Et as [[<- <-]|[_ Et]]; [by right|].
      by rewrite lookup_empty in Et. }
    all: repeat split; simpl; try lia; try done. }
  assert (Hw : forall w, w ∈ take 3 (alnum_words name) ->
                 nonempty w = true /\ all_chars is_alnum w = true).
  { intros w (i & Hw%list_elem_of_lookup_2 & _)%elem_of_take. split.
    - eapply alnum_words_go_nonempty; [|exact Hw]. done.
    - eapply alnum_words_go_alnum; [|exact Hw]. done. }
  destruct (has_alnum name) eqn:E.
  - destruct (initials_shape _ Hw) as [Hlen Hall]. rewrite Hlen, length_take.
    assert (alnum_words name <> []) as Hne.
    { unfold alnum_words. intros H%alnum_words_nil. congruence. }
    assert (1 <= length (alnum_words name))%nat
      by (destruct (alnum_words name); [done|simpl; lia]).
    split; [lia|]. split; [intros _; split; [lia|done]|].
    split.
    + intros H0. apply (f_equal String.length) in H0.
      rewrite Hlen, length_take in H0. cbn [String.length] in H0. lia.
    + intros ->. done.
  - unfold upper. rewrite length_map_string.
    pose proof (length_take_string 2 name). split; [lia|]. split; [done|].
    split.
    + intros H0. apply (f_equal String.length) in H0.
      rewrite length_map_string in H0. by destruct name as [|? [|? ?]].
    + by intros ->.
Qed.

Lemma dossier_code_shape_witness :
  (String.length (dossier_code "my-2nd dossier--x") <= 3)%nat.
Proof. apply (dossier_code_shape "my-2nd dossier--x"). reflexivity. Defined.

(** ** A title that is not empty *)

Lemma stem_nonempty name : name <> "" -> stem name <> "".
Proof.
  intros Hn. unfold stem. destruct (rfind_dot 0 name) as [i|]; [|done].
  destruct ((0 <? i)%nat && _) eqn:E; [|done].
  apply andb_prop in E as [Hi%Nat.ltb_lt _].
  destruct name as [|c name]; [done|]. destruct i as [|i]; [lia|]. done.
Qed.

Lemma name_title_nonempty name : name <> "" -> name_title name <> "".
Proof.
  intros Hn%stem_nonempty H. apply (f_equal String.length) in H.
  rewrite name_title_eq in H. unfold title in H.
  rewrite length_title_go, length_map_string in H. by destruct (stem name).
Qed.

(** X5: the title of a document with a file name is not empty, unless one of
    its first five lines is a heading whose text is blank.  Stated for a
    text and a name of the ASCII range. *)
Theorem extract_title_nonempty (text name : string) :
  ascii_text text -> ascii_text name ->
  name <> "" ->
  (forall j line, (j < 5)%nat -> splitlines text !! j = Some line ->
     ~ spec_heading line "") ->
  extract_title text name <> "".
Proof.
  intros _ _ Hname Hblank. unfold extract_title.
  destruct (first_some heading_title (take 5 (splitlines text))) as [t|] eqn:E1.
  - apply first_some_Some in E1 as (i & line & Hi & Ht & _).
    apply lookup_take_Some in Hi as [Hi Hi5]. intros ->.
    apply (Hblank i line Hi5 Hi). apply heading_title_spec; [|done].
    eapply splitlines_one_line, list_elem_of_lookup_2, Hi.
  - destruct (first_some nonblank_title (take 3 (splitlines text))) as [t|] eqn:E2.
    + apply first_some_Some in E2 as (i & line & _ & Ht & _).
      unfold nonblank_title in Ht. destruct (strip line); [done|].
      injection Ht as <-. done.
    + by apply name_title_nonempty.
Qed.

Lemma extract_title_nonempty_witness : extract_title "plain text" "a.md" <> "".
Proof.
  apply extract_title_nonempty; [reflexivity|reflexivity|done|].
  intros j line Hj Hl (sp & rest & Hline & _).
  destruct j as [|j]; [|by destruct j].
  injection Hl as <-. discriminate Hline.
Defined.

(** ** Cleaning twice, assigning twice *)

(** X6: a second cleanup right after a cleanup removes nothing more. *)
Theorem clean_generated_idempotent (w : world) :
  fs (clean_generated (clean_generated w).2).2 = fs (clean_generated w).2.
Proof.
  apply map_eq. intros p. rewrite lookup_clean_generated.
  destruct (generated (fs (clean_generated w).2) p) eqn:E; [|done].
  destruct p as [|name rest]; [done|]. simpl in E.
  apply andb_prop in E as [Hd Hs]. apply bool_decide_eq_true in Hd.
  rewrite lookup_clean_generated in Hd. simpl in Hd.
  destruct (bool_decide (fs w !! [name] = Some FDir)) eqn:Eb; simpl in Hd.
  - destruct (self_or_parent name); done.
  - apply bool_decide_eq_false in Eb. done.
Qed.

Lemma sorted_places_assign code entries :
  sorted_places (assign_entries code entries) = sorted_places entries.
Proof.
  unfold sorted_places. rewrite sorted_assign, <- list_fmap_compose.
  apply list_fmap_ext. by intros i [j e] _.
Qed.

(** X7: assigning the ids again changes nothing: the ids depend on the order
    of the keys only, not on the ids that the entries carry. *)
Theorem assign_doc_ids_idempotent (ds : dossiers) :
  assign_doc_ids (assign_doc_ids ds) = assign_doc_ids ds.
Proof.
  unfold assign_doc_ids. induction ds as [|[d es] ds IH]; [done|].
  cbn [map]. rewrite IH. f_equal. f_equal.
  apply list_eq. intros i.
  destruct (es !! i) as [e|] eqn:He.
  - destruct (assign_entries_lookup (dossier_code d) _ _ _ He) as (k & Hk & Hi).
    rewrite <- (sorted_places_assign (dossier_code d)) in Hk.
    rewrite (assign_entries_places _ _ _ _ Hk). by rewrite Hi.
  - apply lookup_ge_None in He.
    rewrite !(proj2 (lookup_ge_None _ _)); [done|..];
      rewrite ?length_assign_entries; done.
Qed.

(** ** Text that [html.escape] leaves as it is *)

Lemma esc_char_plain c : needs_escape c = false -> esc_char c = String c "".
Proof.
  unfold needs_escape, markup_char, esc_char.
  destruct (ascii_dec "&" c); [done|]. destruct (ascii_dec "<" c); [done|].
  destruct (ascii_dec ">" c); [done|].
  destruct (ascii_dec (ascii_of_nat 34) c); [done|].
  destruct (ascii_dec "'" c); done.
Qed.

Lemma esc_char_length c :
  (1 <= String.length (esc_char c))%nat
  /\ (needs_escape c = true -> (2 <= String.length (esc_char c))%nat).
Proof.
  unfold needs_escape, markup_char, esc_char.
  destruct (ascii_dec "&" c); [simpl; lia|]. destruct (ascii_dec "<" c); [simpl; lia|].
  destruct (ascii_dec ">" c); [simpl; lia|].
  destruct (ascii_dec (ascii_of_nat 34) c); [simpl; lia|].
  destruct (ascii_dec "'" c); simpl; [lia|]. split; [lia|done].
Qed.

Lemma length_subst_esc s : (String.length s <= String.length (subst esc_char s))%nat.
Proof.
  induction s as [|c s IH]; simpl; [done|]. rewrite str_length_app.
  pose proof (esc_char_length c) as [H _]. lia.
Qed.

(** X8: [html.escape] returns its argument unchanged exactly when the argument
    holds none of the five characters that it replaces; it never makes a
    text shorter. *)
Theorem html_escape_fixed (s : string) :
  (html_escape s = s <-> all_chars (fun c => negb (needs_escape c)) s = true)
  /\ (String.length s <= String.length (html_escape s))%nat.
Proof.
  rewrite html_escape_subst. split; [|apply length_subst_esc].
  induction s as [|c s IH]; [done|]. cbn [subst all_chars]. split.
  - intros H. pose proof (f_equal String.length H) as Hlen.
    rewrite str_length_app in Hlen. cbn [String.length] in Hlen.
    pose proof (length_subst_esc s). pose proof (esc_char_length c) as [H1 H2].
    destruct (needs_escape c) eqn:E; [specialize (H2 eq_refl); lia|].
    rewrite esc_char_plain in H by done. injection H as H. simpl. by apply IH.
  - intros [Hc Hs]%andb_prop. apply negb_true_iff in Hc.
    rewrite esc_char_plain by done. rewrite (proj2 IH) by done. reflexivity.
Qed.

(** ** Relations that every step of a run keeps *)

Section run_inv.
Context (R : world -> world -> Prop) (E : nat -> Prop).
Hypothesis R_fs : forall w w', fs w' = fs w -> R w w'.
Hypothesis R_trans : forall a b c, R a b -> R b c -> R a c.

Lemma run_inv_same_fs {A} (m : M A) :
  (forall w o w', m w = (o, w') -> fs w' = fs w /\ forall n, o = Exit n -> E n) ->
  run_inv R E m.
Proof. intros H w o w' Hm. destruct (H _ _ _ Hm). split; [by apply R_fs|done]. Qed.

Lemma run_inv_ret {A} (a : A) : run_inv R E (ret a).
Proof. apply run_inv_same_fs. by intros w o w' [= <- <-]. Qed.

Lemma run_inv_lift {A} (o : outcome A) :
  (forall n, o = Exit n -> E n) -> run_inv R E (lift o).
Proof. intros H. apply run_inv_same_fs. by intros w o' w' [= <- <-]. Qed.

Lemma run_inv_sys_exit {A} n : E n -> run_inv R E (@sys_exit A n).
Proof.
  intros H. apply run_inv_same_fs. intros w o w' [= <- <-].
  split; [done|]. by intros m [= <-].
Qed.

Lemma run_inv_print line : run_inv R E (print line).
Proof. apply run_inv_same_fs. by intros w o w' [= <- <-]. Qed.

Lemma run_inv_eprint line : run_inv R E (eprint line).
Proof. apply run_inv_same_fs. by intros w o w' [= <- <-]. Qed.

Lemma run_inv_is_file p : run_inv R E (is_file p).
Proof. apply run_inv_same_fs. by intros w o w' [= <- <-]. Qed.

Lemma run_inv_read_text p : run_inv R E (read_text p).
Proof.
  apply run_inv_same_fs. intros w o w'. unfold read_text.
  destruct (fs w !! p) as [[]|]; by intros [= <- <-].
Qed.

Lemma run_inv_subprocess_run e cmd : run_inv R E (subprocess_run e cmd).
Proof. apply run_inv_same_fs. by intros w o w' [= <- <-]. Qed.

Lemma run_inv_bind {A B} (m : M A) (k : A -> M B) :
  run_inv R E m -> (forall a, run_inv R E (k a)) -> run_inv R E (bind m k).
Proof.
  intros Hm Hk w o w'. unfold bind.
  destruct (m w) as [[a|n|x] w1] eqn:Em; destruct (Hm _ _ _ Em) as [H1 H2].
  - intros Hka. destruct (Hk _ _ _ _ Hka) as [H3 H4]. split; [by eapply R_trans|done].
  - intros [= <- <-]. split; [done|]. intros m' [= <-]. by apply H2.
  - intros [= <- <-]. split; [done|]. by intros m' [=].
Qed.

Lemma run_inv_for_each {A} (l : list A) body :
  (forall x, x ∈ l -> run_inv R E (body x)) -> run_inv R E (for_each l body).
Proof.
  induction l as [|x l IH]; intros H; simpl; [apply run_inv_ret|].
  apply run_inv_bind; [apply H; left|]. intros _. apply IH.
  intros y Hy. apply H. by right.
Qed.

Hypothesis E_one : E 1.
Hypothesis R_mkdir_p : forall p, run_inv R E (mkdir_p p).
Hypothesis R_write_text : forall p content,
  (2 <= length p)%nat \/ p = ["index.html"] -> run_inv R E (write_text p content).

Lemma run_inv_render_doc e en dossier built_at :
  run_inv R E (render_doc e en dossier built_at).
Proof.
  unfold render_doc.
  apply run_inv_bind; [apply R_mkdir_p|]. intros _.
  apply run_inv_bind.
  { apply run_inv_lift. unfold relative_to_repo. by destruct (starts_with _ _). }
  intros source_path.
  apply run_inv_bind.
  { apply run_inv_lift. unfold get_doc_id. by destruct (e_doc_id en). }
  intros doc_id.
  apply run_inv_bind; [apply run_inv_subprocess_run|]. intros result.
  destruct (negb _).
  - apply run_inv_bind; [apply run_inv_eprint|]. intros _. by apply run_inv_sys_exit.
  - apply run_inv_bind; [|intros _; apply run_inv_print].
    apply R_write_text. left. unfold output_dir_for. rewrite length_app. simpl. lia.
Qed.

Lemma run_inv_render_all e ds built_at : run_inv R E (render_all e ds built_at).
Proof.
  unfold render_all. apply run_inv_for_each. intros [dossier entries] _.
  apply run_inv_bind; [apply run_inv_print|]. intros _.
  apply run_inv_for_each. intros en _. apply run_inv_render_doc.
Qed.

Lemma collect_not_Exit {A} (l : list A) body n :
  (forall x n, body x <> Exit n) -> collect l body <> Exit n.
Proof.
  intros H. induction l as [|x l IH]; simpl; [done|].
  destruct (body x) eqn:Ex; simpl; [|by apply H in Ex|done].
  destruct (collect l body); simpl; done.
Qed.

Lemma drawers_html_not_Exit ds n : drawers_html ds <> Exit n.
Proof.
  unfold drawers_html. apply collect_not_Exit. intros d m.
  destruct (dict_get d ds) as [es|]; [|done].
  unfold drawer_html. intros H.
  destruct (collect (sorted_entries es) (item_html d)) eqn:Ec; simpl in H; try done.
  injection H as <-. revert Ec. apply collect_not_Exit.
  intros en m'. unfold item_html, get_doc_id. by destruct (e_doc_id en).
Qed.

Lemma run_inv_build_index ds : run_inv R E (build_index ds).
Proof.
  unfold build_index.
  apply run_inv_bind; [apply run_inv_read_text|]. intros template.
  apply run_inv_bind.
  { apply run_inv_lift. intros n H. by apply drawers_html_not_Exit in H. }
  intros drawers.
  apply run_inv_bind; [apply R_write_text; by right|]. intros _.
  apply run_inv_print.
Qed.

Hypothesis R_clean : run_inv R E clean_generated.

Lemma run_inv_main e : run_inv R E (main e).
Proof.
  unfold main. destruct (which_pandoc e); simpl.
  2: { apply run_inv_bind; [apply run_inv_eprint|]. intros _. by apply run_inv_sys_exit. }
  apply run_inv_bind; [apply run_inv_is_file|].
  intros [|]; simpl.
  2: { apply run_inv_bind; [apply run_inv_eprint|]. intros _. by apply run_inv_sys_exit. }
  destruct (find_docs e) as [|d0 ds0].
  { apply run_inv_bind; [apply run_inv_eprint|]. intros _. by apply run_inv_sys_exit. }
  apply run_inv_bind; [apply run_inv_print|]. intros _.
  apply run_inv_bind; [apply R_clean|]. intros _.
  apply run_inv_bind; [apply run_inv_render_all|]. intros _.
  apply run_inv_bind; [apply run_inv_build_index|]. intros _.
  apply run_inv_print.
Qed.
End run_inv.

(** ** The files directly in the cabinet directory *)

Lemma keeps_top_files_fs w w' : fs w' = fs w -> keeps_top_files w w'.
Proof. intros H name content _. by rewrite H. Qed.

Lemma keeps_top_files_trans a b c :
  keeps_top_files a b -> keeps_top_files b c -> keeps_top_files a c.
Proof. intros H1 H2 name content Hn Ha. by apply H2, H1. Qed.

Lemma elem_of_existsb {A} (f : A -> bool) l x : x ∈ l -> f x = true -> existsb f l = true.
Proof. intros Hx Hf. apply existsb_exists. exists x. by rewrite <- list_elem_of_In. Qed.

Lemma keeps_top_files_mkdir_p p :
  run_inv keeps_top_files (fun n => n = 1%nat) (mkdir_p p).
Proof.
  intros w o w'. unfold mkdir_p.
  destruct (existsb (file_at (fs w)) (ancestors p)) eqn:E; intros [= <- <-].
  - split; [by apply keeps_top_files_fs|done].
  - split; [|done]. intros name content _ Hf. simpl. rewrite lookup_mkdirs.
    destruct (bool_decide ([name] ∈ ancestors p)) eqn:Eb; [|done].
    apply bool_decide_eq_true in Eb.
    rewrite (elem_of_existsb _ _ [name] Eb) in E; [done|].
    unfold file_at. by rewrite Hf.
Qed.

Lemma keeps_top_files_write_text p content :
  (2 <= length p)%nat \/ p = ["index.html"] ->
  run_inv keeps_top_files (fun n => n = 1%nat) (write_text p content).
Proof.
  intros Hp w o w'. unfold write_text. destruct (_ && _); intros [= <- <-].
  - split; [|done]. intros name c Hn Hf. simpl. rewrite lookup_insert_ne; [done|].
    intros ->. destruct Hp as [Hp|[= Hp]]; [simpl in Hp; lia|done].
  - split; [by apply keeps_top_files_fs|done].
Qed.

Lemma keeps_top_files_clean :
  run_inv keeps_top_files (fun n => n = 1%nat) clean_generated.
Proof.
  intros w o w' H. split.
  - intros name content _ Hf. replace w' with (clean_generated w).2 by by rewrite H.
    rewrite lookup_clean_generated. simpl.
    rewrite bool_decide_eq_false_2 by congruence. done.
  - rewrite clean_generated_run in H. injection H as <- _. done.
Qed.

Lemma main_keeps e : run_inv keeps_top_files (fun n => n = 1%nat) (main e).
Proof.
  apply run_inv_main.
  - apply keeps_top_files_fs.
  - apply keeps_top_files_trans.
  - done.
  - apply keeps_top_files_mkdir_p.
  - apply keeps_top_files_write_text.
  - apply keeps_top_files_clean.
Qed.

(** X9: whatever happens in a run, a file that lies directly in the cabinet
    directory, the index page apart, is there afterwards with the same
    text: the templates are never removed or overwritten. *)
Theorem main_keeps_top_files (e : env) (w : world) (name content : string) :
  name <> "index.html" ->
  fs w !! [name] = Some (FFile content) ->
  fs (main e w).2 !! [name] = Some (FFile content).
Proof.
  intros Hn Hf. destruct (main e w) as [o w'] eqn:Em.
  destruct (main_keeps e _ _ _ Em) as [H _]. by apply H.
Qed.

Lemma main_keeps_top_files_witness :
  fs (main (Env "/r" true
              (fun _ => Some [DocsDir "zeta" [MdFile ["a.md"] "# A"]])
              (fun cmd => ProcResult 0 "<html>" "") "2026-01-01T00:00:00Z")
           (World (<[TEMPLATE := FFile "t"]>
                     (<[INDEX_TEMPLATE := FFile "<!-- DRAWERS -->"]> ∅)) [] [] [])).2
    !! ["cabinet-template.html"] = Some (FFile "t").
Proof. apply main_keeps_top_files; [done|reflexivity]. Defined.

(** X10: the exit status of a run is 0 when [main] returns and 1 in every other
    case: [sys.exit] is never reached with another status. *)
Theorem main_exit_status (e : env) (w : world) :
  (exit_status (main e w).1 = 0%nat <-> (main e w).1 = Done tt)
  /\ (exit_status (main e w).1 = 0%nat \/ exit_status (main e w).1 = 1%nat).
Proof.
  destruct (main e w) as [o w'] eqn:Em.
  destruct (main_keeps e _ _ _ Em) as [_ H]. simpl.
  destruct o as [[]|n|x]; simpl.
  - split; [done|by left].
  - rewrite (H n eq_refl). split; [done|by right].
  - split; [done|by right].
Qed.

(** ** A document that the converter accepts *)







(** What a call of [render_doc] that returns has done: one converter call,
    for the path of the document, with status 0, and the page is a file. *)
Lemma render_doc_Done e en dossier built_at w w' :
  render_doc e en dossier built_at w = (Done tt, w') ->
  exists cmd,
    spawned w' = spawned w ++ [cmd]
    /\ nth 1 cmd "" = e_path en
    /\ failed e cmd = false
    /\ fs w' !! page_of dossier en = Some (FFile (proc_stdout (run_pandoc e cmd))).
Proof.
  unfold render_doc, bind, mkdir_p, lift, subprocess_run, write_text, print,
    eprint, sys_exit, get_doc_id, failed.
  destruct (existsb _ _); [done|].
  destruct (relative_to_repo e (e_path en)) as [source_path| |]; [|done..].
  destruct (e_doc_id en) as [doc_id|]; [|done].
  cbn [fs stdout stderr spawned set_fs].
  match goal with |- context [run_pandoc e ?c] => set (cmd := c) end.
  destruct (negb (returncode (run_pandoc e cmd) =? 0)%Z) eqn:Erc; [done|].
  destruct (_ && _); [|done].
  intros [= <-]. exists cmd. cbn [fs spawned]. repeat split; try done.
  apply lookup_insert_eq.
Qed.

(** ** A run that succeeds *)

Lemma bind_Done {A B} (m : M A) (k : A -> M B) w b w' :
  bind m k w = (Done b, w') ->
  exists a w1, m w = (Done a, w1) /\ k a w1 = (Done b, w').
Proof.
  unfold bind. destruct (m w) as [[a|n|x] w1]; [|done..]. intros H. by exists a, w1.
Qed.

Lemma main_Done e w w' :
  main e w = (Done tt, w') ->
  let ds := assign_doc_ids (find_docs e) in
  exists w0 w1 w2,
    spawned w0 = spawned w
    /\ fs w0 = fs (clean_generated w).2
    /\ render_all e ds (now_utc e) w0 = (Done tt, w1)
    /\ build_index ds w1 = (Done tt, w2)
    /\ print "Done." w2 = (Done tt, w').
Proof.
  intros Hmain ds.
  destruct (which_pandoc e) eqn:Ew.
  2: { destruct (main_exits_early e w) as (msg & H & _); [by left|]. congruence. }
  destruct (file_at (fs w) TEMPLATE) eqn:Et.
  2: { destruct (main_exits_early e w) as (msg & H & _); [by right; left|]. congruence. }
  destruct (decide (find_docs e = [])) as [Hd|Hd].
  { destruct (main_exits_early e w) as (msg & H & _); [by right; right|]. congruence. }
  rewrite main_run in Hmain by done. fold ds in Hmain.
  apply bind_Done in Hmain as ([] & w1 & Hr & Hmain).
  apply bind_Done in Hmain as ([] & w2 & Hb & Hp).
  eexists _, w1, w2. split; [|split; [|split; [exact Hr|done]]]; reflexivity.
Qed.

Lemma for_each_calls {A} e (f : A -> list string) (body : A -> M unit) l :
  (forall x w w', body x w = (Done tt, w') ->
     exists cmds, spawned w' = spawned w ++ cmds
       /\ map (fun c => nth 1 c "") cmds = f x
       /\ Forall (fun c => failed e c = false) cmds) ->
  forall w w', for_each l body w = (Done tt, w') ->
    exists cmds, spawned w' = spawned w ++ cmds
      /\ map (fun c => nth 1 c "") cmds = concat (map f l)
      /\ Forall (fun c => failed e c = false) cmds.
Proof.
  intros Hbody. induction l as [|x l IH]; intros w w'; simpl.
  - intros [= <-]. exists []. by rewrite app_nil_r.
  - intros ([] & w1 & Hx & Hl)%bind_Done.
    destruct (Hbody _ _ _ Hx) as (c1 & Hs1 & Hp1 & Hf1).
    destruct (IH _ _ Hl) as (c2 & Hs2 & Hp2 & Hf2).
    exists (c1 ++ c2). split; [by rewrite Hs2, Hs1, (assoc_L (++))|].
    split; [by rewrite map_app, Hp1, Hp2|]. by apply Forall_app.
Qed.

Lemma concat_paths (l : list (string * list entry)) :
  concat (map (fun kv => map e_path kv.2) l) = map e_path (concat (map snd l)).
Proof.
  induction l as [|[d es] l IH]; [done|].
  cbn [map concat snd]. by rewrite IH, map_app.
Qed.

Lemma concat_singletons (es : list entry) :
  concat (map (fun en => [e_path en]) es) = map e_path es.
Proof. induction es as [|en es IH]; [done|]. cbn [map concat]. by rewrite IH. Qed.

Lemma render_all_calls e ds built_at w w' :
  render_all e ds built_at w = (Done tt, w') ->
  exists cmds, spawned w' = spawned w ++ cmds
    /\ map (fun c => nth 1 c "") cmds = map e_path (render_order ds)
    /\ Forall (fun c => failed e c = false) cmds.
Proof.
  intros H. unfold render_all in H.
  apply (for_each_calls e (fun kv => map e_path kv.2)) in H.
  - destruct H as (cmds & Hs & Hp & Hf). exists cmds. split; [done|]. split; [|done].
    rewrite Hp. unfold render_order. apply concat_paths.
  - intros [d es] w0 w0' ([] & w1 & Hp & Hl)%bind_Done. injection Hp as <-.
    apply (for_each_calls e (fun en => [e_path en])) in Hl.
    + destruct Hl as (cmds & Hs & Hpaths & Hf). exists cmds. split; [done|].
      split; [|done]. rewrite Hpaths. apply concat_singletons.
    + intros en w2 w2' (cmd & Hs & Hpath & Hf & _)%render_doc_Done.
      exists [cmd]. simpl. rewrite Hpath. repeat split; try done. by constructor.
Qed.

Lemma list_sum_perm l1 l2 : l1 ≡ₚ l2 -> list_sum l1 = list_sum l2.
Proof. induction 1; simpl; lia. Qed.

Lemma length_render_order ds :
  length (render_order ds) = list_sum (map (fun kv => length kv.2) ds).
Proof.
  unfold render_order.
  rewrite <- (list_sum_perm (map (fun kv => length kv.2) (sorted_items ds))).
  - induction (sorted_items ds) as [|[d es] l IH]; [done|].
    simpl. by rewrite length_app, IH.
  - apply Permutation_map. apply sorted_by_perm.
Qed.

Lemma build_index_Done ds w w' :
  build_index ds w = (Done tt, w') ->
  spawned w' = spawned w
  /\ exists content, fs w' !! ["index.html"] = Some (FFile content).
Proof.
  intros H. split; [by eapply spawns_nothing_build_index|].
  unfold build_index, bind, read_text, lift, write_text, print in H.
  destruct (fs w !! INDEX_TEMPLATE) as [[template|]|]; [|done..].
  destruct (drawers_html ds) as [hs| |]; [|done..].
  destruct (_ && _); [|done]. injection H as <-. simpl.
  eexists. apply lookup_insert_eq.
Qed.

(** X12: in a run that succeeds the converter has been called once for each
    document, in the order of the dossiers by name and, within a dossier,
    in the order of the discovery; every call had status 0; their number
    is the number of documents announced; the last line printed is the
    closing line. *)
Theorem main_success_calls (e : env) (w w' : world) :
  main e w = (Done tt, w') ->
  let ds := assign_doc_ids (find_docs e) in
  exists cmds,
    spawned w' = spawned w ++ cmds
    /\ map (fun c => nth 1 c "") cmds = map e_path (render_order ds)
    /\ Forall (fun c => returncode (run_pandoc e c) = 0%Z) cmds
    /\ length cmds = list_sum (map (fun kv => length kv.2) ds)
    /\ last (stdout w') = Some "Done.".
Proof.
  intros Hmain ds.
  destruct (main_Done _ _ _ Hmain) as (w0 & w1 & w2 & H0 & _ & Hr & Hb & Hp).
  fold ds in Hr, Hb.
  destruct (render_all_calls _ _ _ _ _ Hr) as (cmds & Hs & Hpaths & Hf).
  apply build_index_Done in Hb as [Hb _]. injection Hp as <-.
  exists cmds. cbn [spawned stdout]. split; [by rewrite Hb, Hs, H0|].
  split; [done|]. split.
  - eapply Forall_impl; [exact Hf|]. intros c Hc. unfold failed in Hc.
    apply negb_false_iff in Hc. by apply Z.eqb_eq.
  - split; [|apply last_snoc].
    rewrite <- length_render_order, <- (length_map e_path), <- Hpaths.
    by rewrite length_map.
Qed.

Lemma main_success_calls_witness :
  exists cmds : list (list string),
    map (fun c => nth 1 c "") cmds = ["/r/dossiers/zeta/docs/a.md"].
Proof.
  assert ((main (Env "/r" true
                   (fun _ => Some [DocsDir "zeta" [MdFile ["a.md"] "# A"]])
                   (fun cmd => ProcResult 0 "<html>" "") "2026-01-01T00:00:00Z")
                (World (<[TEMPLATE := FFile "t"]>
                          (<[INDEX_TEMPLATE := FFile "<!-- DRAWERS -->"]> ∅)) [] [] [])).1
          = Done tt) as H1 by reflexivity.
  destruct (main _ _) as [o w'] eqn:E in H1. simpl in H1. subst o.
  destruct (main_success_calls _ _ _ E) as (cmds & _ & H & _).
  exists cmds. exact H.
Defined.

(** ** The pages after a run that succeeds *)

Lemma keeps_files_fs w w' : fs w' = fs w -> keeps_files w w'.
Proof. intros H p. by rewrite H. Qed.

Lemma keeps_files_trans a b c : keeps_files a b -> keeps_files b c -> keeps_files a c.
Proof.
  intros H1 H2 p. destruct (H1 p) as [F1 D1], (H2 p) as [F2 D2]. split; auto.
Qed.

Lemma keeps_files_mkdir_p p : run_inv keeps_files (fun _ => True) (mkdir_p p).
Proof.
  intros w o w'. unfold mkdir_p.
  destruct (existsb (file_at (fs w)) (ancestors p)) eqn:E; intros [= <- <-].
  - split; [by apply keeps_files_fs|done].
  - split; [|done]. intros q. unfold file_at. simpl. rewrite lookup_mkdirs.
    destruct (bool_decide (q ∈ ancestors p)) eqn:Eb; [|done].
    apply bool_decide_eq_true in Eb. split; [|done]. intros Hq.
    by rewrite (elem_of_existsb _ _ q Eb) in E.
Qed.

Lemma keeps_files_write_text p content :
  run_inv keeps_files (fun _ => True) (write_text p content).
Proof.
  intros w o w'. unfold write_text.
  destruct (dir_at (fs w) (parent p) && negb (dir_at (fs w) p)) eqn:E;
    intros [= <- <-].
  - split; [|done]. intros q. unfold file_at. simpl.
    destruct (decide (p = q)) as [->|N].
    + rewrite lookup_insert_eq. split; [done|]. intros Hq.
      apply andb_prop in E as [_ E]. apply negb_true_iff in E.
      destruct q; [done|].
      cbn [dir_at] in E. by rewrite bool_decide_eq_true_2 in E.
    + by rewrite lookup_insert_ne.
  - split; [by apply keeps_files_fs|done].
Qed.

Lemma keeps_files_render_doc e en dossier built_at :
  run_inv keeps_files (fun _ => True) (render_doc e en dossier built_at).
Proof.
  apply run_inv_render_doc; try done.
  - apply keeps_files_fs.
  - apply keeps_files_trans.
  - apply keeps_files_mkdir_p.
  - intros p content _. apply keeps_files_write_text.
Qed.

Lemma keeps_files_build_index ds : run_inv keeps_files (fun _ => True) (build_index ds).
Proof.
  apply run_inv_build_index; try done.
  - apply keeps_files_fs.
  - apply keeps_files_trans.
  - intros p content _. apply keeps_files_write_text.
Qed.

(** What no turn of a loop undoes still holds after the loop. *)
Lemma for_each_keep {A} (P : world -> Prop) (body : A -> M unit) l :
  (forall y w o w', y ∈ l -> body y w = (o, w') -> P w -> P w') ->
  forall w o w', for_each l body w = (o, w') -> P w -> P w'.
Proof.
  induction l as [|y l IH]; intros Hkeep w o w'; simpl.
  - by intros [= <- <-].
  - unfold bind. destruct (body y w) as [[[]|n|x] w1] eqn:Ey.
    + intros Hl Hw. eapply IH; [|exact Hl|].
      * intros z v u v' Hz. apply Hkeep. by right.
      * eapply Hkeep; [left|exact Ey|done].
    + intros [= <- <-] Hw. eapply Hkeep; [left|exact Ey|done].
    + intros [= <- <-] Hw. eapply Hkeep; [left|exact Ey|done].
Qed.

(** What each turn of a loop achieves and no turn undoes holds after the loop. *)
Lemma for_each_establish {A} (Q : A -> world -> Prop) (body : A -> M unit) l :
  (forall x w w', x ∈ l -> body x w = (Done tt, w') -> Q x w') ->
  (forall x y w o w', y ∈ l -> body y w = (o, w') -> Q x w -> Q x w') ->
  forall w w', for_each l body w = (Done tt, w') -> forall x, x ∈ l -> Q x w'.
Proof.
  induction l as [|y l IH]; intros Hdo Hkeep w w'; simpl.
  - intros _ x Hx. by apply elem_of_nil in Hx.
  - intros ([] & w1 & Hy & Hl)%bind_Done x [->|Hx]%elem_of_cons.
    + eapply (for_each_keep (Q y)); [|exact Hl|].
      * intros z v o v' Hz. apply Hkeep. by right.
      * eapply Hdo; [left|exact Hy].
    + eapply IH; [| |exact Hl|done].
      * intros z v v' Hz. apply Hdo. by right.
      * intros z u v o v' Hu. apply Hkeep. by right.
Qed.


Lemma page_made_keep d en w w' : keeps_files w w' -> page_made d en w -> page_made d en w'.
Proof.
  intros Hk [Hf Hd]. split.
  - by apply Hk.
  - intros q Hq. by apply Hk, Hd.
Qed.

Lemma render_doc_page e en dossier built_at w w' :
  render_doc e en dossier built_at w = (Done tt, w') -> page_made dossier en w'.
Proof.
  unfold page_made, page_of, render_doc, bind, mkdir_p.
  pose proof (not_elem_of_ancestors (output_dir_for dossier (e_slug en)) "index.html")
    as Hnot.
  set (out_dir := output_dir_for dossier (e_slug en)) in *.
  set (anc := ancestors out_dir) in *. clearbody anc out_dir.
  unfold lift, subprocess_run, write_text, print, eprint, sys_exit, get_doc_id.
  destruct (existsb _ _); [done|].
  destruct (relative_to_repo e (e_path en)) as [source_path| |]; [|done..].
  destruct (e_doc_id en) as [doc_id|]; [|done].
  cbn [fs stdout stderr spawned set_fs].
  destruct (negb _); [done|].
  destruct (_ && _); [|done].
  intros [= <-]. split; cbn [fs].
  - unfold file_at. by rewrite lookup_insert_eq.
  - intros q Hq. rewrite lookup_insert_ne by (by intros <-).
    rewrite lookup_mkdirs. by rewrite bool_decide_eq_true_2.
Qed.

Lemma elem_of_sorted_items ds kv : kv ∈ sorted_items ds <-> kv ∈ ds.
Proof. unfold sorted_items. by rewrite sorted_by_perm. Qed.

Lemma render_entries_pages e d es built_at w w' :
  for_each es (fun en => render_doc e en d built_at) w = (Done tt, w') ->
  forall en, en ∈ es -> page_made d en w'.
Proof.
  apply (for_each_establish (fun en w => page_made d en w)).
  - intros en u u' _. apply render_doc_page.
  - intros x y u o u' _ Hy. apply page_made_keep.
    exact (proj1 (keeps_files_render_doc _ _ _ _ _ _ _ Hy)).
Qed.

Lemma keeps_files_render_entries e d es built_at :
  run_inv keeps_files (fun _ => True)
    (print ("[" +:+ d +:+ "]") ;; for_each es (fun en => render_doc e en d built_at)).
Proof.
  apply run_inv_bind; [apply keeps_files_trans| |].
  - apply run_inv_print. apply keeps_files_fs.
  - intros _. apply run_inv_for_each; [apply keeps_files_fs|apply keeps_files_trans|].
    intros en _. apply keeps_files_render_doc.
Qed.

Lemma render_all_pages e ds built_at w w' :
  render_all e ds built_at w = (Done tt, w') ->
  forall d es en, (d, es) ∈ ds -> en ∈ es -> page_made d en w'.
Proof.
  intros H d es en Hd Hen. unfold render_all in H.
  apply elem_of_sorted_items in Hd.
  refine (for_each_establish
            (fun kv w => forall en, en ∈ kv.2 -> page_made kv.1 en w)
            _ _ _ _ w w' H (d, es) Hd en Hen).
  - intros [d1 es1] w1 w2 _ ([] & w3 & Hp & Hl)%bind_Done. cbn [fst snd].
    exact (render_entries_pages _ _ _ _ _ _ Hl).
  - intros [d1 es1] [d2 es2] w1 o w2 _ Hb Hq en1 Hen1. cbn [fst snd] in *.
    eapply page_made_keep; [|by apply Hq].
    exact (proj1 (keeps_files_render_entries _ _ _ _ _ _ _ Hb)).
Qed.

(** X13: after a run that succeeds the index page is a file, the page of every
    document is a file, and the directories on the way to a page are
    directories. *)
Theorem main_success_pages (e : env) (w w' : world) :
  main e w = (Done tt, w') ->
  file_at (fs w') ["index.html"] = true
  /\ forall d es en, (d, es) ∈ assign_doc_ids (find_docs e) -> en ∈ es ->
       page_made d en w'.
Proof.
  intros Hmain.
  destruct (main_Done _ _ _ Hmain) as (w0 & w1 & w2 & _ & _ & Hr & Hb & Hp).
  injection Hp as <-. cbn [fs]. split.
  - apply build_index_Done in Hb as [_ [content Hc]]. unfold file_at. by rewrite Hc.
  - intros d es en Hd Hen.
    apply (page_made_keep d en w1).
    + exact (proj1 (keeps_files_build_index _ _ _ _ Hb)).
    + by eapply render_all_pages.
Qed.

Lemma main_success_pages_witness :
  file_at (fs (main (Env "/r" true
                       (fun _ => Some [DocsDir "zeta" [MdFile ["core"; "a.md"] "# A"]])
                       (fun cmd => ProcResult 0 "<html>" "") "2026-01-01T00:00:00Z")
                    (World (<[TEMPLATE := FFile "t"]>
                              (<[INDEX_TEMPLATE := FFile "<!-- DRAWERS -->"]> ∅))
                           [] [] [])).2)
          ["zeta"; "core"; "a"; "index.html"] = true.
Proof.
  assert ((main (Env "/r" true
                   (fun _ => Some [DocsDir "zeta" [MdFile ["core"; "a.md"] "# A"]])
                   (fun cmd => ProcResult 0 "<html>" "") "2026-01-01T00:00:00Z")
                (World (<[TEMPLATE := FFile "t"]>
                          (<[INDEX_TEMPLATE := FFile "<!-- DRAWERS -->"]> ∅)) [] [] [])).1
          = Done tt) as H1 by reflexivity.
  destruct (main _ _) as [o w'] eqn:E in H1 |- *. simpl in H1. subst o.
  destruct (main_success_pages _ _ _ E) as [_ H].
  destruct (H "zeta"
              [Entry "/r/dossiers/zeta/docs/core/a.md" "A" "core/a" "core" (Some "Z-001")]
              (Entry "/r/dossiers/zeta/docs/core/a.md" "A" "core/a" "core" (Some "Z-001")))
    as [Hf _].
  - vm_compute. left.
  - left.
  - exact Hf.
Defined.

Lemma render_doc_fs e en dossier built_at w o w' :
  render_doc e en dossier built_at w = (o, w') ->
  forall p y, fs w' !! p = Some y ->
    fs w !! p = Some y
    \/ (p = page_of dossier en /\ exists content, y = FFile content)
    \/ (p ∈ ancestors (output_dir_for dossier (e_slug en)) /\ y = FDir).
Proof.
  unfold page_of, render_doc, bind, mkdir_p.
  set (out_dir := output_dir_for dossier (e_slug en)) in *.
  set (anc := ancestors out_dir) in *. clearbody anc out_dir.
  unfold lift, subprocess_run, write_text, print, eprint, sys_exit, get_doc_id.
  assert (Hmk : forall p y,
             foldr (fun q m => <[q := FDir]> m) (fs w) anc !! p = Some y ->
             fs w !! p = Some y \/ (p ∈ anc /\ y = FDir)).
  { intros p y. rewrite lookup_mkdirs. destruct (bool_decide (p ∈ anc)) eqn:Eb.
    - apply bool_decide_eq_true in Eb. intros [= <-]. by right.
    - by left. }
  assert (Hmk' : forall p y,
             foldr (fun q m => <[q := FDir]> m) (fs w) anc !! p = Some y ->
             fs w !! p = Some y
             \/ (p = out_dir ++ ["index.html"] /\ exists content, y = FFile content)
             \/ (p ∈ anc /\ y = FDir)).
  { intros p y [H|H]%Hmk; auto. }
  destruct (existsb _ _); [intros [= <- <-]; by left|].
  destruct (relative_to_repo e (e_path en)) as [source_path| |];
    [|intros [= <- <-]; exact Hmk'..].
  destruct (e_doc_id en) as [doc_id|]; [|intros [= <- <-]; exact Hmk'].
  cbn [fs stdout stderr spawned set_fs].
  destruct (negb _); [intros [= <- <-]; exact Hmk'|].
  destruct (_ && _); [|intros [= <- <-]; exact Hmk'].
  intros [= <- <-] p y. cbn [fs].
  intros [[<- <-]|[_ H]]%lookup_insert_Some; [|by apply Hmk'].
  right. left. split; [done|]. by eexists.
Qed.

Lemma build_index_fs ds w o w' :
  build_index ds w = (o, w') ->
  forall p y, fs w' !! p = Some y ->
    fs w !! p = Some y \/ (p = ["index.html"] /\ exists content, y = FFile content).
Proof.
  unfold build_index, bind, read_text, lift, write_text, print.
  destruct (fs w !! INDEX_TEMPLATE) as [[template|]|]; [|intros [= <- <-]; by left..].
  destruct (drawers_html ds) as [hs| |]; [|intros [= <- <-]; by left..].
  destruct (_ && _); [|intros [= <- <-]; by left].
  intros [= <- <-] p y. cbn [fs].
  intros [[<- <-]|[_ H]]%lookup_insert_Some; [|by left].
  right. split; [done|]. by eexists.
Qed.

(** X14: after a run that succeeds on a well-formed cabinet directory, whatever
    is in the directory is a file that was directly in it before the run
    and is unchanged, or the index page, or the page of a document of this
    run, or a directory on the way to such a page: no page of an earlier
    run is left. *)
Theorem main_success_no_stale (e : env) (w w' : world) (p : list string) (y : obj) :
  cabinet_tree (fs w) ->
  main e w = (Done tt, w') ->
  fs w' !! p = Some y ->
  (exists name content,
      p = [name] /\ y = FFile content
      /\ (name = "index.html" \/ fs w !! [name] = Some (FFile content)))
  \/ page_or_dir (assign_doc_ids (find_docs e)) p y.
Proof.
  intros Htree Hmain.
  destruct (main_Done _ _ _ Hmain) as (w0 & w1 & w2 & _ & H0 & Hr & Hb & Hp).
  set (ds := assign_doc_ids (find_docs e)) in *.
  set (ok := fun (p : list string) (y : obj) =>
    (exists name content,
        p = [name] /\ y = FFile content
        /\ (name = "index.html" \/ fs w !! [name] = Some (FFile content)))
    \/ page_or_dir ds p y).
  set (P := fun u : world => forall p y, fs u !! p = Some y -> ok p y).
  injection Hp as <-. cbn [fs]. revert p y. change (P w2).
  assert (P0 : P w0).
  { intros p y. rewrite H0, lookup_clean_tree by done.
    destruct p as [|name [|x rest]]; [done| |done].
    unfold top_file. destruct (fs w !! [name]) as [[content|]|] eqn:E; [|done..].
    intros [= <-]. left. exists name, content. auto. }
  assert (P1 : P w1).
  { unfold render_all in Hr. refine (for_each_keep P _ _ _ _ _ _ Hr P0).
    intros [d es] u o u' Hd Hbody Hu.
    apply (proj1 (elem_of_sorted_items _ _)) in Hd.
    unfold bind at 1 in Hbody. unfold print at 1 in Hbody.
    refine (for_each_keep P _ _ _ _ _ _ Hbody Hu).
    intros en v o1 v' Hen Hdoc Hv p y Hy.
    destruct (render_doc_fs _ _ _ _ _ _ _ Hdoc _ _ Hy) as [H|H]; [by apply Hv|].
    right. exists d, es, en. split; [done|]. split; [done|]. exact H. }
  intros p y Hy. destruct (build_index_fs _ _ _ _ Hb _ _ Hy) as [H|[-> [content ->]]].
  - by apply P1.
  - left. exists "index.html", content. auto.
Qed.

Lemma main_success_no_stale_witness :
  (exists name content,
      ["zeta"; "a"] = [name] /\ FDir = FFile content
      /\ (name = "index.html"
          \/ fs (World (<[TEMPLATE := FFile "t"]>
                          (<[INDEX_TEMPLATE := FFile "<!-- DRAWERS -->"]>
                             (<[["old"] := FDir]> (<[["old"; "x"] := FFile "y"]> ∅))))
                       [] [] [])
               !! [name] = Some (FFile content)))
  \/ page_or_dir
       (assign_doc_ids
          (find_docs (Env "/r" true
                        (fun _ => Some [DocsDir "zeta" [MdFile ["a.md"] "# A"]])
                        (fun cmd => ProcResult 0 "<html>" "") "2026-01-01T00:00:00Z")))
       ["zeta"; "a"] FDir.
Proof.
  pose (e := Env "/r" true
               (fun _ => Some [DocsDir "zeta" [MdFile ["a.md"] "# A"]])
               (fun cmd => ProcResult 0 "<html>" "") "2026-01-01T00:00:00Z").
  pose (w := World (<[TEMPLATE := FFile "t"]>
                      (<[INDEX_TEMPLATE := FFile "<!-- DRAWERS -->"]>
                         (<[["old"] := FDir]> (<[["old"; "x"] := FFile "y"]> ∅))))
                   [] [] []).
  assert ((main e w).1 = Done tt) as H1 by reflexivity.
  assert (fs (main e w).2 !! ["zeta"; "a"] = Some FDir) as H2 by reflexivity.
  destruct (main e w) as [o w'] eqn:E. simpl in H1, H2. subst o.
  apply (main_success_no_stale e w w' ["zeta"; "a"] FDir); [|exact E|exact H2].
  split; [reflexivity|]. split.
  - intros name x rest y H. cbn [fs w] in H.
    repeat (apply lookup_insert_Some in H as [[Heq Hv]|[_ H]];
            [try discriminate Heq; try discriminate Hv|]).
    + injection Heq as <- <- <-. reflexivity.
    + by rewrite lookup_empty in H.
  - intros name H. cbn [fs w] in H.
    repeat (apply lookup_insert_Some in H as [[Heq Hv]|[_ H]];
            [try discriminate Heq; try discriminate Hv|]).
    + injection Heq as <-. reflexivity.
    + by rewrite lookup_empty in H.
Defined.

(** ** Where the entries come from *)

Lemma scan_dirs_entries e root (dirs : list docs_dir) dds : forall acc,
  (forall dd, dd ∈ dds -> dd ∈ dirs) ->
  (forall d es, (d, es) ∈ acc ->
     exists dd, dd ∈ dirs /\ dd_name dd = d /\ es = folder_entries e root dd) ->
  forall d es, (d, es) ∈ foldl (scan_docs_dir e root) acc dds ->
    exists dd, dd ∈ dirs /\ dd_name dd = d /\ es = folder_entries e root dd.
Proof.
  induction dds as [|dd dds IH]; intros acc Hin Hacc; simpl; [done|].
  apply IH; [intros dd' Hdd'; apply Hin; by right|].
  intros d es. rewrite scan_docs_dir_eq.
  destruct (decide (dd_files dd = [])) as [H|H]; [apply Hacc|].
  intros [[-> ->]|?]%elem_of_dict_set; [|by apply Hacc].
  exists dd. split; [apply Hin; left|done].
Qed.

Lemma find_docs_entries e d es :
  (d, es) ∈ find_docs e ->
  exists dirs dd,
    listing e "dossiers" = Some dirs /\ dd ∈ dirs /\ dd_name dd = d
    /\ es = folder_entries e "dossiers" dd.
Proof.
  unfold find_docs, DOSSIER_ROOTS. simpl. unfold scan_root.
  destruct (listing e "dossiers") as [dirs|] eqn:E; [|by intros ?%elem_of_nil].
  intros H. apply (scan_dirs_entries e "dossiers" dirs) in H.
  - destruct H as (dd & Hdd & <- & ->). by exists dirs, dd.
  - intros dd. apply elem_of_sorted_by.
  - by intros ?? ?%elem_of_nil.
Qed.

(** X15: every dossier found is a docs folder of the listing, under the name of
    the folder, and its entries are made from the Markdown files of that
    folder, one entry for each file, in the sorted order of their relative
    paths; no entry has a document number yet. *)
Theorem find_docs_sound (e : env) (d : string) (es : list entry) :
  (d, es) ∈ find_docs e ->
  exists dirs dd,
    listing e "dossiers" = Some dirs /\ dd ∈ dirs /\ dd_name dd = d
    /\ dd_files dd <> []
    /\ es = map (make_entry e "dossiers" d)
                (sorted_by (fun a b => parts_ltb (md_rel a) (md_rel b)) (dd_files dd))
    /\ length es = length (dd_files dd)
    /\ Forall (fun en => e_doc_id en = None) es.
Proof.
  intros H. pose proof (find_docs_nonempty _ _ _ H) as Hne.
  apply find_docs_entries in H as (dirs & dd & Hl & Hdd & <- & ->).
  exists dirs, dd.
  split; [done|]. split; [done|]. split; [done|].
  split; [by rewrite <- (folder_entries_nil e "dossiers")|].
  split; [done|]. split.
  - unfold folder_entries. rewrite length_map.
    apply Permutation_length, sorted_by_perm.
  - unfold folder_entries. apply Forall_forall. intros en Hen.
    apply list_elem_of_In, in_map_iff in Hen as (md & <- & _). reflexivity.
Qed.

Lemma find_docs_sound_witness :
  exists dirs dd,
    listing (Env "/r" true
               (fun _ => Some [DocsDir "empty" []; DocsDir "zeta" [MdFile ["a.md"] "# A"]])
               (fun _ => ProcResult 0 "" "") "t") "dossiers" = Some dirs
    /\ dd ∈ dirs /\ dd_name dd = "zeta".
Proof.
  destruct (find_docs_sound
              (Env "/r" true
                 (fun _ => Some [DocsDir "empty" []; DocsDir "zeta" [MdFile ["a.md"] "# A"]])
                 (fun _ => ProcResult 0 "" "") "t")
              "zeta" [Entry "/r/dossiers/zeta/docs/a.md" "A" "a" "" None])
    as (dirs & dd & H1 & H2 & H3 & _).
  - vm_compute. left.
  - exists dirs, dd. by repeat split.
Defined.

(** ** The exceptions of a run *)

Lemma for_each_raise {A} (X : string -> Prop) (body : A -> M unit) l :
  (forall y w x w', y ∈ l -> body y w = (Raise x, w') -> X x) ->
  forall w x w', for_each l body w = (Raise x, w') -> X x.
Proof.
  induction l as [|y l IH]; intros Hbody w x w'; simpl; [done|].
  unfold bind. destruct (body y w) as [[[]|n|x1] w1] eqn:Ey.
  - apply IH. intros z v x2 v' Hz. apply Hbody. by right.
  - done.
  - intros [= <- <-]. eapply Hbody; [left|exact Ey].
Qed.

Lemma render_doc_raise e en dossier built_at w x w' :
  is_Some (e_doc_id en) ->
  (exists rest, e_path en = repo_root e +:+ "/" +:+ rest) ->
  render_doc e en dossier built_at w = (Raise x, w') -> fs_error x.
Proof.
  intros [doc_id Hid] [rest Hrest].
  unfold render_doc, bind, mkdir_p, lift, subprocess_run, write_text, print,
    eprint, sys_exit, get_doc_id.
  rewrite Hid, Hrest, relative_to_repo_under.
  destruct (existsb _ (ancestors (output_dir_for dossier (e_slug en)))).
  { intros [= <- <-]. destruct (existsb _ _); [right; by left|by left]. }
  cbn [fs stdout stderr spawned set_fs].
  destruct (negb _); [done|].
  destruct (_ && _); [done|]. intros [= <- <-]. right. by right.
Qed.

Lemma build_index_raise ds w x w' :
  build_index (assign_doc_ids ds) w = (Raise x, w') -> fs_error x.
Proof.
  unfold build_index, bind, read_text, lift, write_text, print.
  destruct (drawers_html_assigned ds) as [hs ->].
  destruct (fs w !! INDEX_TEMPLATE) as [[template|]|]; [|intros [= <- <-]; right; by right..].
  destruct (_ && _); [done|]. intros [= <- <-]. right. by right.
Qed.

Lemma assigned_path code entries en :
  en ∈ assign_entries code entries -> exists en0, en0 ∈ entries /\ e_path en = e_path en0.
Proof.
  intros [i Hi]%list_elem_of_lookup.
  destruct (entries !! i) as [en0|] eqn:He.
  - destruct (assign_entries_lookup code _ _ _ He) as (k & _ & Hk).
    rewrite Hk in Hi. injection Hi as <-. exists en0.
    split; [by eapply list_elem_of_lookup_2|done].
  - apply lookup_ge_None in He. apply lookup_lt_Some in Hi.
    rewrite length_assign_entries in Hi. lia.
Qed.

Lemma main_raise_fs_error (e : env) (w w' : world) (x : string) :
  main e w = (Raise x, w') -> fs_error x.
Proof.
  intros Hmain.
  destruct (which_pandoc e) eqn:Ew.
  2: { destruct (main_exits_early e w) as (msg & H & _); [by left|]. congruence. }
  destruct (file_at (fs w) TEMPLATE) eqn:Et.
  2: { destruct (main_exits_early e w) as (msg & H & _); [by right; left|]. congruence. }
  destruct (decide (find_docs e = [])) as [Hd|Hd].
  { destruct (main_exits_early e w) as (msg & H & _); [by right; right|]. congruence. }
  rewrite main_run in Hmain by done.
  set (ds := assign_doc_ids (find_docs e)) in *.
  unfold bind at 1 in Hmain.
  destruct (render_all e ds (now_utc e) _) as [[[]|n|x1] w1] eqn:Er.
  - unfold bind at 1 in Hmain.
    destruct (build_index ds w1) as [[[]|n|x2] w2] eqn:Eb; [done|done|].
    injection Hmain as <- <-. by eapply build_index_raise.
  - done.
  - injection Hmain as <- <-. unfold render_all in Er.
    eapply (for_each_raise fs_error); [|exact Er].
    intros [d es'] u x2 u' Hd'. apply (proj1 (elem_of_sorted_items _ _)) in Hd'.
    apply elem_of_assign_doc_ids in Hd' as (es & Hes & ->).
    unfold bind at 1. unfold print at 1.
    apply for_each_raise. intros en v x3 v' Hen.
    apply render_doc_raise; [by eapply assigned_has_id|].
    apply assigned_path in Hen as (en0 & Hen0 & ->).
    apply find_docs_entries in Hes as (dirs & dd & _ & _ & <- & ->).
    unfold folder_entries in Hen0.
    apply list_elem_of_In, in_map_iff in Hen0 as (md & <- & _).
    unfold make_entry. cbn [e_path]. by eexists.
Qed.

(** X16: a run never stops on a missing key: every document that is
    rendered or listed has its number, every dossier that is listed has
    its entries, and the path of every document is below the repository
    root, so that the source path can be made relative to it. *)
Theorem main_never_key_error (e : env) :
  let ds := assign_doc_ids (find_docs e) in
  (forall d es en, (d, es) ∈ ds -> en ∈ es ->
     (exists id, e_doc_id en = Some id)
     /\ exists rest, relative_to_repo e (e_path en) = Done rest)
  /\ (forall d, d ∈ sorted_names ds -> exists es, dict_get d ds = Some es)
  /\ forall w w' x, main e w = (Raise x, w') -> x <> "KeyError".
Proof.
  intros ds. split; [|split].
  - intros d es' en Hd Hen.
    apply elem_of_assign_doc_ids in Hd as (es & Hes & ->). split.
    + by eapply assigned_has_id.
    + apply assigned_path in Hen as (en0 & Hen0 & ->).
      apply find_docs_entries in Hes as (dirs & dd & _ & _ & <- & ->).
      unfold folder_entries in Hen0.
      apply list_elem_of_In, in_map_iff in Hen0 as (md & <- & _).
      unfold make_entry. cbn [e_path]. rewrite relative_to_repo_under. by eexists.
  - intros d Hd. rewrite sorted_names_perm in Hd. by apply elem_of_keys.
  - intros w w' x Hmain. by destruct (main_raise_fs_error _ _ _ _ Hmain) as [-> | [-> | ->]].
Qed.

Lemma main_never_key_error_witness :
  (main (Env "/r" true
           (fun _ => Some [DocsDir "zeta" [MdFile ["a.md"] "# A"]])
           (fun cmd => ProcResult 0 "<html>" "") "2026-01-01T00:00:00Z")
        (World (<[TEMPLATE := FFile "t"]> ∅) [] [] [])).1 = Raise "OSError"
  /\ "OSError" <> "KeyError".
Proof.
  assert ((main (Env "/r" true
                   (fun _ => Some [DocsDir "zeta" [MdFile ["a.md"] "# A"]])
                   (fun cmd => ProcResult 0 "<html>" "") "2026-01-01T00:00:00Z")
                (World (<[TEMPLATE := FFile "t"]> ∅) [] [] [])).1
          = Raise "OSError") as H1 by reflexivity.
  split; [exact H1|].
  destruct (main _ _) as [o w'] eqn:E in H1. simpl in H1. subst o.
  exact (proj2 (proj2 (main_never_key_error _)) _ _ _ E).
Defined.

(** ** The order of the dossiers *)

Lemma dict_set_fresh {V} k (v : V) d : k ∉ d.*1 -> dict_set k v d = d ++ [(k, v)].
Proof.
  induction d as [|[k' v'] d IH]; simpl; [done|].
  intros [Hk Hd]%not_elem_of_cons.
  destruct (String.eqb_spec k' k) as [->|_]; [done|]. by rewrite IH.
Qed.

Lemma scan_dirs_fresh e root dds : forall acc,
  NoDup (acc.*1 ++ (dd_name <$> dds)) ->
  foldl (scan_docs_dir e root) acc dds
  = acc ++ ((fun dd => (dd_name dd, folder_entries e root dd))
              <$> filter (fun dd => dd_files dd <> []) dds).
Proof.
  induction dds as [|dd dds IH]; intros acc Hnd; simpl.
  - by rewrite app_nil_r.
  - rewrite fmap_cons in Hnd. apply NoDup_app in Hnd as (Hacc & Hdisj & Hdds).
    apply NoDup_cons in Hdds as [Hdd Hdds].
    rewrite scan_docs_dir_eq, filter_cons.
    destruct (decide (dd_files dd = [])) as [H|H].
    + rewrite decide_False by (intros H'; by apply H'). apply IH.
      apply NoDup_app. split; [done|]. split; [|done].
      intros k Hk Hk'. apply (Hdisj k Hk). by right.
    + rewrite decide_True by done. rewrite fmap_cons, IH.
      * rewrite dict_set_fresh; [by rewrite <- (assoc_L (++))|].
        intros Hk. apply (Hdisj _ Hk). left.
      * rewrite dict_set_fresh by (intros Hk; apply (Hdisj _ Hk); left).
        rewrite fmap_app. simpl. rewrite <- (assoc_L (++)). simpl.
        apply NoDup_app. split; [done|]. split.
        -- intros k Hk [->|Hk']%elem_of_cons; [apply (Hdisj _ Hk); left|].
           apply (Hdisj k Hk). by right.
        -- by apply NoDup_cons.
Qed.

Lemma sorted_names_strict (names : list string) :
  NoDup names -> StronglySorted (not_after String.ltb) names ->
  StronglySorted (fun a b => String.ltb a b = true) names.
Proof.
  intros Hnd Hs. induction Hs as [|a l Hl IH Ha]; [constructor|].
  apply NoDup_cons in Hnd as [Hnot Hnd]. constructor; [by apply IH|].
  apply Forall_forall. intros b Hb. rewrite Forall_forall in Ha.
  destruct (String.ltb a b) eqn:E; [done|]. exfalso. apply Hnot.
  rewrite (ltb_antisym a b); [done|done|]. by apply Ha.
Qed.

Lemma strict_filter {A} (f : A -> string) (P : A -> Prop) `{!forall x, Decision (P x)} l :
  StronglySorted (fun a b => String.ltb a b = true) (f <$> l) ->
  StronglySorted (fun a b => String.ltb a b = true) (f <$> filter P l).
Proof.
  induction l as [|x l IH]; [done|]. rewrite fmap_cons, filter_cons.
  intros [Hl Hx]%StronglySorted_inv. destruct (decide (P x)); [|by apply IH].
  rewrite fmap_cons. constructor; [by apply IH|].
  apply Forall_forall. intros b (y & -> & Hy)%list_elem_of_fmap.
  apply list_elem_of_filter in Hy as [_ Hy]. rewrite Forall_forall in Hx.
  apply Hx. apply list_elem_of_fmap. by exists y.
Qed.

Lemma sorted_by_fixed {A} (lt : A -> A -> bool) l :
  StronglySorted (not_after lt) l -> sorted_by lt l = l.
Proof.
  induction 1 as [|x l Hl IH Hx]; [done|]. cbn [sorted_by foldr].
  fold (sorted_by lt l). rewrite IH. destruct l as [|y l]; [done|].
  simpl. apply Forall_inv in Hx. unfold not_after in Hx. by rewrite Hx.
Qed.

(** X17: when the docs folders of the listing have distinct names, the dossiers
    found are the folders with a Markdown file, each with the entries of
    its files, in ascending order of their names: the order in which [main]
    renders them is the order of the discovery. *)
Theorem find_docs_order (e : env) (dirs : list docs_dir) :
  listing e "dossiers" = Some dirs ->
  NoDup (dd_name <$> dirs) ->
  StronglySorted (fun a b => String.ltb a b = true) (find_docs e).*1
  /\ sorted_items (find_docs e) = find_docs e
  /\ (forall dd, dd ∈ dirs -> dd_files dd <> [] ->
        (dd_name dd, folder_entries e "dossiers" dd) ∈ find_docs e)
  /\ length (find_docs e) = length (filter (fun dd => dd_files dd <> []) dirs).
Proof.
  intros Hl Hnd.
  set (sorted := sorted_by (fun a b => String.ltb (dd_name a) (dd_name b)) dirs).
  assert (Hperm : sorted ≡ₚ dirs) by apply sorted_by_perm.
  assert (Hfind : find_docs e
                  = (fun dd => (dd_name dd, folder_entries e "dossiers" dd))
                      <$> filter (fun dd => dd_files dd <> []) sorted).
  { unfold find_docs, DOSSIER_ROOTS. simpl. unfold scan_root. rewrite Hl.
    rewrite scan_dirs_fresh; [done|]. simpl. fold sorted. by rewrite Hperm. }
  assert (Hkeys : StronglySorted (fun a b => String.ltb a b = true) (find_docs e).*1).
  { rewrite Hfind, <- list_fmap_compose.
    apply (strict_filter dd_name). apply sorted_names_strict; [by rewrite Hperm|].
    unfold sorted. clear. induction dirs as [|dd dirs IH]; [constructor|].
    simpl. revert IH.
    generalize (sorted_by (fun a b => String.ltb (dd_name a) (dd_name b)) dirs).
    intros l Hs. induction l as [|y l IHl]; simpl; [repeat constructor|].
    rewrite fmap_cons in Hs. apply StronglySorted_inv in Hs as [Hs Hy].
    destruct (String.ltb (dd_name y) (dd_name dd)) eqn:E.
    - rewrite fmap_cons. constructor; [by apply IHl|].
      apply Forall_forall. intros b (z & -> & Hz)%list_elem_of_fmap.
      rewrite insert_by_perm in Hz. apply elem_of_cons in Hz as [->|Hz].
      + unfold not_after. by apply ltb_asym.
      + rewrite Forall_forall in Hy. apply Hy. apply list_elem_of_fmap. by exists z.
    - rewrite !fmap_cons. constructor; [by constructor|].
      constructor; [exact E|].
      eapply Forall_impl; [exact Hy|]. intros c Hc.
      by apply (ltb_not_after_trans _ (dd_name y)). }
  split; [done|]. split; [|split].
  - unfold sorted_items. apply sorted_by_fixed.
    revert Hkeys. generalize (find_docs e). intros l.
    induction l as [|[k v] l IH]; [constructor|]. rewrite fmap_cons.
    intros [Hs Hk]%StronglySorted_inv. constructor; [by apply IH|].
    apply Forall_forall. intros [k' v'] Hin. rewrite Forall_forall in Hk.
    unfold not_after. simpl. apply ltb_asym. apply Hk.
    apply list_elem_of_fmap. by exists (k', v').
  - intros dd Hdd Hf. rewrite Hfind. apply list_elem_of_fmap. exists dd.
    split; [done|]. apply list_elem_of_filter. split; [done|]. by rewrite Hperm.
  - rewrite Hfind, length_fmap. apply Permutation_length.
    by rewrite Hperm.
Qed.

Lemma find_docs_order_witness :
  sorted_items
    (find_docs (Env "/r" true
                  (fun _ => Some [DocsDir "zeta" [MdFile ["a.md"] "# A"];
                                  DocsDir "empty" [];
                                  DocsDir "alpha" [MdFile ["x.md"] "# X"]])
                  (fun _ => ProcResult 0 "" "") "t"))
  = find_docs (Env "/r" true
                 (fun _ => Some [DocsDir "zeta" [MdFile ["a.md"] "# A"];
                                 DocsDir "empty" [];
                                 DocsDir "alpha" [MdFile ["x.md"] "# X"]])
                 (fun _ => ProcResult 0 "" "") "t").
Proof.
  apply (find_docs_order _ [DocsDir "zeta" [MdFile ["a.md"] "# A"];
                            DocsDir "empty" [];
                            DocsDir "alpha" [MdFile ["x.md"] "# X"]]).
  - reflexivity.
  - by apply (bool_decide_unpack _).
Defined.
